(** * shpeegle-reader: the EPUB structural parser and content normaliser

A shallow embedding of the EPUB core of [src/components/Reader.jsx]
(whole-book reader) and of the per-chapter reader kept in
[src/components/Library.jsx]: path resolution, package and navigation
parsing, content normalisation and table-of-contents navigation.

JavaScript strings are modelled by [string]; the functions below only
ever compare code units with the ASCII characters ['/'], ['#'] and
['.'] or with ASCII literals, so the width of a code unit plays no
role. *)

From Stdlib Require Import String Ascii List ZArith Bool Lia DecimalString.
From stdpp Require Import gmap strings.
Import ListNotations.

Local Open Scope string_scope.
Local Open Scope list_scope.

(** ** String primitives of the host language *)

Module Js.

(** [s.split(sep)] for a one-character separator: never the empty list,
    [''.split('/')] is [['']]. *)
Fixpoint split (sep : ascii) (s : string) : list string :=
  match s with
  | EmptyString => [EmptyString]
  | String c s' =>
      if Ascii.eqb c sep then EmptyString :: split sep s'
      else match split sep s' with
           | seg :: segs => String c seg :: segs
           | [] => [String c EmptyString]
           end
  end.

(** [Boolean(s)] on a string: every string but the empty one is truthy. *)
Definition Boolean (s : string) : bool :=
  match s with EmptyString => false | String _ _ => true end.

(** [parts.join(sep)]. *)
Definition join (sep : string) (parts : list string) : string :=
  String.concat sep parts.

(** [s.startsWith(p)]. *)
Definition startsWith (s p : string) : bool := String.prefix p s.

(** [s.lastIndexOf(c)]: the scan keeps the index of the latest hit,
    [-1] when there is none. *)
Fixpoint lastIndexOf_from (c : ascii) (s : string) (i found : Z) : Z :=
  match s with
  | EmptyString => found
  | String a s' =>
      lastIndexOf_from c s' (i + 1) (if Ascii.eqb a c then i else found)
  end.

Definition lastIndexOf (s : string) (c : ascii) : Z :=
  lastIndexOf_from c s 0 (-1).

(** [s.substring(0, n)]. *)
Definition substring_to (s : string) (n : Z) : string :=
  String.substring 0 (Z.to_nat n) s.

(** [s.includes(p)]. *)
Fixpoint includes (s p : string) : bool :=
  String.prefix p s
  || match s with
     | EmptyString => false
     | String _ s' => includes s' p
     end.

(** [stack.pop()] used as a statement: drops the last element, and leaves
    an empty array as it is. *)
Definition pop {A} (stack : list A) : list A := removelast stack.

(** [stack.push(x)]. *)
Definition push {A} (stack : list A) (x : A) : list A := stack ++ [x].

End Js.

(** ** Path helpers

[normalizePath], [dirOf] and [resolveHref] are textually the same in
[Reader.jsx] and in the per-chapter reader of [Library.jsx]. *)

Definition normalizeStep (stack : list string) (p : string) : list string :=
  if String.eqb p ".." then Js.pop stack
  else if negb (String.eqb p ".") then Js.push stack p
  else stack.

Definition normalizeSegments (parts : list string) : list string :=
  fold_left normalizeStep parts [].

Definition normalizePath (path : string) : string :=
  let parts := List.filter Js.Boolean (Js.split "/" path) in
  let stack := normalizeSegments parts in
  Js.join "/" stack.

Definition dirOf (path : string) : string :=
  let i := Js.lastIndexOf path "/" in
  if (i >=? 0)%Z then Js.substring_to path (i + 1) else "".

(** [href] is [None] for [null] (an attribute that is not there). *)
Definition resolveHref (basePath : string) (href : option string) : string :=
  match href with
  | None => ""
  | Some "" => ""
  | Some href =>
      if Js.startsWith href "/" then normalizePath href
      else normalizePath (dirOf basePath ++ href)
  end.

(** *** The resolver as the specification words it

"A reference beginning with [/] is treated as container-rooted before
normalization; otherwise it is resolved relative to the directory of
[basePath] (text up to and including the last [/]).  Normalization:
split on [/], drop empty and [.] segments, and for each [..] segment
pop the previous retained segment (popping past the root is a no-op)." *)

Module PathSpec.

Definition hasSlash (s : string) : bool := Js.includes s "/".

(** The text up to and including the last ['/']. *)
Fixpoint directory (path : string) : string :=
  match path with
  | EmptyString => EmptyString
  | String c rest =>
      if hasSlash path then String c (directory rest) else EmptyString
  end.

(** [retained] holds the segments kept so far, the latest first. *)
Fixpoint collapse (retained segments : list string) : list string :=
  match segments with
  | [] => rev retained
  | seg :: rest =>
      if String.eqb seg "" || String.eqb seg "." then collapse retained rest
      else if String.eqb seg ".." then collapse (tl retained) rest
      else collapse (seg :: retained) rest
  end.

Definition normalize (path : string) : string :=
  Js.join "/" (collapse [] (Js.split "/" path)).

(** "Beginning with [/]". *)
Definition beginsWithSlash (reference : string) : bool :=
  match reference with
  | EmptyString => false
  | String c _ => Ascii.eqb c "/"
  end.

Definition resolve (basePath reference : string) : string :=
  if beginsWithSlash reference then normalize reference
  else normalize (directory basePath ++ reference).

End PathSpec.


(** ** Exceptions

An [async] function settles with a value or rejects; a synchronous one
returns or throws.  Both are an [Outcome]; the payload of [Throw] is the
message of the error. *)

Inductive Outcome (A : Type) : Type :=
| Return (a : A)
| Throw (message : string).

Arguments Return {A} a.
Arguments Throw {A} message.

Definition bind {A B} (m : Outcome A) (k : A -> Outcome B) : Outcome B :=
  match m with
  | Return a => k a
  | Throw e => Throw e
  end.

(** [try { body } catch {}] around a body that assigns its result to a
    variable holding [fallback]. *)
Definition tryCatch {A} (body : Outcome A) (fallback : A) : A :=
  match body with
  | Return a => a
  | Throw _ => fallback
  end.

Declare Scope outcome_scope.
Delimit Scope outcome_scope with outcome.
Notation "x <- m ;; k" := (bind m (fun x => k))
  (at level 100, m at next level, right associativity) : outcome_scope.
Local Open Scope outcome_scope.

(** ** The document object model

What the readers use of the DOM that [DOMParser] hands back: element
trees with text leaves.  An element's attributes are keyed by qualified
name (a parsed element never has two attributes of one qualified name);
[namespaced] tells whether the attribute lives in a namespace, as
[epub:type] or [xlink:href] do in a document parsed as XML.  Type
selectors compare local names; attribute selectors only see attributes
that are in no namespace. *)

Module Dom.

Record Attr : Type := mkAttr { namespaced : bool; value : string }.

(** The namespace of an element, as far as the code depends on it: an
    HTML element (an element of the HTML namespace, which is what the
    HTML parser makes of every tag outside [svg] and [math], and what an
    XML parser makes of the elements of an XHTML document), or an element
    of any other namespace or of none (SVG, MathML, the vocabularies of
    the package and navigation-control documents). *)
Inductive Namespace : Type := HTML | Foreign.

#[local] Unset Elimination Schemes.
Inductive Node : Type :=
| Element (namespace : Namespace) (localName : string)
          (attributes : gmap string Attr) (childNodes : list Node)
| Text (data : string).
#[local] Set Elimination Schemes.

Definition named (name : string) (n : Node) : bool :=
  match n with
  | Element _ localName _ _ => String.eqb localName name
  | Text _ => false
  end.

Definition attributesOf (n : Node) : gmap string Attr :=
  match n with Element _ _ attrs _ => attrs | Text _ => ∅ end.

Definition children (n : Node) : list Node :=
  match n with Element _ _ _ cs => cs | Text _ => [] end.

(** [el.getAttribute(name)], [None] for [null]. *)
Definition getAttribute (attrs : gmap string Attr) (name : string)
  : option string :=
  match attrs !! name with
  | Some a => Some (value a)
  | None => None
  end.

(** [el.setAttribute(name, v)]: an attribute of that qualified name keeps
    its namespace, a new one is created in no namespace. *)
Definition setAttribute (attrs : gmap string Attr) (name v : string)
  : gmap string Attr :=
  match attrs !! name with
  | Some a => <[name := mkAttr (namespaced a) v]> attrs
  | None => <[name := mkAttr false v]> attrs
  end.

(** [el.removeAttribute(name)]. *)
Definition removeAttribute (attrs : gmap string Attr) (name : string)
  : gmap string Attr :=
  delete name attrs.

(** The attribute selector [[name]]. *)
Definition hasAttr (name : string) (attrs : gmap string Attr) : bool :=
  match attrs !! name with
  | Some a => negb (namespaced a)
  | None => false
  end.

(** The attribute selector [[name="v"]]: the whole value, compared
    exactly. *)
Definition attrIs (name v : string) (attrs : gmap string Attr) : bool :=
  match attrs !! name with
  | Some a => negb (namespaced a) && String.eqb (value a) v
  | None => false
  end.

(** ASCII lower case. *)
Definition asciiLower (c : ascii) : ascii :=
  let n := nat_of_ascii c in
  if Nat.leb 65 n && Nat.leb n 90 then ascii_of_nat (n + 32) else c.

Fixpoint asciiLowerCase (s : string) : string :=
  match s with
  | EmptyString => EmptyString
  | String c s' => String (asciiLower c) (asciiLowerCase s')
  end.

(** The attribute selector [[name="v"]] where the value is compared
    without regard to ASCII case. *)
Definition attrIsNoCase (name v : string) (attrs : gmap string Attr) : bool :=
  match attrs !! name with
  | Some a =>
      negb (namespaced a)
      && String.eqb (asciiLowerCase (value a)) (asciiLowerCase v)
  | None => false
  end.

(** [[rel="v"]] on the element [n] of a document.  [rel] is one of the
    attributes whose value a selector compares without regard to ASCII
    case on an HTML element in an HTML document; on every other element,
    and on every element of an XML document, it is compared exactly. *)
Definition relIs (htmlDocument : bool) (v : string) (n : Node) : bool :=
  match n with
  | Element HTML _ attrs _ =>
      if htmlDocument then attrIsNoCase "rel" v attrs else attrIs "rel" v attrs
  | Element Foreign _ attrs _ => attrIs "rel" v attrs
  | Text _ => false
  end.

(** Proper descendants in document order. *)
Fixpoint descendants (n : Node) : list Node :=
  match n with
  | Element _ _ _ cs => flat_map (fun c => c :: descendants c) cs
  | Text _ => []
  end.

(** The nodes a selector run on the document ranges over. *)
Definition inclusiveDescendants (root : Node) : list Node :=
  root :: descendants root.

(** [n.textContent]. *)
Fixpoint textContent (n : Node) : string :=
  match n with
  | Element _ _ _ cs => String.concat "" (List.map textContent cs)
  | Text d => d
  end.

(** [doc.querySelector(sel)] for a compound selector [sel] (one that looks
    at the element alone). *)
Definition querySelector (sel : Node -> bool) (root : Node) : option Node :=
  List.find sel (inclusiveDescendants root).

(** [el.querySelectorAll(sel)] and [el.querySelector(sel)]: only proper
    descendants of [el]. *)
Definition querySelectorAllIn (sel : Node -> bool) (el : Node) : list Node :=
  List.filter sel (descendants el).

Definition querySelectorIn (sel : Node -> bool) (el : Node) : option Node :=
  List.find sel (descendants el).

(** [el.querySelectorAll(':scope > name')] *)
Definition scopeChildren (name : string) (el : Node) : list Node :=
  List.filter (named name) (children el).

(** [doc.querySelectorAll('ancestor name')]: the elements called [name]
    below an element called [ancestor], in document order.  [inside] tells
    whether an ancestor of [n] matched. *)
Fixpoint selectBelow (ancestor name : string) (inside : bool) (n : Node)
  : list Node :=
  match n with
  | Element _ localName _ cs =>
      (if inside && String.eqb localName name then [n] else [])
      ++ flat_map
           (selectBelow ancestor name (inside || String.eqb localName ancestor))
           cs
  | Text _ => []
  end.

Definition querySelectorAllBelow (ancestor name : string) (root : Node)
  : list Node :=
  selectBelow ancestor name false root.

(** [doc.querySelectorAll('parent > name')]: [under] tells whether the
    parent of [n] matched. *)
Fixpoint selectChildOf (parent name : string) (under : bool) (n : Node)
  : list Node :=
  match n with
  | Element _ localName _ cs =>
      (if under && String.eqb localName name then [n] else [])
      ++ flat_map (selectChildOf parent name (String.eqb localName parent)) cs
  | Text _ => []
  end.

Definition querySelectorAllChildOf (parent name : string) (root : Node)
  : list Node :=
  selectChildOf parent name false root.

(** *** In-place updates, seen from a node

The loops of the normaliser change the tree in place while [body]
keeps pointing at one of its elements.  What such a loop does to the
subtree hanging under a node is a function of that subtree: *)

(** [for (const el of doc.querySelectorAll(sel)) el.remove()]: every
    matching element is unhooked from its parent, so under any node that
    the caller still holds no matching proper descendant is left.  (The
    node itself stays in the caller's hands even if it matched, or if one
    of its ancestors did.) *)
Fixpoint removeAll (sel : Node -> bool) (n : Node) : Node :=
  match n with
  | Element ns localName attrs cs =>
      Element ns localName attrs
        (flat_map (fun c => if sel c then [] else [removeAll sel c]) cs)
  | Text d => Text d
  end.

(** An update of the attributes of every element of a subtree, its root
    included. *)
Fixpoint updateElements
  (f : string -> gmap string Attr -> gmap string Attr) (n : Node) : Node :=
  match n with
  | Element ns localName attrs cs =>
      Element ns localName (f localName attrs) (List.map (updateElements f) cs)
  | Text d => Text d
  end.

(** [for (const el of body.querySelectorAll(sel)) update(el)] where
    [update] only touches the attributes of [el] and [f] is the identity
    on the elements that [sel] does not match: proper descendants only. *)
Definition updateDescendants
  (f : string -> gmap string Attr -> gmap string Attr) (n : Node) : Node :=
  match n with
  | Element ns localName attrs cs =>
      Element ns localName attrs (List.map (updateElements f) cs)
  | Text d => Text d
  end.

End Dom.

Import Dom.

(** ** The archive

A [JSZip] instance, as far as [zip.file(name)] shows it: its file
entries by name (JSZip keeps them in an object without prototype, and
does not return directories).  Reading an entry is asynchronous and may
reject, for instance on a damaged compressed stream. *)

Definition Blob : Type := list Byte.byte.

Record ZipObject : Type := mkZipObject {
  async_text : Outcome string;   (* [file.async('text')] *)
  async_blob : Outcome Blob      (* [file.async('blob')] *)
}.

Abbreviation JSZip := (gmap string ZipObject).

(** [zip.file(name)], [None] for [null]. *)
Definition file (zip : JSZip) (name : string) : option ZipObject := zip !! name.

(** [await zip.file(name)?.async('text')], [None] for [undefined]. *)
Definition readText (zip : JSZip) (name : string) : Outcome (option string) :=
  match file zip name with
  | Some f => text <- async_text f ;; Return (Some text)
  | None => Return None
  end.

(** [x || ''] for [x] a string or [null]/[undefined]. *)
Definition orEmpty (x : option string) : string :=
  match x with Some s => s | None => "" end.

(** [!x] is false: a string that is there and not empty. *)
Definition nonEmpty (x : option string) : option string :=
  match x with
  | Some (String c s) => Some (String c s)
  | _ => None
  end.

(** A value used as a property key or concatenated to a string. *)
Definition keyOfNullable (x : option string) : string :=
  match x with Some s => s | None => "null" end.

Definition stringOfOptional (x : option string) : string :=
  match x with Some s => s | None => "undefined" end.

(** ** The manifest object

[manifest] is a plain object ([{}]) used as a dictionary from item id to
item record.  A plain object inherits from [Object.prototype]: reading
[manifest[key]] for a key that is not an own property falls through to
the prototype chain, and assigning to the key [__proto__] replaces the
prototype instead of adding a property. *)

Record ManifestItem : Type := mkManifestItem {
  href : option string;
  mediaType : string;
  properties : string;
  fullPath : string
}.

Module Obj.

(** What [manifest[key]] can evaluate to. *)
Inductive Value : Type :=
| Undefined
| Null
| Str (s : string)
| Item (m : ManifestItem)
| Builtin.     (* a method of [Object.prototype], or [Object.prototype] itself *)

Definition truthy (v : Value) : bool :=
  match v with
  | Undefined | Null => false
  | Str s => Js.Boolean s
  | Item _ | Builtin => true
  end.

(** The property names every plain object inherits. *)
Definition prototypeKeys : list string :=
  [ "constructor"; "hasOwnProperty"; "isPrototypeOf"; "propertyIsEnumerable";
    "toLocaleString"; "toString"; "valueOf"; "__defineGetter__";
    "__defineSetter__"; "__lookupGetter__"; "__lookupSetter__"; "__proto__" ].

(** [own]: the own properties in the order of their creation; [proto]:
    the item record installed as prototype by an assignment to
    [__proto__], if any (its own prototype is [Object.prototype]). *)
Record t : Type := mkObj {
  own : list (string * ManifestItem);
  proto : option ManifestItem
}.

(** [{}] *)
Definition empty : t := mkObj [] None.

Fixpoint lookup (props : list (string * ManifestItem)) (key : string)
  : option ManifestItem :=
  match props with
  | [] => None
  | (k, v) :: rest => if String.eqb k key then Some v else lookup rest key
  end.

(** An existing property keeps its place, a new one goes last. *)
Fixpoint store (props : list (string * ManifestItem)) (key : string)
  (v : ManifestItem) : list (string * ManifestItem) :=
  match props with
  | [] => [(key, v)]
  | (k, w) :: rest =>
      if String.eqb k key then (k, v) :: rest else (k, w) :: store rest key v
  end.

(** [o[key] = v] *)
Definition set (o : t) (key : string) (v : ManifestItem) : t :=
  if String.eqb key "__proto__" then mkObj (own o) (Some v)
  else mkObj (store (own o) key v) (proto o).

Definition fromObjectPrototype (key : string) (prototype : Value) : Value :=
  if String.eqb key "__proto__" then prototype
  else if existsb (String.eqb key) prototypeKeys then Builtin
  else Undefined.

Definition fromItem (p : ManifestItem) (key : string) : option Value :=
  if String.eqb key "href" then
    Some (match href p with Some h => Str h | None => Null end)
  else if String.eqb key "mediaType" then Some (Str (mediaType p))
  else if String.eqb key "properties" then Some (Str (properties p))
  else if String.eqb key "fullPath" then Some (Str (fullPath p))
  else None.

(** [o[key]] *)
Definition get (o : t) (key : string) : Value :=
  match lookup (own o) key with
  | Some m => Item m
  | None =>
      match proto o with
      | Some p =>
          match fromItem p key with
          | Some v => v
          | None => fromObjectPrototype key (Item p)
          end
      | None => fromObjectPrototype key Builtin
      end
  end.

(** Keys that are array indices (canonical decimal numerals below
    [2^32 - 1]) are enumerated first, in ascending order; the other keys
    follow in the order of their creation. *)
Definition digit (c : ascii) : option N :=
  let n := N_of_ascii c in
  if ((48 <=? n) && (n <=? 57))%N then Some (n - 48)%N else None.

Fixpoint numeral (s : string) (acc : N) : option N :=
  match s with
  | EmptyString => Some acc
  | String c s' =>
      match digit c with
      | Some d => numeral s' (acc * 10 + d)%N
      | None => None
      end
  end.

Definition arrayIndex (key : string) : option N :=
  match key with
  | EmptyString => None
  | String "0" EmptyString => Some 0%N
  | String "0" _ => None
  | _ =>
      match numeral key 0 with
      | Some n => if (n <? 2 ^ 32 - 1)%N then Some n else None
      | None => None
      end
  end.

Fixpoint insertByIndex (i : N) (v : ManifestItem)
  (sorted : list (N * ManifestItem)) : list (N * ManifestItem) :=
  match sorted with
  | [] => [(i, v)]
  | (j, w) :: rest =>
      if (i <? j)%N then (i, v) :: sorted else (j, w) :: insertByIndex i v rest
  end.

Definition indexed (props : list (string * ManifestItem))
  : list (N * ManifestItem) :=
  fold_right
    (fun kv acc =>
       match arrayIndex (fst kv) with
       | Some i => insertByIndex i (snd kv) acc
       | None => acc
       end)
    [] props.

Definition named (props : list (string * ManifestItem))
  : list (string * ManifestItem) :=
  List.filter
    (fun kv => match arrayIndex (fst kv) with Some _ => false | None => true end)
    props.

(** [Object.values(o)] *)
Definition values (o : t) : list ManifestItem :=
  List.map snd (indexed (own o)) ++ List.map snd (named (own o)).

End Obj.

(** An element of [spine]: [{ id: idref, ...manifest[idref] }].  [spread]
    is the value whose own enumerable properties were copied: the four
    fields of an item record, nothing for a built-in, and the indexed
    characters of a string (which nobody reads). *)
Record SpineItem : Type := mkSpineItem {
  id : option string;
  spread : Obj.Value
}.

(** [item.fullPath] and [item.mediaType], [None] for [undefined]. *)
Definition itemFullPath (item : SpineItem) : option string :=
  match spread item with
  | Obj.Item m => Some (fullPath m)
  | _ => None
  end.

Definition itemMediaType (item : SpineItem) : option string :=
  match spread item with
  | Obj.Item m => Some (mediaType m)
  | _ => None
  end.

(** An entry of the table of contents: [{ label, href, subitems }]. *)
Module Nav.

#[local] Unset Elimination Schemes.
Inductive Item : Type :=
| mk (label : string) (href : string) (subitems : list Item).
#[local] Set Elimination Schemes.

Definition label (i : Item) : string := let 'mk l _ _ := i in l.
Definition href (i : Item) : string := let 'mk _ h _ := i in h.
Definition subitems (i : Item) : list Item := let 'mk _ _ s := i in s.

End Nav.

(** The double quote character. *)
Definition dquote : string := String (ascii_of_nat 34) EmptyString.

(** ** The host environment

    The interfaces the readers call and whose code is not theirs:
    [new DOMParser().parseFromString(text, type)] (which never throws: a
    document that is not well-formed comes back as a [parsererror]
    document), [String.prototype.trim] (of which only [''.trim() === '']
    is ever relied on), [FileReader.readAsDataURL] (the [result] it ends
    with), [JSZip.loadAsync], which rejects what is not an archive, and
    the serialiser behind [el.innerHTML]. *)

Class Host : Type := {
  parseFromString : string -> string -> Node;
  trim : string -> string;
  trim_empty : trim "" = "";
  readAsDataURL : Blob -> string;
  loadAsync : list Byte.byte -> Outcome JSZip;
  innerHTML : Node -> string
}.

(** ** Package and navigation parsing

[parseStructure] of [Reader.jsx] and [parseEpub] of the per-chapter
reader share their text up to the way the archive is opened, one error
message and the shape of the result. *)

Section Parsing.

Context `{Host}.

(** [parseNcxPoints(points, ncxPath)] *)
Fixpoint parseNcxPoint (ncxPath : string) (np : Node) : Nav.Item :=
  match np with
  | Element _ _ _ cs =>
      let label :=
        orEmpty
          (option_map (fun text => trim (textContent text))
             (List.head
                (flat_map (scopeChildren "text")
                   (List.filter (named "navLabel") cs)))) in
      let src :=
        match List.find (named "content") cs with
        | Some content => orEmpty (getAttribute (attributesOf content) "src")
        | None => ""
        end in
      Nav.mk label (resolveHref ncxPath (Some src))
        (flat_map
           (fun c => if named "navPoint" c then [parseNcxPoint ncxPath c] else [])
           cs)
  | Text _ => Nav.mk "" (resolveHref ncxPath (Some "")) []
  end.

Definition parseNcxPoints (points : list Node) (ncxPath : string)
  : list Nav.Item :=
  List.map (parseNcxPoint ncxPath) points.

(** [f] applied to [el.querySelector(':scope > name')], [d] when there is
    no such child. *)
Definition onScopeChild {A} (name : string) (f : Node -> A) (d : A)
  : list Node -> A :=
  fix go cs :=
    match cs with
    | [] => d
    | c :: rest => if named name c then f c else go rest
    end.

(** [parseNavOl(ol, navPath)] for an [ol] that is there. *)
Fixpoint parseNavList (navPath : string) (ol : Node) : list Nav.Item :=
  match ol with
  | Element _ _ _ lis =>
      flat_map
        (fun li =>
           match li with
           | Element _ name _ cs =>
               if String.eqb name "li" then
                 match List.find (named "a") cs with
                 | None => []
                 | Some a =>
                     [ Nav.mk
                         (orEmpty (Some (trim (textContent a))))
                         (resolveHref navPath
                            (Some (orEmpty (getAttribute (attributesOf a) "href"))))
                         (onScopeChild "ol" (parseNavList navPath) [] cs) ]
                 end
               else []
           | Text _ => []
           end)
        lis
  | Text _ => []
  end.

Definition parseNavOl (ol : option Node) (navPath : string) : list Nav.Item :=
  match ol with
  | None => []
  | Some ol => parseNavList navPath ol
  end.

(** The record built for a manifest [item] element. *)
Definition manifestItem (opfPath : string) (item : Node) : ManifestItem :=
  let href := getAttribute (attributesOf item) "href" in
  {| href := href;
     mediaType := orEmpty (getAttribute (attributesOf item) "media-type");
     properties := orEmpty (getAttribute (attributesOf item) "properties");
     fullPath := resolveHref opfPath href |}.

(** "Build manifest": the loop over [opfDoc.querySelectorAll('manifest item')]. *)
Definition buildManifest (opfPath : string) (opfDoc : Node) : Obj.t :=
  fold_left
    (fun manifest item =>
       let id := getAttribute (attributesOf item) "id" in
       Obj.set manifest (keyOfNullable id) (manifestItem opfPath item))
    (querySelectorAllBelow "manifest" "item" opfDoc)
    Obj.empty.

(** One turn of the loop over the [itemref] elements. *)
Definition spineStep (manifest : Obj.t) (spine : list SpineItem)
  (idref : option string) : list SpineItem :=
  let entry := Obj.get manifest (keyOfNullable idref) in
  if Obj.truthy entry then Js.push spine (mkSpineItem idref entry)
  else spine.

(** "Build spine": the loop over [opfDoc.querySelectorAll('spine itemref')]. *)
Definition buildSpine (manifest : Obj.t) (opfDoc : Node) : list SpineItem :=
  fold_left
    (fun spine ref =>
       spineStep manifest spine (getAttribute (attributesOf ref) "idref"))
    (querySelectorAllBelow "spine" "itemref" opfDoc)
    [].

(** The legacy attempt: the body of [if (ncxItem) { try { ... } catch {} }]. *)
Definition tocFromNcx (zip : JSZip) (ncxItem : ManifestItem)
  : Outcome (list Nav.Item) :=
  ncxXml <- readText zip (fullPath ncxItem) ;;
  match nonEmpty ncxXml with
  | Some ncxXml =>
      let ncxDoc := parseFromString ncxXml "application/xml" in
      Return (parseNcxPoints
                (querySelectorAllChildOf "navMap" "navPoint" ncxDoc)
                (fullPath ncxItem))
  | None => Return []
  end.

(** The modern attempt: the body of [if (navItem) { try { ... } catch {} }]. *)
Definition tocFromNav (zip : JSZip) (navItem : ManifestItem)
  : Outcome (list Nav.Item) :=
  navXml <- readText zip (fullPath navItem) ;;
  match nonEmpty navXml with
  | Some navXml =>
      let navDoc := parseFromString navXml "application/xhtml+xml" in
      let navEl :=
        match querySelector
                (fun n => named "nav" n && attrIs "epub:type" "toc" (attributesOf n))
                navDoc with
        | Some el => Some el
        | None => querySelector (named "nav") navDoc
        end in
      match navEl with
      | Some navEl =>
          Return (parseNavOl (querySelectorIn (named "ol") navEl) (fullPath navItem))
      | None => Return []
      end
  | None => Return []
  end.

(** [Object.values(manifest).find((m) => m.mediaType === 'application/x-dtbncx+xml')] *)
Definition ncxItemOf (manifest : Obj.t) : option ManifestItem :=
  List.find (fun m => String.eqb (mediaType m) "application/x-dtbncx+xml")
    (Obj.values manifest).

(** [Object.values(manifest).find((m) => m.properties.includes('nav'))] *)
Definition navItemOf (manifest : Obj.t) : option ManifestItem :=
  List.find (fun m => Js.includes (properties m) "nav") (Obj.values manifest).

(** "Parse TOC - try NCX first, then epub3 NAV". *)
Definition parseToc (zip : JSZip) (manifest : Obj.t) : list Nav.Item :=
  let toc := [] in
  let toc :=
    match ncxItemOf manifest with
    | Some ncxItem => tryCatch (tocFromNcx zip ncxItem) toc
    | None => toc
    end in
  if (length toc =? 0)%nat then
    match navItemOf manifest with
    | Some navItem => tryCatch (tocFromNav zip navItem) toc
    | None => toc
    end
  else toc.

(** The common text of [parseStructure] and [parseEpub], which yields the
    spine, the manifest and the table of contents; [noRootfile] is the
    message the two differ in. *)
Definition parsePackage (noRootfile : string) (zip : JSZip)
  : Outcome (list SpineItem * Obj.t * list Nav.Item) :=
  containerXml <- readText zip "META-INF/container.xml" ;;
  match nonEmpty containerXml with
  | None => Throw "Invalid epub: missing container.xml"
  | Some containerXml =>
      let containerDoc := parseFromString containerXml "application/xml" in
      let opfPath :=
        match querySelector (named "rootfile") containerDoc with
        | Some rootfile => getAttribute (attributesOf rootfile) "full-path"
        | None => None
        end in
      match nonEmpty opfPath with
      | None => Throw noRootfile
      | Some opfPath =>
          opfXml <- readText zip opfPath ;;
          match nonEmpty opfXml with
          | None => Throw "Invalid epub: missing OPF"
          | Some opfXml =>
              let opfDoc := parseFromString opfXml "application/xml" in
              let manifest := buildManifest opfPath opfDoc in
              let spine := buildSpine manifest opfDoc in
              let toc := parseToc zip manifest in
              Return (spine, manifest, toc)
          end
      end
  end.

End Parsing.

(** An exception raised by the engine itself (reading a property of
    [undefined]). *)
Definition typeError : string := "TypeError".

(** ** Content normalisation *)

Section Content.

Context `{Host}.

Definition blobToDataUrl (blob : Blob) : string := readAsDataURL blob.

(** The selector [style, link[rel="stylesheet"]], in an HTML document
    ([htmlDocument]) or in an XML document. *)
Definition isStylesheet (htmlDocument : bool) (n : Node) : bool :=
  named "style" n || (named "link" n && relIs htmlDocument "stylesheet" n).

(** [el.removeAttribute('style')] on the elements that [[style]] selects. *)
Definition stripStyle (name : string) (attrs : gmap string Attr)
  : gmap string Attr :=
  if hasAttr "style" attrs then removeAttribute attrs "style" else attrs.

(** One turn of the loop over [body.querySelectorAll('img')]. *)
Definition inlineImg (zip : JSZip) (itemDir : string) (name : string)
  (attrs : gmap string Attr) : gmap string Attr :=
  if String.eqb name "img" then
    match nonEmpty (getAttribute attrs "src") with
    | None => attrs
    | Some src =>
        if Js.startsWith src "data:" then attrs
        else
          let fullPath := normalizePath (itemDir ++ src) in
          match file zip fullPath with
          | Some f =>
              tryCatch
                (blob <- async_blob f ;;
                 Return (setAttribute attrs "src" (blobToDataUrl blob)))
                attrs
          | None => attrs
          end
    end
  else attrs.

(** [img.getAttribute('xlink:href') || img.getAttribute('href')] *)
Definition imageHref (attrs : gmap string Attr) : option string :=
  match nonEmpty (getAttribute attrs "xlink:href") with
  | Some href => Some href
  | None => getAttribute attrs "href"
  end.

(** One turn of the loop over [body.querySelectorAll('image')]. *)
Definition inlineSvgImage (zip : JSZip) (itemDir : string) (name : string)
  (attrs : gmap string Attr) : gmap string Attr :=
  if String.eqb name "image" then
    match nonEmpty (imageHref attrs) with
    | None => attrs
    | Some href =>
        if Js.startsWith href "data:" then attrs
        else
          let fullPath := normalizePath (itemDir ++ href) in
          match file zip fullPath with
          | Some f =>
              tryCatch
                (blob <- async_blob f ;;
                 let dataUrl := blobToDataUrl blob in
                 Return (setAttribute (setAttribute attrs "xlink:href" dataUrl)
                           "href" dataUrl))
                attrs
          | None => attrs
          end
    end
  else attrs.

(** [doc.querySelector('body') || doc.documentElement] *)
Definition contentRoot (doc : Node) : Node :=
  match querySelector (named "body") doc with
  | Some body => body
  | None => doc
  end.

(** [dirOf(item.fullPath)] *)
Definition itemDirOf (item : SpineItem) : Outcome string :=
  match itemFullPath item with
  | Some path => Return (dirOf path)
  | None => Throw typeError
  end.

(** The parse of a chapter: as XHTML, which gives an XML document, and,
    when that document holds a [parsererror], as HTML, which gives an
    HTML document.  The flag tells whether the document is an HTML
    document. *)
Definition parseChapter (raw : string) : bool * Node :=
  let doc := parseFromString raw "application/xhtml+xml" in
  match querySelector (named "parsererror") doc with
  | Some _ => (true, parseFromString raw "text/html")
  | None => (false, doc)
  end.

(** The content root after the two stripping loops: what the statements
    from the parse to [el.removeAttribute('style')] leave under [body]. *)
Definition strippedBody (raw : string) : Node :=
  let '(htmlDocument, doc) := parseChapter raw in
  let body := contentRoot doc in
  let body := removeAll (isStylesheet htmlDocument) body in
  let body := updateDescendants stripStyle body in
  body.

(** The sanitised content root: what the statements between the first
    guard and the final [return body.innerHTML] leave under [body]. *)
Definition sanitizedBody (zip : JSZip) (item : SpineItem) (raw : string)
  : Outcome Node :=
  let body := strippedBody raw in
  itemDir <- itemDirOf item ;;
  let body := updateDescendants (inlineImg zip itemDir) body in
  let body := updateDescendants (inlineSvgImage zip itemDir) body in
  Return body.

(** [await zip.file(item.fullPath)?.async('text')] *)
Definition readItem (zip : JSZip) (item : SpineItem) : Outcome (option string) :=
  readText zip (stringOfOptional (itemFullPath item)).

(** [loadSpineItem(zip, item)] of [Reader.jsx]. *)
Definition loadSpineItem (zip : JSZip) (item : SpineItem) : Outcome string :=
  raw <- readItem zip item ;;
  match nonEmpty raw with
  | None => Return ""
  | Some raw =>
      body <- sanitizedBody zip item raw ;;
      Return (innerHTML body)
  end.

Definition chapterNotFound : string :=
  "<p style=" ++ dquote ++ "color:#9090a0;text-align:center;padding:2em;"
    ++ dquote ++ ">Chapter not found.</p>".

(** [loadChapter(zip, spineItem)] of the per-chapter reader. *)
Definition loadChapter (zip : JSZip) (spineItem : SpineItem) : Outcome string :=
  raw <- readItem zip spineItem ;;
  match nonEmpty raw with
  | None => Return chapterNotFound
  | Some raw =>
      body <- sanitizedBody zip spineItem raw ;;
      Return (innerHTML body)
  end.

End Content.

(** ** Whole-book assembly ([Reader.jsx]) *)

Module WholeBook.

Section Reader.

Context `{Host}.

Record Structure : Type := mkStructure {
  spine : list SpineItem;
  manifest : Obj.t;
  toc : list Nav.Item
}.

(** [parseStructure(zip)] *)
Definition parseStructure (zip : JSZip) : Outcome Structure :=
  r <- parsePackage "Invalid epub: no rootfile" zip ;;
  let '(spine, manifest, toc) := r in
  Return (mkStructure spine manifest toc).

Record BookSection : Type := mkSection {
  sectionId : string;
  html : string;
  sectionPath : option string
}.

(** [`sec-${i}`] *)
Definition sectionName (i : nat) : string :=
  "sec-" ++ NilZero.string_of_uint (Nat.to_uint i).

Definition isContentDocument (mt : option string) : bool :=
  match mt with
  | Some mt =>
      String.eqb mt "application/xhtml+xml" || String.eqb mt "text/html"
  | None => false
  end.

(** The loop [for (let i = 0; i < spine.length; i++)] of [loadEntireBook],
    from index [i] on, [items] being what is left of the spine. *)
Fixpoint loadSections (zip : JSZip) (items : list SpineItem) (i : nat)
  (sections : list BookSection) : Outcome (list BookSection) :=
  match items with
  | [] => Return sections
  | item :: rest =>
      if isContentDocument (itemMediaType item) then
        html <- loadSpineItem zip item ;;
        if Js.Boolean (trim html) then
          loadSections zip rest (S i)
            (Js.push sections (mkSection (sectionName i) html (itemFullPath item)))
        else loadSections zip rest (S i) sections
      else loadSections zip rest (S i) sections
  end.

Definition newline : string := String (ascii_of_nat 10) EmptyString.

Record Book : Type := mkBook {
  bookHtml : string;
  bookToc : list Nav.Item;
  bookSections : list BookSection
}.

(** [loadEntireBook(buffer)] *)
Definition loadEntireBook (buffer : list Byte.byte) : Outcome Book :=
  zip <- loadAsync buffer ;;
  structure <- parseStructure zip ;;
  sections <- loadSections zip (spine structure) 0 [] ;;
  let combinedHtml :=
    Js.join (newline ++ "<hr/>" ++ newline)
      (List.map
         (fun s : BookSection =>
            ("<div id=" ++ dquote ++ sectionId s ++ dquote ++ ">" ++ html s
               ++ "</div>")%string)
         sections) in
  Return (mkBook combinedHtml (toc structure) sections).

(** The label [TocTree] shows for an entry: [item.label || 'Untitled']. *)
Definition tocTreeLabel (item : Nav.Item) : string :=
  match Nav.label item with
  | EmptyString => "Untitled"
  | label => label
  end.

End Reader.

End WholeBook.

(** ** The per-chapter reader (kept in [Library.jsx]) *)

Module PerChapter.

Section Reader.

Context `{Host}.

Record EpubData : Type := mkEpubData {
  zip : JSZip;
  spine : list SpineItem;
  manifest : Obj.t;
  toc : list Nav.Item
}.

(** [parseEpub(buffer)] *)
Definition parseEpub (buffer : list Byte.byte) : Outcome EpubData :=
  zip <- loadAsync buffer ;;
  r <- parsePackage "Invalid epub: no rootfile found" zip ;;
  let '(spine, manifest, toc) := r in
  Return (mkEpubData zip spine manifest toc).

(** The state of the component that [goToHref] reads or writes. *)
Record State : Type := mkState {
  epubData : option EpubData;
  chapterIndex : Z;
  showToc : bool
}.

(** [path.split('#')[0]] *)
Definition stripFragment (path : string) : string :=
  match Js.split "#" path with
  | first :: _ => first
  | [] => ""
  end.

(** [spine.findIndex(callback)] from index [i] on; the callback may throw. *)
Fixpoint findIndexFrom {A} (callback : A -> Outcome bool) (l : list A) (i : Z)
  : Outcome Z :=
  match l with
  | [] => Return (-1)%Z
  | x :: rest =>
      hit <- callback x ;;
      if hit then Return i else findIndexFrom callback rest (i + 1)%Z
  end.

Definition findIndex {A} (callback : A -> Outcome bool) (l : list A) : Outcome Z :=
  findIndexFrom callback l 0%Z.

(** [(s) => s.fullPath.split('#')[0] === basePath] *)
Definition matchesPath (basePath : string) (s : SpineItem) : Outcome bool :=
  match itemFullPath s with
  | Some path => Return (String.eqb (stripFragment path) basePath)
  | None => Throw typeError
  end.

(** [goToHref(href)]: the state after the handler has run, or the
    exception that escapes it (the state is then as it was). *)
Definition goToHref (st : State) (href : string) : Outcome State :=
  match epubData st with
  | None => Return st
  | Some data =>
      let basePath := stripFragment href in
      idx <- findIndex (matchesPath basePath) (spine data) ;;
      let st := if (idx >=? 0)%Z then mkState (epubData st) idx (showToc st) else st in
      Return (mkState (epubData st) (chapterIndex st) false)
  end.

End Reader.

End PerChapter.

(** ** Notions used to state and prove the properties *)

(** [free sep s]: the separator does not occur in [s]. *)
Fixpoint free (sep : ascii) (s : string) : bool :=
  match s with
  | EmptyString => true
  | String c s' => negb (Ascii.eqb c sep) && free sep s'
  end.

(** The position of the last occurrence of [c], counted from the start. *)
Fixpoint lastPos (c : ascii) (s : string) : option nat :=
  match s with
  | EmptyString => None
  | String a s' =>
      match lastPos c s' with
      | Some k => Some (S k)
      | None => if Ascii.eqb a c then Some 0%nat else None
      end
  end.

(** A segment that normalisation keeps: not empty, not [.], not [..]. *)
Definition ordinary (seg : string) : bool :=
  Js.Boolean seg && negb (String.eqb seg ".") && negb (String.eqb seg "..").

(** What the stack holds: ordinary segments without [/]. *)
Definition kept (seg : string) : Prop :=
  ordinary seg = true /\ free "/" seg = true.

(** The text after the last [/] of a path. *)
Definition lastSegment (path : string) : string :=
  List.last (Js.split "/" path) "".

(** A reference that does not begin with [/]. *)
Definition relative (reference : string) : bool :=
  negb (Js.startsWith reference "/").

(** Whether normalising a path meets a [..] on an empty stack. *)
Fixpoint overPopsFrom (stack parts : list string) : bool :=
  match parts with
  | [] => false
  | p :: rest =>
      (String.eqb p ".." && Nat.eqb (List.length stack) 0)
      || overPopsFrom (normalizeStep stack p) rest
  end.

Definition overPops (path : string) : bool :=
  overPopsFrom [] (List.filter Js.Boolean (Js.split "/" path)).

(** The relative path that stands for "[a], then [b] from there": [b]
    put in the directory of [a], the way [resolveHref] itself puts a
    reference in the directory of its base. *)
Definition combined (a b : string) : string := dirOf a ++ b.

(** *** Styling left in a fragment *)

(** What the two stripping loops select: the elements of the selector
    [style, link[rel="stylesheet"]] and those of the selector [[style]]. *)
Definition selectedStyling (htmlDocument : bool) (n : Node) : bool :=
  isStylesheet htmlDocument n || hasAttr "style" (attributesOf n).

(** The styling the specification speaks of ("a [<style>]-equivalent
    element, a stylesheet-link-equivalent element, or any inline style
    attribute"), worded without the code's selectors.  A stylesheet link
    is read as HTML defines the link type: a [link] element whose [rel]
    holds, among its keywords separated by white space, the keyword
    [stylesheet], in any letter case (so [rel="Stylesheet"] and
    [rel="alternate stylesheet"] link style sheets). *)
Module StyleSpec.

Definition isSpace (c : ascii) : bool :=
  let n := nat_of_ascii c in
  Nat.eqb n 32 || Nat.eqb n 9 || Nat.eqb n 10 || Nat.eqb n 12 || Nat.eqb n 13.

(** The keywords of an attribute value: its parts between white space. *)
Fixpoint keywordsFrom (current : string) (s : string) : list string :=
  match s with
  | EmptyString => if Js.Boolean current then [current] else []
  | String c s' =>
      if isSpace c then
        (if Js.Boolean current then [current] else []) ++ keywordsFrom "" s'
      else keywordsFrom (current ++ String c "") s'
  end.

Definition keywords (s : string) : list string := keywordsFrom "" s.

Definition isStyleElement (n : Node) : bool := named "style" n.

Definition isStylesheetLink (n : Node) : bool :=
  named "link" n
  && match getAttribute (attributesOf n) "rel" with
     | Some rel =>
         existsb (fun keyword => String.eqb (asciiLowerCase keyword) "stylesheet")
           (keywords rel)
     | None => false
     end.

Definition hasInlineStyle (n : Node) : bool :=
  match getAttribute (attributesOf n) "style" with
  | Some _ => true
  | None => false
  end.

Definition styled (n : Node) : bool :=
  isStyleElement n || isStylesheetLink n || hasInlineStyle n.

End StyleSpec.



(** *** Image references of a fragment

    [imageRewritten zip dir before after]: what became of the element with
    name and attributes [before].  The reference of an [img] is its [src];
    that of an SVG [image] is its [xlink:href], or its [href] when that one
    is missing or empty. *)

Section ImageReferences.

Context `{Host}.




End ImageReferences.

(** *** Navigation entries and their sources *)

(** An entry and all the entries below it, in document order. *)
Fixpoint flattenItem (item : Nav.Item) : list Nav.Item :=
  match item with
  | Nav.mk _ _ subitems => item :: flat_map flattenItem subitems
  end.

(** A [navPoint] and all the [navPoint]s nested in it, in document order. *)
Fixpoint navPointsOf (np : Node) : list Node :=
  match np with
  | Element _ _ _ cs =>
      np :: flat_map (fun c => if named "navPoint" c then navPointsOf c else []) cs
  | Text _ => [np]
  end.

(** The text of the first [text] element of a [navLabel] child, if any. *)
Definition navPointText (np : Node) : option string :=
  option_map textContent
    (List.head
       (flat_map (scopeChildren "text")
          (List.filter (named "navLabel") (children np)))).

(** The links of an ordered list that make an entry: the first [a] child
    of each [li] child that has one, followed by those of the first [ol]
    child of that [li]. *)
Fixpoint navLinksOf (ol : Node) : list Node :=
  match ol with
  | Element _ _ _ lis =>
      flat_map
        (fun li =>
           match li with
           | Element _ name _ cs =>
               if String.eqb name "li" then
                 match List.find (named "a") cs with
                 | None => []
                 | Some a => a :: onScopeChild "ol" navLinksOf [] cs
                 end
               else []
           | Text _ => []
           end)
        lis
  | Text _ => []
  end.

(** *** Spines *)

(** The spine the specification describes: the item of every [itemref]
    whose id is a key of the manifest, in document order. *)
Definition spineOf (items : list (string * ManifestItem))
  (idrefs : list (option string)) : list SpineItem :=
  flat_map
    (fun idref =>
       match Obj.lookup items (keyOfNullable idref) with
       | Some item => [mkSpineItem idref (Obj.Item item)]
       | None => []
       end)
    idrefs.

(** The position of the first spine item whose path, fragment stripped,
    is [basePath]. *)
Fixpoint firstWithPath (basePath : string) (spine : list SpineItem) : option nat :=
  match spine with
  | [] => None
  | s :: rest =>
      match itemFullPath s with
      | Some path =>
          if String.eqb (PerChapter.stripFragment path) basePath then Some 0%nat
          else option_map S (firstWithPath basePath rest)
      | None => option_map S (firstWithPath basePath rest)
      end
  end.

(** ** A sample host and a sample book

    A host whose parser knows the documents of one small book, used to run
    the readers on concrete input. *)

Module Sample.

Definition attr (v : string) : Attr := mkAttr false v.

(** ASCII white space only. *)
Definition isSpace (c : ascii) : bool :=
  let n := nat_of_ascii c in
  Nat.eqb n 32 || (Nat.leb 9 n && Nat.leb n 13).

Fixpoint trimStart (s : string) : string :=
  match s with
  | String c s' => if isSpace c then trimStart s' else s
  | EmptyString => EmptyString
  end.

Fixpoint trimEnd (s : string) : string :=
  match s with
  | String c s' =>
      match trimEnd s' with
      | EmptyString => if isSpace c then EmptyString else String c EmptyString
      | rest => String c rest
      end
  | EmptyString => EmptyString
  end.

Definition serializeAttr (kv : string * Attr) : string :=
  " " ++ fst kv ++ "=" ++ dquote ++ value (snd kv) ++ dquote.

Fixpoint serialize (n : Node) : string :=
  match n with
  | Text d => d
  | Element _ name attrs cs =>
      "<" ++ name
      ++ String.concat "" (List.map serializeAttr (map_to_list attrs))
      ++ ">" ++ String.concat "" (List.map serialize cs)
      ++ "</" ++ name ++ ">"
  end.

Definition containerXml : string :=
  "<container><rootfiles><rootfile full-path='OEBPS/content.opf'/></rootfiles></container>".

Definition containerDoc : Node :=
  Element Foreign "container" ∅
    [Element Foreign "rootfiles" ∅
       [Element Foreign "rootfile" {[ "full-path" := attr "OEBPS/content.opf" ]} []]].

(** A package with two chapters, both navigation formats, and an
    [itemref] whose id the manifest does not have. *)
Definition opfXml : string :=
  "<package><manifest>...</manifest><spine>...</spine></package>".

Definition opfDoc : Node :=
  Element Foreign "package" ∅
    [ Element Foreign "manifest" ∅
        [ Element Foreign "item"
            {[ "id" := attr "c1"; "href" := attr "chap1.xhtml";
               "media-type" := attr "application/xhtml+xml" ]} [];
          Element Foreign "item"
            {[ "id" := attr "c2"; "href" := attr "chap2.xhtml";
               "media-type" := attr "application/xhtml+xml" ]} [];
          Element Foreign "item"
            {[ "id" := attr "ncx"; "href" := attr "toc.ncx";
               "media-type" := attr "application/x-dtbncx+xml" ]} [];
          Element Foreign "item"
            {[ "id" := attr "nav"; "href" := attr "nav.xhtml";
               "media-type" := attr "application/xhtml+xml";
               "properties" := attr "nav" ]} [] ];
      Element Foreign "spine" ∅
        [ Element Foreign "itemref" {[ "idref" := attr "c1" ]} [];
          Element Foreign "itemref" {[ "idref" := attr "missing" ]} [];
          Element Foreign "itemref" {[ "idref" := attr "c2" ]} [] ] ].

(** A package whose spine names [constructor], which is no manifest id. *)
Definition strayOpfXml : string :=
  "<package><manifest>...</manifest><spine><itemref idref='constructor'/>...</spine></package>".

Definition strayOpfDoc : Node :=
  Element Foreign "package" ∅
    [ Element Foreign "manifest" ∅
        [ Element Foreign "item"
            {[ "id" := attr "c1"; "href" := attr "chap1.xhtml";
               "media-type" := attr "application/xhtml+xml" ]} [];
          Element Foreign "item"
            {[ "id" := attr "c2"; "href" := attr "chap2.xhtml";
               "media-type" := attr "application/xhtml+xml" ]} [];
          Element Foreign "item"
            {[ "id" := attr "ncx"; "href" := attr "toc.ncx";
               "media-type" := attr "application/x-dtbncx+xml" ]} [] ];
      Element Foreign "spine" ∅
        [ Element Foreign "itemref" {[ "idref" := attr "c1" ]} [];
          Element Foreign "itemref" {[ "idref" := attr "constructor" ]} [];
          Element Foreign "itemref" {[ "idref" := attr "c2" ]} [] ] ].

Definition ncxXml : string := "<ncx><navMap>...</navMap></ncx>".

Definition ncxDoc : Node :=
  Element Foreign "ncx" ∅
    [ Element Foreign "navMap" ∅
        [ Element Foreign "navPoint" ∅
            [ Element Foreign "navLabel" ∅ [Element Foreign "text" ∅ [Text " Chapter One "]];
              Element Foreign "content" {[ "src" := attr "chap1.xhtml#start" ]} [];
              Element Foreign "navPoint" ∅
                [ Element Foreign "content" {[ "src" := attr "chap2.xhtml#s1" ]} [] ] ] ] ].

Definition navXml : string := "<html><body><nav><ol>...</ol></nav></body></html>".

Definition navDoc : Node :=
  Element HTML "html" ∅
    [ Element HTML "body" ∅
        [ Element HTML "nav" {[ "epub:type" := mkAttr true "toc" ]}
            [ Element HTML "ol" ∅
                [ Element HTML "li" ∅
                    [ Element HTML "a" {[ "href" := attr "chap2.xhtml" ]}
                        [Text "Chapter Two"] ] ] ] ] ].

(** A chapter that brings its own styling and two images. *)
Definition chapterXml : string := "<html><head>...</head><body>...</body></html>".

Definition chapterDoc : Node :=
  Element HTML "html" ∅
    [ Element HTML "head" ∅
        [ Element HTML "link"
            {[ "rel" := attr "stylesheet"; "href" := attr "book.css" ]} [] ];
      Element HTML "body" {[ "style" := attr "margin:0" ]}
        [ Element HTML "style" ∅ [Text "p { color: red }"];
          Element HTML "p" {[ "style" := attr "color:red"; "class" := attr "first" ]}
            [ Text "Hello";
              Element HTML "img" {[ "src" := attr "../images/a.png" ]} [] ];
          Element Foreign "svg" ∅
            [ Element Foreign "image" {[ "xlink:href" := mkAttr true "../images/b.png" ]} [] ] ] ].

Definition parse (text type : string) : Node :=
  if String.eqb text containerXml then containerDoc
  else if String.eqb text opfXml then opfDoc
  else if String.eqb text strayOpfXml then strayOpfDoc
  else if String.eqb text ncxXml then ncxDoc
  else if String.eqb text navXml then navDoc
  else if String.eqb text chapterXml then chapterDoc
  else Element HTML "parsererror" ∅ [Text text].

Definition textFile (text : string) : ZipObject :=
  mkZipObject (Return text) (Return (String.list_byte_of_string text)).

Definition pixels : Blob := String.list_byte_of_string "PNG".

Definition imageFile : ZipObject := mkZipObject (Return "PNG") (Return pixels).

(** An entry whose compressed stream is damaged: reading it rejects. *)
Definition damagedFile : ZipObject :=
  mkZipObject (Throw "Corrupted zip") (Throw "Corrupted zip").

Definition zip : JSZip :=
  {[ "META-INF/container.xml" := textFile containerXml;
     "OEBPS/content.opf" := textFile opfXml;
     "OEBPS/toc.ncx" := textFile ncxXml;
     "OEBPS/nav.xhtml" := textFile navXml;
     "OEBPS/text/ch1.xhtml" := textFile chapterXml;
     "OEBPS/images/a.png" := imageFile ]}.

(** The same archive, with the package whose spine names [constructor]. *)
Definition strayZip : JSZip := <[ "OEBPS/content.opf" := textFile strayOpfXml ]> zip.

(** The bytes the host opens as [strayZip]; it opens all others as [zip]. *)
Definition strayBuffer : list Byte.byte := String.list_byte_of_string "stray".

(** The same archive, the image damaged. *)
Definition damagedZip : JSZip := <[ "OEBPS/images/a.png" := damagedFile ]> zip.

Definition host : Host :=
  {| parseFromString := parse;
     trim := fun s => trimEnd (trimStart s);
     trim_empty := eq_refl;
     readAsDataURL :=
       fun blob =>
         ("data:application/octet-stream," ++ String.string_of_list_byte blob)%string;
     loadAsync :=
       fun buffer =>
         if String.eqb (String.string_of_list_byte buffer) "stray"
         then Return strayZip else Return zip;
     innerHTML := fun n => String.concat "" (List.map serialize (children n)) |}.

Definition manifest : Obj.t := buildManifest "OEBPS/content.opf" opfDoc.

Definition ncxItem : ManifestItem :=
  mkManifestItem (Some "toc.ncx") "application/x-dtbncx+xml" "" "OEBPS/toc.ncx".

Definition navItem : ManifestItem :=
  mkManifestItem (Some "nav.xhtml") "application/xhtml+xml" "nav" "OEBPS/nav.xhtml".

(** The spine item of the chapter [OEBPS/text/ch1.xhtml]. *)
Definition chapterItem : SpineItem :=
  mkSpineItem (Some "ch1")
    (Obj.Item
       (mkManifestItem (Some "text/ch1.xhtml") "application/xhtml+xml" ""
          "OEBPS/text/ch1.xhtml")).

End Sample.

From Stdlib Require DecimalNat DecimalFacts.

(** ** The rest of the per-chapter reader

    [goPrev], [goNext] and the label of the current position, from the
    component that holds [goToHref]. *)

Module Pager.

Section Reader.

Context `{Host}.

(** [epubData?.spine.length || 1] *)
Definition spineLengthOr1 (epubData : option PerChapter.EpubData) : Z :=
  match epubData with
  | Some data =>
      match PerChapter.spine data with
      | [] => 1
      | spine => Z.of_nat (List.length spine)
      end
  | None => 1
  end.

(** [goPrev]: [setChapterIndex((i) => Math.max(0, i - 1))] *)
Definition goPrev (st : PerChapter.State) : PerChapter.State :=
  PerChapter.mkState (PerChapter.epubData st)
    (Z.max 0 (PerChapter.chapterIndex st - 1))
    (PerChapter.showToc st).

(** [goNext]:
    [setChapterIndex((i) => Math.min((epubData?.spine.length || 1) - 1, i + 1))] *)
Definition goNext (st : PerChapter.State) : PerChapter.State :=
  PerChapter.mkState (PerChapter.epubData st)
    (Z.min (spineLengthOr1 (PerChapter.epubData st) - 1)
       (PerChapter.chapterIndex st + 1))
    (PerChapter.showToc st).






(** The chapter index names a spine entry (of a spine that has one). *)
Definition wellPlaced (st : PerChapter.State) : Prop :=
  (0 <= PerChapter.chapterIndex st
   < spineLengthOr1 (PerChapter.epubData st))%Z.

End Reader.

End Pager.

(** ** Table-of-contents navigation in the whole book ([Reader.jsx]) *)

Module Scroller.

(** [sections.find(callback)]; the callback may throw. *)
Fixpoint find {A} (callback : A -> Outcome bool) (l : list A) : Outcome (option A) :=
  match l with
  | [] => Return None
  | x :: rest =>
      hit <- callback x ;;
      if hit then Return (Some x) else find callback rest
  end.

(** [(s) => s.fullPath.split('#')[0] === basePath] *)
Definition matchesPath (basePath : string) (s : WholeBook.BookSection)
  : Outcome bool :=
  match WholeBook.sectionPath s with
  | Some path => Return (String.eqb (PerChapter.stripFragment path) basePath)
  | None => Throw typeError
  end.

(** [goToHref(href)]: the id that is handed to [document.getElementById]
    (that of the section found, [None] when [find] finds none and nothing
    is looked up) and the new value of [showToc]; [bookContent] is [None]
    while the book is not loaded.  Which element of the page that id
    names, and so what is scrolled into view, is up to the rendered
    document: the markup of a chapter keeps the ids it came with. *)
Definition goToHref (bookContent : option WholeBook.Book) (showToc : bool)
  (href : string) : Outcome (option string * bool) :=
  match bookContent with
  | None => Return (None, showToc)
  | Some book =>
      let basePath := PerChapter.stripFragment href in
      section <- find (matchesPath basePath) (WholeBook.bookSections book) ;;
      Return (option_map WholeBook.sectionId section, false)
  end.

(** The first section whose path, fragment stripped, is [basePath]. *)
Definition firstSection (basePath : string) (sections : list WholeBook.BookSection)
  : option WholeBook.BookSection :=
  List.find
    (fun s =>
       match WholeBook.sectionPath s with
       | Some path => String.eqb (PerChapter.stripFragment path) basePath
       | None => false
       end)
    sections.

End Scroller.

(** ** The library ([hooks/useLibrary.js] and its users in the
    application)

    The book records are those the hook creates itself; the argument of
    [addBook] has the four fields the application passes, the [updates]
    of [updateBook] the two it passes.  Positions and progress values are
    only stored, never computed with: their types are left open.
    [Date.now()] is read once per field it fills. *)

Module UseLibrary.

Section Hook.

Context {Position Progress : Type}.

(** [progress: 0] *)
Variable noProgress : Progress.

Record BookInfo : Type := mkBookInfo {
  infoPath : string;
  infoTitle : string;
  infoAuthor : string;
  infoCover : option string
}.

Record Book : Type := mkBook {
  path : string;
  title : string;
  author : string;
  cover : option string;
  addedAt : Z;
  lastOpened : Z;
  progress : Progress;
  currentCfi : option Position
}.

Record Library : Type := mkLibrary {
  books : list Book;
  lastRead : option string
}.

(** [{ books: [], lastRead: null }] *)
Definition emptyLibrary : Library := mkLibrary [] None.

(** [books.findIndex(p)] from index [i] on. *)
Fixpoint findIndexFrom {A} (p : A -> bool) (l : list A) (i : Z) : Z :=
  match l with
  | [] => (-1)%Z
  | x :: rest => if p x then i else findIndexFrom p rest (i + 1)%Z
  end.

Definition findIndex {A} (p : A -> bool) (l : list A) : Z := findIndexFrom p l 0%Z.

(** [{ ...existing, ...book, lastOpened: now }] *)
Definition refreshed (existing : Book) (book : BookInfo) (now : Z) : Book :=
  mkBook (infoPath book) (infoTitle book) (infoAuthor book) (infoCover book)
    (addedAt existing) now (progress existing) (currentCfi existing).

(** [{ ...book, addedAt: now, lastOpened: later, progress: 0, currentCfi: null }] *)
Definition created (book : BookInfo) (now later : Z) : Book :=
  mkBook (infoPath book) (infoTitle book) (infoAuthor book) (infoCover book)
    now later noProgress None.

(** [addBook(book)]: the update it hands to [setLibrary]; [now] and
    [later] are the successive readings of the clock. *)
Definition addBook (book : BookInfo) (now later : Z) (prev : Library) : Library :=
  let existing :=
    findIndex (fun b => String.eqb (path b) (infoPath book)) (books prev) in
  let books :=
    if (existing >=? 0)%Z then
      match List.nth_error (books prev) (Z.to_nat existing) with
      | Some b => <[Z.to_nat existing := refreshed b book now]> (books prev)
      | None => books prev
      end
    else created book now later :: books prev in
  mkLibrary books (Some (infoPath book)).

Record Updates : Type := mkUpdates {
  newCfi : option Position;
  newProgress : Progress
}.

(** [{ ...b, ...updates }] *)
Definition updated (b : Book) (updates : Updates) : Book :=
  mkBook (path b) (title b) (author b) (cover b) (addedAt b) (lastOpened b)
    (newProgress updates) (newCfi updates).

(** [updateBook(path, updates)] *)
Definition updateBook (p : string) (updates : Updates) (prev : Library) : Library :=
  mkLibrary
    (List.map (fun b => if String.eqb (path b) p then updated b updates else b)
       (books prev))
    (lastRead prev).

(** [prev.lastRead === path], [lastRead] being a string or [null]. *)
Definition isLastRead (prev : Library) (p : string) : bool :=
  match lastRead prev with
  | Some q => String.eqb q p
  | None => false
  end.

(** [removeBook(path)] *)
Definition removeBook (p : string) (prev : Library) : Library :=
  mkLibrary
    (List.filter (fun b => negb (String.eqb (path b) p)) (books prev))
    (if isLastRead prev p then None else lastRead prev).

(** [handleUpdateProgress(cfi, progress)] of the application, for the book
    that is open ([None]: no book). *)
Definition handleUpdateProgress (currentPath : option string)
  (cfi : option Position) (pct : Progress) (prev : Library) : Library :=
  match nonEmpty currentPath with
  | Some p => updateBook p (mkUpdates cfi pct) prev
  | None => prev
  end.

(** [library.books.find((b) => b.path === bookPath)] *)
Definition findBook (p : string) (lib : Library) : option Book :=
  List.find (fun b => String.eqb (path b) p) (books lib).

(** The paths of the books, in the order of the list. *)
Definition pathsOf (lib : Library) : list string := List.map path (books lib).

(** A library whose books have distinct paths and whose [lastRead], if
    set, is the path of one of them. *)
Definition wellFormed (lib : Library) : Prop :=
  List.NoDup (pathsOf lib)
  /\ forall p, lastRead lib = Some p -> In p (pathsOf lib).

End Hook.

End UseLibrary.

(** ** Notions used to state the further properties *)

(** The ids of the spine of a package document, as its [itemref]
    elements give them. *)
Definition idrefsOf (opfDoc : Node) : list (option string) :=
  List.map (fun ref => getAttribute (attributesOf ref) "idref")
    (querySelectorAllBelow "spine" "itemref" opfDoc).

(** [l1] is [l2] with some elements left out. *)
Inductive Sublist {A} : list A -> list A -> Prop :=
| sublist_nil : Sublist [] []
| sublist_skip x l1 l2 : Sublist l1 l2 -> Sublist l1 (x :: l2)
| sublist_keep x l1 l2 : Sublist l1 l2 -> Sublist (x :: l1) (x :: l2).

(** The attributes the normaliser may touch. *)
Definition touchedAttributes : list string := ["style"; "src"; "xlink:href"; "href"].

(** Two attribute maps that agree away from the touched attributes. *)
Definition sameElsewhere (attrs attrs' : gmap string Attr) : Prop :=
  forall name, ~ In name touchedAttributes -> attrs' !! name = attrs !! name.

(** Two trees of the same shape: the same elements with the same names
    and namespaces in the same places, the same text, and attributes that
    agree away from the touched ones. *)
#[local] Unset Elimination Schemes.
Inductive sameShape : Node -> Node -> Prop :=
| shape_text data : sameShape (Text data) (Text data)
| shape_element ns name attrs attrs' cs cs' :
    sameElsewhere attrs attrs' ->
    Forall2 sameShape cs cs' ->
    sameShape (Element ns name attrs cs) (Element ns name attrs' cs').
#[local] Set Elimination Schemes.

(** A spine item that [loadEntireBook] shows as a section with the
    markup [html]. *)
Definition rendered `{Host} (zip : JSZip) (item : SpineItem) (html : string)
  : Prop :=
  WholeBook.isContentDocument (itemMediaType item) = true
  /\ loadSpineItem zip item = Return html
  /\ Js.Boolean (trim html) = true.

(** Every item record a manifest object holds, the one installed as
    its prototype included, has the property [P]. *)
Definition everyItem (P : ManifestItem -> Prop) (o : Obj.t) : Prop :=
  Forall (fun kv => P (snd kv)) (Obj.own o)
  /\ forall p, Obj.proto o = Some p -> P p.

(** The record of a manifest [item] element of the package document. *)
Definition declaredItem `{Host} (opfPath : string) (opfDoc : Node)
  (m : ManifestItem) : Prop :=
  exists item,
    In item (querySelectorAllBelow "manifest" "item" opfDoc)
    /\ m = manifestItem opfPath item.

(** The entries of a table of contents at every depth. *)
Definition entriesOf (toc : list Nav.Item) : list Nav.Item :=
  flat_map flattenItem toc.

(** A path in normal form: empty, or segments none of which is empty,
    [.] or [..], separated by single slashes. *)
Definition normalForm (path : string) : Prop :=
  (path = "" \/ Forall kept (Js.split "/" path))
  /\ normalizePath path = path.

(** ** A second sample book

    The book of [Sample] with its two chapters in place, and the same
    book with the second chapter damaged. *)

Module Shelf.

Definition zip : JSZip :=
  <[ "OEBPS/chap1.xhtml" := Sample.textFile Sample.chapterXml ]>
    (<[ "OEBPS/chap2.xhtml" := Sample.textFile Sample.chapterXml ]> Sample.zip).

Definition damagedZip : JSZip :=
  <[ "OEBPS/chap2.xhtml" := Sample.damagedFile ]> zip.

Definition damagedBuffer : list Byte.byte :=
  String.list_byte_of_string "damaged".

Definition buffer : list Byte.byte := String.list_byte_of_string "book".

(** The host of [Sample], opening [damagedBuffer] as [damagedZip] and
    everything else as [zip]. *)
Definition host : Host :=
  {| parseFromString := Sample.parse;
     trim := @trim Sample.host;
     trim_empty := eq_refl;
     readAsDataURL := @readAsDataURL Sample.host;
     loadAsync :=
       fun buffer =>
         if String.eqb (String.string_of_list_byte buffer) "damaged"
         then Return damagedZip else Return zip;
     innerHTML := @innerHTML Sample.host |}.

End Shelf.

(** ** Two more sample documents

    A chapter, well-formed as XHTML, whose body links three style sheets,
    and a package document that declares its navigation-control document
    under the id [__proto__]. *)

Module Corner.

Definition styledXml : string :=
  "<html xmlns='http://www.w3.org/1999/xhtml'><head/><body>"
  ++ "<link rel='stylesheet' href='book.css'/>"
  ++ "<link rel='Stylesheet' href='page.css'/>"
  ++ "<link rel='alternate stylesheet' href='night.css'/>"
  ++ "<p>Hello</p></body></html>".

Definition styledDoc : Node :=
  Element HTML "html" ∅
    [ Element HTML "head" ∅ [];
      Element HTML "body" ∅
        [ Element HTML "link"
            {[ "rel" := Sample.attr "stylesheet"; "href" := Sample.attr "book.css" ]} [];
          Element HTML "link"
            {[ "rel" := Sample.attr "Stylesheet"; "href" := Sample.attr "page.css" ]} [];
          Element HTML "link"
            {[ "rel" := Sample.attr "alternate stylesheet";
               "href" := Sample.attr "night.css" ]} [];
          Element HTML "p" ∅ [Text "Hello"] ] ].

Definition protoOpfXml : string :=
  "<package xmlns='http://www.idpf.org/2007/opf'><manifest>"
  ++ "<item id='c1' href='chap1.xhtml' media-type='application/xhtml+xml'/>"
  ++ "<item id='c2' href='chap2.xhtml' media-type='application/xhtml+xml'/>"
  ++ "<item id='__proto__' href='toc.ncx' media-type='application/x-dtbncx+xml'/>"
  ++ "<item id='nav' href='nav.xhtml' media-type='application/xhtml+xml' properties='nav'/>"
  ++ "</manifest><spine><itemref idref='c1'/><itemref idref='c2'/></spine></package>".

(** The package of [Sample], its navigation-control document declared
    under the id [__proto__]. *)
Definition protoOpfDoc : Node :=
  Element Foreign "package" ∅
    [ Element Foreign "manifest" ∅
        [ Element Foreign "item"
            {[ "id" := Sample.attr "c1"; "href" := Sample.attr "chap1.xhtml";
               "media-type" := Sample.attr "application/xhtml+xml" ]} [];
          Element Foreign "item"
            {[ "id" := Sample.attr "c2"; "href" := Sample.attr "chap2.xhtml";
               "media-type" := Sample.attr "application/xhtml+xml" ]} [];
          Element Foreign "item"
            {[ "id" := Sample.attr "__proto__"; "href" := Sample.attr "toc.ncx";
               "media-type" := Sample.attr "application/x-dtbncx+xml" ]} [];
          Element Foreign "item"
            {[ "id" := Sample.attr "nav"; "href" := Sample.attr "nav.xhtml";
               "media-type" := Sample.attr "application/xhtml+xml";
               "properties" := Sample.attr "nav" ]} [] ];
      Element Foreign "spine" ∅
        [ Element Foreign "itemref" {[ "idref" := Sample.attr "c1" ]} [];
          Element Foreign "itemref" {[ "idref" := Sample.attr "c2" ]} [] ] ].

Definition parse (text type : string) : Node :=
  if String.eqb text styledXml then styledDoc
  else if String.eqb text protoOpfXml then protoOpfDoc
  else Sample.parse text type.

(** The archive of [Sample] with the chapter that links style sheets. *)
Definition styledZip : JSZip :=
  <[ "OEBPS/text/ch1.xhtml" := Sample.textFile styledXml ]> Sample.zip.

(** The archive of [Sample] with the package [protoOpfDoc]. *)
Definition protoZip : JSZip :=
  <[ "OEBPS/content.opf" := Sample.textFile protoOpfXml ]> Sample.zip.

Definition protoBuffer : list Byte.byte := String.list_byte_of_string "proto".

(** The host of [Sample] with the two documents added; it opens
    [protoBuffer] as [protoZip]. *)
Definition host : Host :=
  {| parseFromString := parse;
     trim := @trim Sample.host;
     trim_empty := eq_refl;
     readAsDataURL := @readAsDataURL Sample.host;
     loadAsync :=
       fun buffer =>
         if String.eqb (String.string_of_list_byte buffer) "proto"
         then Return protoZip else Return Sample.zip;
     innerHTML := @innerHTML Sample.host |}.

(** The record of the navigation-control document, as the manifest loop
    builds it. *)
Definition ncxItem : ManifestItem :=
  mkManifestItem (Some "toc.ncx") "application/x-dtbncx+xml" "" "OEBPS/toc.ncx".

End Corner.

(** * Properties *)

(** ** Strings *)

#[local] Arguments String.append !_ _ / : simpl nomatch.

Lemma append_nil_r (s : string) : (s ++ "")%string = s.
Proof. induction s as [|c s IH]; simpl; [reflexivity | now rewrite IH]. Qed.

Lemma append_assoc (s1 s2 s3 : string) :
  ((s1 ++ s2) ++ s3)%string = (s1 ++ s2 ++ s3)%string.
Proof. induction s1 as [|c s1 IH]; simpl; [reflexivity | now rewrite IH]. Qed.

Lemma append_eq_nil (s1 s2 : string) : (s1 ++ s2)%string = "" -> s2 = "".
Proof. destruct s1; simpl; [auto | discriminate]. Qed.

Lemma split_cons (sep : ascii) (s : string) :
  exists seg segs, Js.split sep s = seg :: segs.
Proof.
  induction s as [|c s IH]; simpl.
  - eauto.
  - destruct (Ascii.eqb c sep); [eauto |].
    destruct IH as (seg & segs & ->). eauto.
Qed.

(** Splitting distributes over a separator. *)
Lemma split_app_sep (sep : ascii) (x y : string) :
  Js.split sep (x ++ String sep y) = Js.split sep x ++ Js.split sep y.
Proof.
  induction x as [|c x IH]; simpl.
  - now rewrite Ascii.eqb_refl.
  - destruct (Ascii.eqb c sep); [now rewrite IH |].
    rewrite IH. destruct (split_cons sep x) as (seg & segs & ->). reflexivity.
Qed.

Lemma prefix_empty (s : string) : String.prefix "" s = true.
Proof. now destruct s. Qed.

(** A one-character prefix test compares the first character. *)
Lemma prefix_char (c : ascii) (s : string) :
  String.prefix (String c "") s =
  match s with
  | EmptyString => false
  | String a _ => Ascii.eqb a c
  end.
Proof.
  destruct s as [|a s]; [reflexivity |].
  change (String.prefix (String c "") (String a s))
    with (if ascii_dec c a then String.prefix "" s else false).
  destruct (ascii_dec c a) as [<-|Hne].
  - now rewrite prefix_empty, Ascii.eqb_refl.
  - symmetry. apply Ascii.eqb_neq. congruence.
Qed.

Lemma split_free (sep : ascii) (s : string) :
  free sep s = true -> Js.split sep s = [s].
Proof.
  induction s as [|c s IH]; simpl; [reflexivity |].
  intros [Hc Hs]%andb_prop. apply negb_true_iff in Hc. rewrite Hc, (IH Hs).
  reflexivity.
Qed.

Lemma split_all_free (sep : ascii) (s : string) :
  Forall (fun seg => free sep seg = true) (Js.split sep s).
Proof.
  induction s as [|c s IH]; simpl.
  - repeat constructor.
  - destruct (Ascii.eqb c sep) eqn:E; [now constructor |].
    destruct (Js.split sep s) as [|seg segs]; [repeat constructor; simpl; now rewrite E |].
    inversion IH; subst. constructor; [simpl; now rewrite E | assumption].
Qed.

(** ** [dirOf] *)

Lemma lastIndexOf_from_lastPos (c : ascii) (s : string) (i found : Z) :
  Js.lastIndexOf_from c s i found =
  match lastPos c s with
  | Some k => (i + Z.of_nat k)%Z
  | None => found
  end.
Proof.
  revert i found. induction s as [|a s IH]; intros i found; simpl; [reflexivity |].
  rewrite IH. destruct (lastPos c s) as [k|]; [lia |].
  destruct (Ascii.eqb a c); [lia | reflexivity].
Qed.

Lemma substring_0_0 (s : string) : String.substring 0 0 s = "".
Proof. now destruct s. Qed.

Lemma dirOf_lastPos (s : string) :
  dirOf s =
  match lastPos "/" s with
  | Some k => String.substring 0 (S k) s
  | None => ""
  end.
Proof.
  unfold dirOf, Js.lastIndexOf, Js.substring_to.
  rewrite lastIndexOf_from_lastPos.
  destruct (lastPos "/" s) as [k|]; [|reflexivity].
  replace (0 + Z.of_nat k >=? 0)%Z with true by (symmetry; apply Z.geb_le; lia).
  f_equal. lia.
Qed.

Lemma hasSlash_lastPos (s : string) :
  PathSpec.hasSlash s =
  match lastPos "/" s with Some _ => true | None => false end.
Proof.
  unfold PathSpec.hasSlash.
  induction s as [|a s IH]; [reflexivity |].
  cbn [Js.includes lastPos]. rewrite IH, prefix_char.
  destruct (lastPos "/" s); [apply orb_true_r |].
  rewrite orb_false_r. now destruct (Ascii.eqb a "/").
Qed.

Lemma directory_lastPos (s : string) :
  PathSpec.directory s =
  match lastPos "/" s with
  | Some k => String.substring 0 (S k) s
  | None => ""
  end.
Proof.
  induction s as [|a s IH]; [reflexivity |].
  cbn [PathSpec.directory]. rewrite hasSlash_lastPos. cbn [lastPos].
  rewrite IH. destruct (lastPos "/" s) as [k|]; [reflexivity |].
  destruct (Ascii.eqb a "/"); [|reflexivity].
  simpl. now rewrite substring_0_0.
Qed.

(** [dirOf] computes "the text up to and including the last [/]". *)
Lemma dirOf_directory (s : string) : dirOf s = PathSpec.directory s.
Proof. now rewrite dirOf_lastPos, directory_lastPos. Qed.

Lemma lastPos_free (s : string) : free "/" s = true -> lastPos "/" s = None.
Proof.
  induction s as [|a s IH]; simpl; [reflexivity |].
  intros [Ha Hs]%andb_prop. rewrite (IH Hs).
  apply negb_true_iff in Ha. now rewrite Ha.
Qed.

Lemma lastPos_app_slash (x l : string) :
  free "/" l = true ->
  lastPos "/" (x ++ String "/" l) = Some (String.length x).
Proof.
  intros Hl. induction x as [|a x IH]; simpl.
  - now rewrite (lastPos_free l Hl).
  - now rewrite IH.
Qed.

Lemma substring_app_length (x y : string) :
  String.substring 0 (String.length x) (x ++ y) = x.
Proof.
  induction x as [|a x IH]; simpl; [apply substring_0_0 | now rewrite IH].
Qed.

Lemma dirOf_free (l : string) : free "/" l = true -> dirOf l = "".
Proof. intros Hl. now rewrite dirOf_lastPos, lastPos_free. Qed.

Lemma dirOf_app_slash (x l : string) :
  free "/" l = true -> dirOf (x ++ String "/" l) = (x ++ "/")%string.
Proof.
  intros Hl. rewrite dirOf_lastPos, lastPos_app_slash by assumption.
  replace (x ++ String "/" l)%string with ((x ++ "/") ++ l)%string
    by (rewrite append_assoc; reflexivity).
  replace (S (String.length x)) with (String.length (x ++ "/")).
  - apply substring_app_length.
  - induction x; simpl; congruence.
Qed.

(** Every path is its directory followed by a last segment without [/]. *)
Lemma path_decompose (s : string) :
  exists l, free "/" l = true /\ s = (dirOf s ++ l)%string
            /\ (dirOf s = "" \/ exists x, dirOf s = (x ++ "/")%string).
Proof.
  induction s as [|a s IH].
  - exists "". repeat split. now left.
  - destruct IH as (l & Hl & Hs & Hd).
    destruct (lastPos "/" s) as [k|] eqn:Hk.
    + exists l. rewrite dirOf_lastPos in *. cbn [lastPos]. rewrite Hk in *.
      change (String.substring 0 (S (S k)) (String a s))
        with (String a (String.substring 0 (S k) s)).
      repeat split; [assumption | simpl; congruence |].
      right. destruct Hd as [Hd | [x Hx]].
      * destruct s; discriminate.
      * exists (String a x). simpl. congruence.
    + rewrite dirOf_lastPos in Hs. rewrite Hk in Hs. simpl in Hs. subst l.
      destruct (Ascii.eqb a "/") eqn:Ha.
      * apply Ascii.eqb_eq in Ha. subst a. exists s.
        change (String "/" s) with ("" ++ String "/" s)%string.
        rewrite dirOf_app_slash by assumption.
        repeat split; [assumption |]. right. now exists "".
      * exists (String a s). rewrite dirOf_free; [|simpl; now rewrite Ha].
        repeat split; [simpl; now rewrite Ha | now left].
Qed.

(** ** Normalisation *)

Lemma rev_removelast {A} (l : list A) : rev (removelast l) = tl (rev l).
Proof.
  destruct l as [|x l] using rev_ind; [reflexivity |].
  now rewrite removelast_last, rev_unit.
Qed.

(** The loop of [normalizePath] and the collapse of the specification
    keep the same segments. *)
Lemma normalize_collapse (segs stack : list string) :
  fold_left normalizeStep (List.filter Js.Boolean segs) stack =
  PathSpec.collapse (rev stack) segs.
Proof.
  revert stack. induction segs as [|seg segs IH]; intros stack.
  - simpl. now rewrite rev_involutive.
  - cbn [List.filter PathSpec.collapse].
    destruct seg as [|c seg']; [simpl; apply IH |].
    cbn [Js.Boolean fold_left]. rewrite IH. unfold normalizeStep.
    replace (String c seg' =? "")%string with false by reflexivity.
    rewrite orb_false_l.
    destruct (String c seg' =? "..")%string eqn:Eup.
    + apply String.eqb_eq in Eup. rewrite Eup. simpl (_ =? ".")%string.
      unfold Js.pop. now rewrite rev_removelast.
    + destruct (String c seg' =? ".")%string; cbn [negb]; [reflexivity |].
      unfold Js.push. now rewrite rev_unit.
Qed.

Lemma normalizePath_spec (path : string) :
  normalizePath path = PathSpec.normalize path.
Proof.
  unfold normalizePath, PathSpec.normalize, normalizeSegments.
  now rewrite normalize_collapse.
Qed.

Lemma startsWith_slash (s : string) :
  Js.startsWith s "/" = PathSpec.beginsWithSlash s.
Proof. unfold Js.startsWith. now rewrite prefix_char. Qed.

Lemma resolveHref_some (basePath reference : string) :
  reference <> "" ->
  resolveHref basePath (Some reference) =
  if Js.startsWith reference "/" then normalizePath reference
  else normalizePath (dirOf basePath ++ reference).
Proof. destruct reference; [congruence | reflexivity]. Qed.

(** Ordinary segments are pushed. *)
Lemma normalizeStep_ordinary (stack : list string) (seg : string) :
  ordinary seg = true -> normalizeStep stack seg = stack ++ [seg].
Proof.
  unfold ordinary, normalizeStep, Js.push.
  intros [[_ H1]%andb_prop H2]%andb_prop.
  apply negb_true_iff in H1, H2. now rewrite H2, H1.
Qed.

Lemma normalize_ordinary (segs stack : list string) :
  Forall (fun seg => ordinary seg = true) segs ->
  fold_left normalizeStep segs stack = stack ++ segs.
Proof.
  revert stack. induction segs as [|seg segs IH]; intros stack Hs; simpl.
  - now rewrite app_nil_r.
  - inversion Hs; subst. rewrite normalizeStep_ordinary by assumption.
    rewrite IH by assumption. now rewrite <- app_assoc.
Qed.

Lemma Forall_removelast {A} (P : A -> Prop) (l : list A) :
  Forall P l -> Forall P (removelast l).
Proof.
  destruct l as [|x l] using rev_ind; [auto |].
  rewrite removelast_last. intros [Hl _]%Forall_app. exact Hl.
Qed.

Lemma normalize_kept (segs stack : list string) :
  Forall (fun seg => free "/" seg = true) segs ->
  Forall (fun seg => Js.Boolean seg = true) segs ->
  Forall kept stack ->
  Forall kept (fold_left normalizeStep segs stack).
Proof.
  revert stack. induction segs as [|seg segs IH]; intros stack Hf Hb Hs; simpl.
  - exact Hs.
  - inversion Hf as [|? ? Hfree Hf']; subst.
    inversion Hb as [|? ? Htruthy Hb']; subst. apply IH; try assumption.
    unfold normalizeStep, Js.pop, Js.push.
    destruct (seg =? "..")%string eqn:E1; [now apply Forall_removelast |].
    destruct (seg =? ".")%string eqn:E2; cbn [negb]; [assumption |].
    apply Forall_app; split; [assumption |]. repeat constructor; [|assumption].
    unfold ordinary. now rewrite E1, E2, Htruthy.
Qed.

Lemma filter_split_free (path : string) :
  Forall (fun seg => free "/" seg = true)
    (List.filter Js.Boolean (Js.split "/" path)).
Proof.
  apply List.Forall_forall. intros seg [Hin _]%List.filter_In.
  exact (proj1 (List.Forall_forall _ _) (split_all_free "/" path) seg Hin).
Qed.

Lemma filter_split_truthy (path : string) :
  Forall (fun seg => Js.Boolean seg = true)
    (List.filter Js.Boolean (Js.split "/" path)).
Proof. apply List.Forall_forall. now intros seg [_ Hb]%List.filter_In. Qed.

(** The segments of a normalised path. *)
Lemma normalizeSegments_kept (path : string) :
  Forall kept (normalizeSegments (List.filter Js.Boolean (Js.split "/" path))).
Proof.
  apply normalize_kept; auto using filter_split_free, filter_split_truthy.
Qed.

Lemma join_cons (x y : string) (rest : list string) :
  Js.join "/" (x :: y :: rest) = (x ++ String "/" (Js.join "/" (y :: rest)))%string.
Proof. reflexivity. Qed.

Lemma join_snoc (stack : list string) (l : string) :
  stack <> [] ->
  Js.join "/" (stack ++ [l]) = (Js.join "/" stack ++ String "/" l)%string.
Proof.
  induction stack as [|x stack IH]; [congruence |]. intros _.
  destruct stack as [|y stack]; [reflexivity |].
  change ((x :: y :: stack) ++ [l]) with (x :: (y :: stack) ++ [l]).
  cbn [app]. rewrite !join_cons. cbn [app] in IH. rewrite IH by discriminate.
  now rewrite append_assoc.
Qed.

Lemma split_join (stack : list string) :
  Forall kept stack -> stack <> [] ->
  Js.split "/" (Js.join "/" stack) = stack.
Proof.
  induction stack as [|x stack IH]; [congruence |]. intros Hs _.
  inversion Hs as [|? ? [_ Hx] Hrest]; subst.
  destruct stack as [|y stack]; [now apply split_free |].
  rewrite join_cons, split_app_sep, IH by (assumption || discriminate).
  now rewrite split_free.
Qed.

Lemma filter_truthy_kept (stack : list string) :
  Forall kept stack -> List.filter Js.Boolean stack = stack.
Proof.
  induction 1 as [|x stack [Hx _] _ IH]; [reflexivity |]. simpl.
  unfold ordinary in Hx. apply andb_prop in Hx as [[-> _]%andb_prop _].
  now rewrite IH.
Qed.

Lemma filter_split_app_slash (x y : string) :
  List.filter Js.Boolean (Js.split "/" ((x ++ "/") ++ y)) =
  List.filter Js.Boolean (Js.split "/" (x ++ "/"))
  ++ List.filter Js.Boolean (Js.split "/" y).
Proof.
  rewrite append_assoc. change ("/" ++ y)%string with (String "/" y).
  rewrite !split_app_sep, !List.filter_app. simpl. now rewrite app_nil_r.
Qed.

(** A directory is empty or ends with [/]; putting a path behind it adds
    the segments of the path to its own. *)
Lemma filter_split_behind (dir y : string) :
  dir = "" \/ (exists x, dir = (x ++ "/")%string) ->
  List.filter Js.Boolean (Js.split "/" (dir ++ y)) =
  List.filter Js.Boolean (Js.split "/" dir)
  ++ List.filter Js.Boolean (Js.split "/" y).
Proof.
  intros [-> | [x ->]]; [reflexivity | apply filter_split_app_slash].
Qed.

Lemma dirOf_join_snoc (stack : list string) (l : string) :
  free "/" l = true ->
  dirOf (Js.join "/" (stack ++ [l])) =
  match stack with
  | [] => ""
  | _ => (Js.join "/" stack ++ "/")%string
  end.
Proof.
  intros Hl. destruct stack as [|x stack]; [now apply dirOf_free |].
  rewrite join_snoc by discriminate. now apply dirOf_app_slash.
Qed.

(** Resolving against a resolved path starts from its segments but the
    last. *)
Lemma segments_from_resolved (stack : list string) (l b : string) :
  Forall kept stack -> free "/" l = true ->
  List.filter Js.Boolean
    (Js.split "/" (dirOf (Js.join "/" (stack ++ [l])) ++ b)) =
  stack ++ List.filter Js.Boolean (Js.split "/" b).
Proof.
  intros Hs Hl. rewrite dirOf_join_snoc by assumption.
  destruct stack as [|x stack]; [reflexivity |].
  rewrite filter_split_app_slash. f_equal.
  change (Js.join "/" (x :: stack) ++ "/")%string
    with (Js.join "/" (x :: stack) ++ String "/" "")%string.
  rewrite split_app_sep, List.filter_app, split_join by (assumption || discriminate).
  simpl (List.filter _ (Js.split _ "")). rewrite app_nil_r.
  now apply filter_truthy_kept.
Qed.

Lemma lastSegment_decompose (dir l : string) :
  free "/" l = true ->
  dir = "" \/ (exists x, dir = (x ++ "/")%string) ->
  lastSegment (dir ++ l) = l.
Proof.
  unfold lastSegment. intros Hl [-> | [x ->]].
  - simpl. now rewrite split_free.
  - rewrite append_assoc. change ("/" ++ l)%string with (String "/" l).
    rewrite split_app_sep, (split_free "/" l) by assumption. apply last_last.
Qed.

Lemma startsWith_app (x y : string) :
  x <> "" -> Js.startsWith (x ++ y) "/" = Js.startsWith x "/".
Proof.
  intros Hx. rewrite !startsWith_slash. destruct x; [congruence | reflexivity].
Qed.


Lemma join_snoc_nonempty (stack : list string) (l : string) :
  l <> "" -> Js.join "/" (stack ++ [l]) <> "".
Proof.
  intros Hl. destruct stack as [|x stack]; [exact Hl |].
  rewrite join_snoc by discriminate. intros E.
  apply append_eq_nil in E. discriminate.
Qed.

(** ** Path resolution *)

(** C10: for every base path, resolving an empty or absent reference gives
    the empty string, neither the directory of the base path nor the base
    path itself; so a manifest item or a navigation link without [href]
    gets the empty path. *)
Theorem resolveHref_of_nothing `{Host} (basePath name : string)
  (ns : Namespace) (attrs : gmap string Attr) (cs : list Node) :
  resolveHref basePath None = ""
  /\ resolveHref basePath (Some "") = ""
  /\ fullPath (manifestItem basePath (Element ns name (delete "href" attrs) cs)) = ""
  /\ List.map Nav.href
       (parseNavOl
          (Some (Element ns "ol" ∅
                   [Element ns "li" ∅ [Element ns "a" (delete "href" attrs) cs]]))
          basePath) = [""].
Proof.
  repeat split.
  - unfold manifestItem, getAttribute. cbn [attributesOf fullPath].
    now rewrite lookup_delete_eq.
  - cbn. unfold getAttribute. now rewrite lookup_delete_eq.
Qed.

(** C6, as the claim has it: the resolver follows the rule for every
    reference.  It does not for the empty one: the rule yields the
    directory of the base path, [resolveHref] yields the empty string. *)
Lemma resolveHref_empty_breaks_rule :
  resolveHref "OEBPS/content.opf" (Some "")
  <> PathSpec.resolve "OEBPS/content.opf" "".
Proof. discriminate. Qed.

(** C6, amended: for every base path and every reference that is not
    empty, [resolveHref] treats a reference beginning with [/] as
    container-rooted and otherwise resolves it against the directory of the
    base path (the text up to and including the last [/]); normalisation
    splits on [/], drops empty and [.] segments, and lets each [..] pop the
    segment retained before it, popping past the root being a no-op. *)
Theorem resolveHref_follows_rule (basePath reference : string) :
  reference <> "" ->
  resolveHref basePath (Some reference) = PathSpec.resolve basePath reference.
Proof.
  intros Hne. rewrite resolveHref_some by assumption.
  unfold PathSpec.resolve. rewrite startsWith_slash.
  destruct (PathSpec.beginsWithSlash reference).
  - apply normalizePath_spec.
  - now rewrite dirOf_directory, normalizePath_spec.
Qed.

Lemma resolveHref_follows_rule_witness :
  "../images/a.png" <> ""
  /\ resolveHref "OEBPS/text/ch1.xhtml" (Some "../images/a.png")
     = PathSpec.resolve "OEBPS/text/ch1.xhtml" "../images/a.png".
Proof.
  split; [discriminate |].
  apply (resolveHref_follows_rule "OEBPS/text/ch1.xhtml" "../images/a.png").
  discriminate.
Defined.

(** C7, as the claim has it: resolving [a] and then [b] equals resolving
    the combined relative path, whenever nothing over-pops the root.  With
    [a = text/..] nothing over-pops, and the two results differ, whether
    [b] is put in the directory of [a] or behind [a] and a [/]: the first
    resolution yields [OEBPS], whose directory is the root. *)
Lemma resolveHref_not_associative :
  relative "text/.." = true
  /\ relative "ch1.xhtml" = true
  /\ overPops (dirOf "OEBPS/content.opf" ++ "text/..") = false
  /\ overPops (dirOf (resolveHref "OEBPS/content.opf" (Some "text/..")) ++ "ch1.xhtml")
     = false
  /\ overPops (dirOf "OEBPS/content.opf" ++ combined "text/.." "ch1.xhtml") = false
  /\ resolveHref (resolveHref "OEBPS/content.opf" (Some "text/..")) (Some "ch1.xhtml")
     <> resolveHref "OEBPS/content.opf" (Some (combined "text/.." "ch1.xhtml"))
  /\ resolveHref (resolveHref "OEBPS/content.opf" (Some "text/..")) (Some "ch1.xhtml")
     <> resolveHref "OEBPS/content.opf" (Some "text/../ch1.xhtml").
Proof. repeat split; discriminate. Qed.

(** C7, amended: for every base path, every reference [a] whose last
    segment is an ordinary name (not empty, [.] or [..]) and every
    reference [b] that is relative and not empty, resolving [a] and then [b]
    equals resolving the combined relative path (the directory of [a]
    followed by [b]) against the base path; over-popping does not matter. *)
Theorem resolveHref_associative (basePath a b : string) :
  ordinary (lastSegment a) = true ->
  b <> "" ->
  relative b = true ->
  resolveHref (resolveHref basePath (Some a)) (Some b)
  = resolveHref basePath (Some (combined a b)).
Proof.
  intros Hlast Hb Hrel. unfold combined, relative in *.
  apply negb_true_iff in Hrel.
  destruct (path_decompose a) as (l & Hl & Ha & Hd).
  assert (Hla : lastSegment a = l)
    by (rewrite Ha at 1; now apply lastSegment_decompose).
  rewrite Hla in Hlast.
  assert (Hlne : l <> "") by (intros ->; discriminate).
  assert (Hane : a <> "").
  { intros E. rewrite E in Ha. symmetry in Ha. now apply append_eq_nil in Ha. }
  assert (Habne : (dirOf a ++ b)%string <> "").
  { intros E. now apply append_eq_nil in E. }
  (* the segments of the first resolution: those of a directory, then [l] *)
  assert (Hfirst : exists dir,
             (dir = "" \/ exists x, dir = (x ++ "/")%string)
             /\ resolveHref basePath (Some a)
                = Js.join "/"
                    (normalizeSegments (List.filter Js.Boolean (Js.split "/" dir))
                     ++ [l])
             /\ resolveHref basePath (Some (dirOf a ++ b)%string)
                = normalizePath (dir ++ b)).
  { rewrite !resolveHref_some by assumption.
    destruct (Js.startsWith a "/") eqn:Hroot.
    - exists (dirOf a). split; [exact Hd |]. split.
      + unfold normalizePath. rewrite Ha at 1.
        rewrite filter_split_behind by exact Hd.
        rewrite (split_free "/" l) by assumption.
        unfold normalizeSegments. rewrite fold_left_app.
        destruct l; [congruence |]. cbn [List.filter Js.Boolean fold_left].
        now rewrite normalizeStep_ordinary.
      + destruct Hd as [Hd | Hd].
        * rewrite Hd in Ha. simpl in Ha. subst l.
          rewrite startsWith_slash in Hroot. destruct a as [|c a']; [discriminate |].
          simpl in Hroot, Hl. now rewrite Hroot in Hl.
        * rewrite startsWith_app.
          -- rewrite Ha in Hroot. rewrite startsWith_app in Hroot.
             ++ now rewrite Hroot.
             ++ destruct Hd as [x ->]. now destruct x.
          -- destruct Hd as [x ->]. now destruct x.
    - destruct (path_decompose basePath) as (_ & _ & _ & Hbase).
      exists (dirOf basePath ++ dirOf a)%string. split; [|split].
      + destruct Hd as [-> | [x ->]].
        * now rewrite append_nil_r.
        * right. exists (dirOf basePath ++ x)%string. now rewrite append_assoc.
      + unfold normalizePath. rewrite Ha at 1. rewrite <- append_assoc.
        rewrite filter_split_behind.
        * rewrite (split_free "/" l) by assumption.
          unfold normalizeSegments. rewrite fold_left_app.
          destruct l; [congruence |]. cbn [List.filter Js.Boolean fold_left].
          now rewrite normalizeStep_ordinary.
        * destruct Hd as [-> | [x ->]].
          -- now rewrite append_nil_r.
          -- right. exists (dirOf basePath ++ x)%string. now rewrite append_assoc.
      + assert (Hnr : Js.startsWith (dirOf a ++ b) "/" = false).
        { destruct Hd as [Hd | Hd].
          - now rewrite Hd.
          - rewrite startsWith_app by (destruct Hd as [x ->]; now destruct x).
            rewrite Ha in Hroot. rewrite startsWith_app in Hroot; [exact Hroot |].
            destruct Hd as [x ->]. now destruct x. }
        rewrite Hnr. now rewrite append_assoc. }
  destruct Hfirst as (dir & Hdir & -> & ->).
  set (stack := normalizeSegments (List.filter Js.Boolean (Js.split "/" dir))).
  assert (Hstack : Forall kept stack) by apply normalizeSegments_kept.
  rewrite resolveHref_some by assumption.
  rewrite Hrel. unfold normalizePath.
  rewrite segments_from_resolved by assumption.
  rewrite filter_split_behind by exact Hdir.
  unfold normalizeSegments. rewrite !fold_left_app. f_equal. f_equal.
  fold (normalizeSegments (List.filter Js.Boolean (Js.split "/" dir))).
  fold stack. rewrite normalize_ordinary; [reflexivity |].
  eapply List.Forall_impl; [|exact Hstack]. now intros seg [Ho _].
Qed.

Lemma resolveHref_associative_witness :
  ordinary (lastSegment "../text/./ch1.xhtml") = true
  /\ "../images/a.png" <> ""
  /\ relative "../images/a.png" = true
  /\ resolveHref (resolveHref "OEBPS/content.opf" (Some "../text/./ch1.xhtml"))
       (Some "../images/a.png")
     = resolveHref "OEBPS/content.opf"
         (Some (combined "../text/./ch1.xhtml" "../images/a.png")).
Proof.
  split; [reflexivity |]. split; [discriminate |]. split; [reflexivity |].
  apply (resolveHref_associative "OEBPS/content.opf" "../text/./ch1.xhtml"
           "../images/a.png");
    [reflexivity | discriminate | reflexivity].
Defined.

(** ** Document trees *)

(** Structural induction on a tree, with the hypothesis on every child. *)
Lemma Node_ind (P : Node -> Prop) :
  (forall ns name attrs cs, Forall P cs -> P (Element ns name attrs cs)) ->
  (forall d, P (Text d)) ->
  forall n, P n.
Proof.
  intros HE HT. fix IH 1. intros [ns name attrs cs | d]; [|apply HT].
  apply HE. induction cs as [|c cs IHcs]; constructor; [apply IH | exact IHcs].
Qed.




(** After [removeAll sel], nothing that [sel] selects is left below. *)
Lemma descendants_removeAll (sel : Node -> bool) (n : Node) :
  (forall c, sel (removeAll sel c) = sel c) ->
  Forall (fun d => sel d = false) (descendants (removeAll sel n)).
Proof.
  intros Hsel. induction n as [ns name attrs cs IH | d] using Node_ind;
    [|constructor].
  cbn [removeAll descendants].
  induction IH as [|c cs Hc _ IHcs]; [constructor |].
  cbn [flat_map]. destruct (sel c) eqn:E; [exact IHcs |].
  cbn [app flat_map]. constructor; [now rewrite Hsel |].
  apply Forall_app. split; [exact Hc | exact IHcs].
Qed.

(** The removal treats every subtree alike: a node that still hangs under
    [n] afterwards is the stripped form of a node that hung there before.
    So it does not matter through which ancestor a subtree is reached, nor
    whether it is still attached to the document. *)
Lemma removeAll_subtrees (sel : Node -> bool) (n : Node) :
  Forall (fun d' => exists d, In d (descendants n) /\ d' = removeAll sel d)
    (descendants (removeAll sel n)).
Proof.
  induction n as [ns name attrs cs IH | d] using Node_ind; [|constructor].
  cbn [removeAll descendants].
  induction IH as [|c cs Hc _ IHcs]; [constructor |].
  cbn [flat_map].
  assert (Hrest :
            Forall
              (fun d' =>
                 exists d, In d ((c :: descendants c)
                                 ++ flat_map (fun c => c :: descendants c) cs)
                           /\ d' = removeAll sel d)
              (flat_map (fun c' => c' :: descendants c')
                 (flat_map (fun c => if sel c then [] else [removeAll sel c]) cs))).
  { eapply List.Forall_impl; [|exact IHcs].
    intros d' (d & Hin & ->). exists d. split; [|reflexivity].
    apply in_or_app. now right. }
  destruct (sel c); [exact Hrest |].
  cbn [app flat_map]. constructor.
  - exists c. split; [now left | reflexivity].
  - apply Forall_app. split; [|exact Hrest].
    eapply List.Forall_impl; [|exact Hc].
    intros d' (d & Hin & ->). exists d. split; [|reflexivity].
    right. apply in_or_app. now left.
Qed.

Lemma isStylesheet_removeAll (htmlDocument : bool) (sel : Node -> bool)
  (c : Node) :
  isStylesheet htmlDocument (removeAll sel c) = isStylesheet htmlDocument c.
Proof. now destruct c as [[|] name attrs cs | d]. Qed.

Lemma filter_none {A} (p : A -> bool) (l : list A) :
  Forall (fun x => p x = false) l -> List.filter p l = [].
Proof.
  induction 1 as [|x l Hx _ IH]; [reflexivity |]. simpl. now rewrite Hx.
Qed.

(** Run again after the removal, the selector of the style sheets finds
    nothing below the node. *)
Lemma no_stylesheet_left (htmlDocument : bool) (n : Node) :
  querySelectorAllIn (isStylesheet htmlDocument)
    (removeAll (isStylesheet htmlDocument) n) = [].
Proof.
  apply filter_none, descendants_removeAll. intros c.
  apply isStylesheet_removeAll.
Qed.

(** ** Content normalisation *)

Section Normalisation.

Context `{Host}.

(** What [loadChapter] and [loadSpineItem] return for an entry that is
    there, readable and not empty, on an item that has a path. *)
Lemma load_present (zip : JSZip) (item : SpineItem) (path raw : string) :
  itemFullPath item = Some path ->
  readText zip path = Return (Some raw) ->
  raw <> "" ->
  let body :=
    updateDescendants (inlineSvgImage zip (dirOf path))
      (updateDescendants (inlineImg zip (dirOf path)) (strippedBody raw)) in
  sanitizedBody zip item raw = Return body
  /\ loadChapter zip item = Return (innerHTML body)
  /\ loadSpineItem zip item = Return (innerHTML body).
Proof.
  intros Hpath Hread Hraw body.
  assert (Hs : sanitizedBody zip item raw = Return body).
  { unfold sanitizedBody, itemDirOf. now rewrite Hpath. }
  unfold loadChapter, loadSpineItem, readItem.
  rewrite Hpath. cbn [stringOfOptional]. rewrite Hread. cbn [bind].
  destruct raw as [|c raw]; [congruence |]. cbn [nonEmpty].
  rewrite Hs. now cbn [bind].
Qed.

(** *** Image references *)






(** *** Dangling spine references *)

(** C5, amended: when the resolved path of a spine item is absent from
    the archive, normalisation raises no error: [loadChapter] (per-chapter
    mode) returns the not-found placeholder, [loadSpineItem] (whole-book
    mode) returns the empty string, and the loop of [loadEntireBook] goes
    on to the next position without adding a section. *)
Theorem dangling_spine_reference (zip : JSZip) (item : SpineItem) :
  file zip (stringOfOptional (itemFullPath item)) = None ->
  loadChapter zip item = Return chapterNotFound
  /\ loadSpineItem zip item = Return ""
  /\ forall rest i sections,
       WholeBook.loadSections zip (item :: rest) i sections
       = WholeBook.loadSections zip rest (S i) sections.
Proof.
  intros Hfile.
  assert (Hread : readItem zip item = Return None)
    by (unfold readItem, readText; now rewrite Hfile).
  assert (Hs : loadSpineItem zip item = Return "")
    by (unfold loadSpineItem; now rewrite Hread).
  split; [unfold loadChapter; now rewrite Hread |]. split; [exact Hs |].
  intros rest i sections. cbn [WholeBook.loadSections].
  destruct (WholeBook.isContentDocument _); [|reflexivity].
  rewrite Hs. cbn [bind]. now rewrite trim_empty.
Qed.

End Normalisation.

(** The sample chapter: styling gone, the image that is in the archive
    inlined, the one that is not left alone. *)
Example sample_chapter :
  loadChapter (H := Sample.host) Sample.zip Sample.chapterItem
  = Return
      ("<p class=" ++ dquote ++ "first" ++ dquote ++ ">Hello<img src=" ++ dquote
         ++ "data:application/octet-stream,PNG" ++ dquote ++ "></img></p>"
         ++ "<svg><image xlink:href=" ++ dquote ++ "../images/b.png" ++ dquote
         ++ "></image></svg>")%string.
Proof. vm_compute. reflexivity. Qed.

(** C1, on a chapter that is well-formed XHTML (the strict parse reports
    no error) and whose body links three style sheets: the selector
    [link[rel="stylesheet"]] compares the value of [rel] exactly, so it
    takes out the first link only.  The links with [rel="Stylesheet"] and
    [rel="alternate stylesheet"], which link style sheets as much as the
    first, are still in the fragment that [loadChapter] and
    [loadSpineItem] return. *)
Theorem stylesheet_links_survive :
  querySelector (named "parsererror")
    (parseFromString (Host := Corner.host) Corner.styledXml
       "application/xhtml+xml") = None
  /\ List.map (fun n => getAttribute (attributesOf n) "rel")
       (List.filter StyleSpec.isStylesheetLink
          (descendants
             (contentRoot
                (parseFromString (Host := Corner.host) Corner.styledXml
                   "application/xhtml+xml"))))
     = [Some "stylesheet"; Some "Stylesheet"; Some "alternate stylesheet"]
  /\ exists body,
       sanitizedBody (H := Corner.host) Corner.styledZip Sample.chapterItem
         Corner.styledXml = Return body
       /\ loadChapter (H := Corner.host) Corner.styledZip Sample.chapterItem
          = Return (innerHTML (Host := Corner.host) body)
       /\ loadSpineItem (H := Corner.host) Corner.styledZip Sample.chapterItem
          = Return (innerHTML (Host := Corner.host) body)
       /\ List.filter StyleSpec.styled (descendants body)
          = [ Element HTML "link"
                {[ "rel" := Sample.attr "Stylesheet";
                   "href" := Sample.attr "page.css" ]} [];
              Element HTML "link"
                {[ "rel" := Sample.attr "alternate stylesheet";
                   "href" := Sample.attr "night.css" ]} [] ].
Proof.
  split; [reflexivity |]. split; [vm_compute; reflexivity |].
  eexists. split; [vm_compute; reflexivity |].
  repeat split; vm_compute; reflexivity.
Qed.



(** C5, as the claim has it: a dangling spine reference yields a
    not-found placeholder.  [loadSpineItem] yields the empty string. *)
Lemma loadSpineItem_dangling_is_empty :
  file (∅ : JSZip) (stringOfOptional (itemFullPath Sample.chapterItem)) = None
  /\ loadSpineItem (H := Sample.host) ∅ Sample.chapterItem = Return ""
  /\ loadSpineItem (H := Sample.host) ∅ Sample.chapterItem
     <> Return chapterNotFound.
Proof. split; [reflexivity |]. split; [reflexivity | discriminate]. Qed.

Lemma dangling_spine_reference_witness :
  file (∅ : JSZip) (stringOfOptional (itemFullPath Sample.chapterItem)) = None
  /\ loadChapter (H := Sample.host) ∅ Sample.chapterItem = Return chapterNotFound
  /\ loadSpineItem (H := Sample.host) ∅ Sample.chapterItem = Return ""
  /\ forall rest i sections,
       WholeBook.loadSections (H := Sample.host) ∅ (Sample.chapterItem :: rest)
         i sections
       = WholeBook.loadSections (H := Sample.host) ∅ rest (S i) sections.
Proof.
  split; [reflexivity |].
  apply (dangling_spine_reference (H := Sample.host) ∅ Sample.chapterItem).
  reflexivity.
Defined.

(** ** The spine *)

(** A key that is neither an own property nor inherited reads as
    [undefined]. *)
Lemma get_plain_key (manifest : Obj.t) (key : string) :
  Obj.proto manifest = None ->
  existsb (String.eqb key) Obj.prototypeKeys = false ->
  Obj.get manifest key =
  match Obj.lookup (Obj.own manifest) key with
  | Some item => Obj.Item item
  | None => Obj.Undefined
  end.
Proof.
  intros Hproto Hkey. unfold Obj.get. rewrite Hproto.
  destruct (Obj.lookup _ key); [reflexivity |].
  unfold Obj.fromObjectPrototype. rewrite Hkey.
  cbn [existsb Obj.prototypeKeys] in Hkey.
  repeat (apply orb_false_iff in Hkey as [? Hkey]).
  now replace (key =? "__proto__")%string with false.
Qed.

(** Away from the inherited property names the loop over the [itemref]
    elements builds the spine of the specification: the items of the known
    ids, in document order. *)
Lemma spine_in_document_order (manifest : Obj.t) (idrefs : list (option string))
  (spine : list SpineItem) :
  Obj.proto manifest = None ->
  Forall
    (fun idref =>
       existsb (String.eqb (keyOfNullable idref)) Obj.prototypeKeys = false)
    idrefs ->
  fold_left (spineStep manifest) idrefs spine
  = spine ++ spineOf (Obj.own manifest) idrefs.
Proof.
  intros Hproto Hkeys. revert spine.
  induction Hkeys as [|idref idrefs Hkey _ IH]; intros spine.
  - simpl. now rewrite app_nil_r.
  - cbn [fold_left spineOf flat_map]. rewrite IH. unfold spineStep.
    rewrite get_plain_key by assumption.
    destruct (Obj.lookup _ _); cbn [Obj.truthy].
    + unfold Js.push. now rewrite <- app_assoc.
    + reflexivity.
Qed.

Lemma buildSpine_fold (manifest : Obj.t) (opfDoc : Node) :
  buildSpine manifest opfDoc =
  fold_left (spineStep manifest)
    (List.map (fun ref => getAttribute (attributesOf ref) "idref")
       (querySelectorAllBelow "spine" "itemref" opfDoc))
    [].
Proof.
  unfold buildSpine. generalize (@nil SpineItem).
  induction (querySelectorAllBelow "spine" "itemref" opfDoc) as [|ref refs IH];
    intros spine; [reflexivity | apply IH].
Qed.

(** The scenario of the specification: items [c1] and [c2], a spine that
    names them (and an unknown id in between). *)
Example sample_spine :
  List.map itemFullPath
    (buildSpine (buildManifest "OEBPS/content.opf" Sample.opfDoc) Sample.opfDoc)
  = [Some "OEBPS/chap1.xhtml"; Some "OEBPS/chap2.xhtml"].
Proof. reflexivity. Qed.

(** C3, on a package whose spine names [constructor], an id that the
    manifest does not have: [manifest[idref]] finds the property every
    object inherits, and the [itemref] is not dropped but becomes a spine
    entry without path or media type, between the two chapters.  The spine
    of the specification has the two chapters only. *)
Theorem inherited_key_enters_spine :
  buildSpine (buildManifest "OEBPS/content.opf" Sample.strayOpfDoc)
    Sample.strayOpfDoc
  = [ mkSpineItem (Some "c1")
        (Obj.Item
           (mkManifestItem (Some "chap1.xhtml") "application/xhtml+xml" ""
              "OEBPS/chap1.xhtml"));
      mkSpineItem (Some "constructor") Obj.Builtin;
      mkSpineItem (Some "c2")
        (Obj.Item
           (mkManifestItem (Some "chap2.xhtml") "application/xhtml+xml" ""
              "OEBPS/chap2.xhtml")) ]
  /\ spineOf
       (Obj.own (buildManifest "OEBPS/content.opf" Sample.strayOpfDoc))
       [Some "c1"; Some "constructor"; Some "c2"]
     = [ mkSpineItem (Some "c1")
           (Obj.Item
              (mkManifestItem (Some "chap1.xhtml") "application/xhtml+xml" ""
                 "OEBPS/chap1.xhtml"));
         mkSpineItem (Some "c2")
           (Obj.Item
              (mkManifestItem (Some "chap2.xhtml") "application/xhtml+xml" ""
                 "OEBPS/chap2.xhtml")) ].
Proof. split; reflexivity. Qed.

(** ** The table of contents *)

Section Navigation.

Context `{Host}.

Lemma parseToc_cases (zip : JSZip) (manifest : Obj.t)
  (ncxItem navItem : ManifestItem) :
  ncxItemOf manifest = Some ncxItem ->
  navItemOf manifest = Some navItem ->
  parseToc zip manifest =
  match tryCatch (tocFromNcx zip ncxItem) [] with
  | [] => tryCatch (tocFromNav zip navItem) []
  | legacy => legacy
  end.
Proof.
  intros Hncx Hnav. unfold parseToc. rewrite Hncx, Hnav.
  now destruct (tryCatch (tocFromNcx zip ncxItem) []).
Qed.

(** The legacy attempt reads the archive at the path of the legacy
    document and nowhere else. *)
Lemma tocFromNcx_reads_one_entry (zip zip' : JSZip) (ncxItem : ManifestItem) :
  file zip' (fullPath ncxItem) = file zip (fullPath ncxItem) ->
  tocFromNcx zip' ncxItem = tocFromNcx zip ncxItem.
Proof. intros Hsame. unfold tocFromNcx, readText. now rewrite Hsame. Qed.

(** The table of contents that [parseStructure] and [parseEpub] return is
    [parseToc] of the manifest they return. *)
Lemma parsePackage_toc (noRootfile : string) (zip : JSZip)
  (spine : list SpineItem) (manifest : Obj.t) (toc : list Nav.Item) :
  parsePackage noRootfile zip = Return (spine, manifest, toc) ->
  toc = parseToc zip manifest.
Proof.
  unfold parsePackage.
  destruct (readText zip "META-INF/container.xml") as [containerXml|];
    [|discriminate].
  cbn [bind]. destruct (nonEmpty containerXml); [|discriminate].
  destruct (nonEmpty _) as [opfPath|]; [|discriminate].
  destruct (readText zip opfPath) as [opfXml|]; [|discriminate].
  cbn [bind]. destruct (nonEmpty opfXml); [|discriminate].
  now intros [= _ <- <-].
Qed.

(** The precedence between the two navigation formats, for a manifest
    object in which [Object.values(manifest).find] finds both documents:
    when parsing the legacy one yields at least one entry, the table of
    contents is exactly the legacy result, and it is the same for every
    archive that holds the same legacy document, whatever else it holds
    (the modern document is not consulted); the modern format is parsed
    when the legacy attempt yields no entry. *)
Lemma legacy_navigation_first (zip : JSZip) (manifest : Obj.t)
  (ncxItem navItem : ManifestItem) :
  ncxItemOf manifest = Some ncxItem ->
  navItemOf manifest = Some navItem ->
  let legacy := tryCatch (tocFromNcx zip ncxItem) [] in
  (legacy <> [] ->
   parseToc zip manifest = legacy
   /\ forall zip' : JSZip,
        file zip' (fullPath ncxItem) = file zip (fullPath ncxItem) ->
        parseToc zip' manifest = legacy)
  /\ (legacy = [] ->
      parseToc zip manifest = tryCatch (tocFromNav zip navItem) []).
Proof.
  intros Hncx Hnav legacy. split.
  - intros Hsome. split.
    + rewrite (parseToc_cases zip manifest ncxItem navItem Hncx Hnav).
      fold legacy. now destruct legacy.
    + intros zip' Hsame.
      rewrite (parseToc_cases zip' manifest ncxItem navItem Hncx Hnav).
      rewrite (tocFromNcx_reads_one_entry zip zip' ncxItem Hsame).
      fold legacy. now destruct legacy.
  - intros Hnone.
    rewrite (parseToc_cases zip manifest ncxItem navItem Hncx Hnav).
    fold legacy. now rewrite Hnone.
Qed.

(** *** Labels *)

Lemma parseNcxPoint_labels (ncxPath : string) (np : Node) :
  List.map Nav.label (flattenItem (parseNcxPoint ncxPath np))
  = List.map
      (fun np =>
         match navPointText np with
         | Some text => trim text
         | None => ""
         end)
      (navPointsOf np).
Proof.
  induction np as [ns name attrs cs IH | d] using Node_ind; [|reflexivity].
  cbn [parseNcxPoint flattenItem navPointsOf List.map]. f_equal.
  - unfold navPointText. cbn [Nav.label children].
    now destruct (List.head _).
  - induction IH as [|c cs Hc _ IHcs]; [reflexivity |].
    cbn [flat_map]. rewrite !flat_map_app, !List.map_app, IHcs. f_equal.
    destruct (named "navPoint" c); [|reflexivity].
    cbn [flat_map]. now rewrite app_nil_r.
Qed.

Lemma onScopeChild_find {A} (name : string) (f : Node -> A) (d : A)
  (cs : list Node) :
  onScopeChild name f d cs =
  match List.find (named name) cs with
  | Some c => f c
  | None => d
  end.
Proof.
  induction cs as [|c cs IH]; [reflexivity |]. simpl.
  now destruct (named name c).
Qed.

Lemma parseNavList_labels (navPath : string) (ol : Node) :
  List.map Nav.label (flat_map flattenItem (parseNavList navPath ol))
  = List.map (fun a => trim (textContent a)) (navLinksOf ol).
Proof.
  enough (Hboth :
            List.map Nav.label (flat_map flattenItem (parseNavList navPath ol))
            = List.map (fun a => trim (textContent a)) (navLinksOf ol)
            /\ Forall
                 (fun c =>
                    List.map Nav.label
                      (flat_map flattenItem (parseNavList navPath c))
                    = List.map (fun a => trim (textContent a)) (navLinksOf c))
                 (children ol)) by apply Hboth.
  induction ol as [ns name attrs lis IH | d] using Node_ind;
    [|split; [reflexivity | constructor]].
  split; [|eapply List.Forall_impl; [|exact IH]; now intros c [Hc _]].
  cbn [parseNavList navLinksOf].
  induction IH as [|li lis [_ Hli] _ IHlis]; [reflexivity |].
  cbn [flat_map]. rewrite !flat_map_app, !List.map_app, IHlis. f_equal.
  destruct li as [liNs liName liAttrs cs | d]; [|reflexivity].
  destruct (liName =? "li")%string; [|reflexivity].
  destruct (List.find (named "a") cs) as [a|]; [|reflexivity].
  cbn [flat_map flattenItem List.map app Nav.label orEmpty].
  rewrite app_nil_r. f_equal. rewrite !onScopeChild_find.
  destruct (List.find (named "ol") cs) as [sub|] eqn:Hfind; [|reflexivity].
  apply List.find_some in Hfind as [Hin _]. cbn [children] in Hli.
  exact (proj1 (List.Forall_forall _ _) Hli sub Hin).
Qed.

(** C9, amended: for both navigation sources, the label of every produced
    entry is the trimmed display text of its source entry (for a
    [navPoint], the empty string when it has no label text); when the
    source label is absent or blank the label is the empty string, not
    [Untitled]: that default is what [TocTree] shows for an entry whose
    label is empty. *)
Theorem labels_of_navigation (points : list Node) (ol : Node) (path : string) :
  List.map Nav.label (flat_map flattenItem (parseNcxPoints points path))
  = List.map
      (fun np =>
         match navPointText np with
         | Some text => trim text
         | None => ""
         end)
      (flat_map navPointsOf points)
  /\ List.map Nav.label (flat_map flattenItem (parseNavOl (Some ol) path))
     = List.map (fun a => trim (textContent a)) (navLinksOf ol)
  /\ (forall item,
        WholeBook.tocTreeLabel item
        = if String.eqb (Nav.label item) "" then "Untitled" else Nav.label item).
Proof.
  split; [|split; [apply parseNavList_labels |]].
  - unfold parseNcxPoints.
    induction points as [|np points IH]; [reflexivity |].
    cbn [List.map flat_map]. rewrite !List.map_app, IH. f_equal.
    apply parseNcxPoint_labels.
  - intros [label href subitems]. unfold WholeBook.tocTreeLabel.
    cbn [Nav.label]. now destruct label.
Qed.

End Navigation.

(** C9, as the claim has it: an entry whose source has no label is
    labelled [Untitled].  Its label is the empty string. *)
Lemma missing_label_is_empty :
  List.map Nav.label
    (parseNcxPoints (H := Sample.host)
       [Element Foreign "navPoint" ∅
          [Element Foreign "content" {[ "src" := Sample.attr "chap1.xhtml" ]} []]]
       "OEBPS/toc.ncx")
  <> ["Untitled"].
Proof. discriminate. Qed.

(** The sample book has both navigation documents; the table of contents
    is the legacy one. *)
Example sample_toc :
  parseToc (H := Sample.host) Sample.zip Sample.manifest
  = [ Nav.mk "Chapter One" "OEBPS/chap1.xhtml#start"
        [Nav.mk "" "OEBPS/chap2.xhtml#s1" []] ].
Proof. vm_compute. reflexivity. Qed.

(** Without a legacy document in the manifest the modern one is parsed:
    one top-level link, no subitems.  (The [epub:type] attribute of the
    [nav] element is in a namespace, so the first selector misses it and
    the plain [nav] selector finds the element.) *)
Example sample_toc_modern :
  parseToc (H := Sample.host) Sample.zip (Obj.set Obj.empty "nav" Sample.navItem)
  = [Nav.mk "Chapter Two" "OEBPS/chap2.xhtml" []].
Proof. vm_compute. reflexivity. Qed.

(** C4, on a package whose manifest declares the navigation-control
    document under the id [__proto__] and a modern navigation document
    besides: the assignment [manifest[id] = ...] installs the record as
    the prototype of the manifest object instead of adding a property, so
    [Object.values(manifest)] does not hold it and the legacy attempt is
    never made.  Parsing the legacy document yields an entry (with a
    subitem), yet the table of contents that [parseStructure] and
    [parseEpub] return is the list of the modern document. *)
Theorem legacy_navigation_skipped :
  List.map (fun item => getAttribute (attributesOf item) "id")
    (querySelectorAllBelow "manifest" "item" Corner.protoOpfDoc)
  = [Some "c1"; Some "c2"; Some "__proto__"; Some "nav"]
  /\ List.map (manifestItem "OEBPS/content.opf")
       (querySelectorAllBelow "manifest" "item" Corner.protoOpfDoc)
     = [ mkManifestItem (Some "chap1.xhtml") "application/xhtml+xml" ""
           "OEBPS/chap1.xhtml";
         mkManifestItem (Some "chap2.xhtml") "application/xhtml+xml" ""
           "OEBPS/chap2.xhtml";
         Corner.ncxItem;
         Sample.navItem ]
  /\ tocFromNcx (H := Corner.host) Corner.protoZip Corner.ncxItem
     = Return
         [ Nav.mk "Chapter One" "OEBPS/chap1.xhtml#start"
             [Nav.mk "" "OEBPS/chap2.xhtml#s1" []] ]
  /\ (exists structure,
        WholeBook.parseStructure (H := Corner.host) Corner.protoZip
        = Return structure
        /\ ncxItemOf (WholeBook.manifest structure) = None
        /\ WholeBook.toc structure
           = [Nav.mk "Chapter Two" "OEBPS/chap2.xhtml" []])
  /\ (exists data,
        PerChapter.parseEpub (H := Corner.host) Corner.protoBuffer = Return data
        /\ ncxItemOf (PerChapter.manifest data) = None
        /\ PerChapter.toc data = [Nav.mk "Chapter Two" "OEBPS/chap2.xhtml" []]).
Proof.
  split; [reflexivity |]. split; [reflexivity |].
  split; [vm_compute; reflexivity |]. split.
  - eexists. split; [vm_compute; reflexivity |]. split; reflexivity.
  - eexists. split; [vm_compute; reflexivity |]. split; reflexivity.
Qed.

(** ** Jumping to a table-of-contents target (per-chapter mode) *)

Lemma findIndexFrom_paths (basePath : string) (spine : list SpineItem) (i : Z) :
  Forall (fun s => itemFullPath s <> None) spine ->
  PerChapter.findIndexFrom (PerChapter.matchesPath basePath) spine i
  = Return
      (match firstWithPath basePath spine with
       | Some k => (i + Z.of_nat k)%Z
       | None => (-1)%Z
       end).
Proof.
  intros Hpaths. revert i.
  induction Hpaths as [|s spine Hs _ IH]; intros i; [reflexivity |].
  cbn [PerChapter.findIndexFrom firstWithPath]. unfold PerChapter.matchesPath.
  destruct (itemFullPath s) as [p|]; [|congruence]. cbn [bind].
  destruct (PerChapter.stripFragment p =? basePath)%string.
  - f_equal. lia.
  - rewrite IH. destruct (firstWithPath basePath spine); cbn [option_map];
      [f_equal; lia | reflexivity].
Qed.

(** On a spine whose items all have a path, [goToHref] sets the index to
    the first position whose path, fragment stripped, is the target with
    its fragment stripped, leaves it alone when there is none, and closes
    the table of contents. *)
Lemma goToHref_sets_index (st : PerChapter.State) (data : PerChapter.EpubData)
  (href : string) :
  PerChapter.epubData st = Some data ->
  Forall (fun s => itemFullPath s <> None) (PerChapter.spine data) ->
  PerChapter.goToHref st href
  = Return
      (PerChapter.mkState (PerChapter.epubData st)
         (match firstWithPath (PerChapter.stripFragment href)
                  (PerChapter.spine data) with
          | Some k => Z.of_nat k
          | None => PerChapter.chapterIndex st
          end)
         false).
Proof.
  destruct st as [epubData chapterIndex showToc]. cbn. intros -> Hpaths.
  unfold PerChapter.goToHref, PerChapter.findIndex. cbn [PerChapter.epubData].
  rewrite findIndexFrom_paths by assumption. cbn [bind].
  destruct (firstWithPath _ _) as [k|].
  - replace (0 + Z.of_nat k >=? 0)%Z with true
      by (symmetry; apply Z.geb_le; lia).
    reflexivity.
  - reflexivity.
Qed.

(** The scenario of the specification: the target carries a fragment, the
    spine holds its path at index 4. *)
Example jump_to_fragment :
  let chapter (n : string) :=
    mkSpineItem (Some n)
      (Obj.Item
         (mkManifestItem (Some ("text/" ++ n)%string) "application/xhtml+xml" ""
            ("OEBPS/text/" ++ n)%string)) in
  let data :=
    PerChapter.mkEpubData Sample.zip
      [ chapter "cover.xhtml"; chapter "toc.xhtml"; chapter "ch1.xhtml";
        chapter "ch2.xhtml"; chapter "ch3.xhtml"; chapter "ch4.xhtml" ]
      Obj.empty [] in
  PerChapter.goToHref (PerChapter.mkState (Some data) 0 true)
    "OEBPS/text/ch3.xhtml#section2"
  = Return (PerChapter.mkState (Some data) 4 false).
Proof. reflexivity. Qed.

(** C8, on the book whose spine names [constructor]: the spine that
    [parseEpub] builds has an entry without [fullPath], and the search of
    [goToHref] throws on it, both for a target that comes after it and
    for a target that matches nothing, instead of setting the index or
    doing nothing. *)
Theorem goToHref_throws_on_pathless_entry :
  exists data,
    PerChapter.parseEpub (H := Sample.host) Sample.strayBuffer = Return data
    /\ List.map itemFullPath (PerChapter.spine data)
       = [Some "OEBPS/chap1.xhtml"; None; Some "OEBPS/chap2.xhtml"]
    /\ PerChapter.goToHref (PerChapter.mkState (Some data) 0 true)
         "OEBPS/chap2.xhtml#s1"
       = Throw typeError
    /\ PerChapter.goToHref (PerChapter.mkState (Some data) 0 true)
         "OEBPS/none.xhtml"
       = Throw typeError.
Proof. eexists. split; [vm_compute; reflexivity |]. repeat split. Qed.

(** * Further properties *)

(** ** Normal forms of paths *)

(** A path put together from kept segments is left as it is. *)
Lemma normalizePath_join (stack : list string) :
  Forall kept stack -> normalizePath (Js.join "/" stack) = Js.join "/" stack.
Proof.
  intros Hs. destruct stack as [|x stack]; [reflexivity |].
  unfold normalizePath, normalizeSegments.
  rewrite split_join, filter_truthy_kept by (assumption || discriminate).
  rewrite normalize_ordinary; [reflexivity |].
  eapply List.Forall_impl; [|exact Hs]. now intros seg [Ho _].
Qed.

(** The result of a normalisation, read back as segments. *)
Lemma normalizePath_segments (path : string) :
  normalizePath path = "" \/ Forall kept (Js.split "/" (normalizePath path)).
Proof.
  unfold normalizePath.
  pose proof (normalizeSegments_kept path) as Hk.
  destruct (normalizeSegments _) as [|x stack]; [now left | right].
  now rewrite split_join by (assumption || discriminate).
Qed.

Lemma resolveHref_cases (basePath : string) (href : option string) :
  resolveHref basePath href = ""
  \/ exists path, resolveHref basePath href = normalizePath path.
Proof.
  destruct href as [[|c href]|]; [now left | | now left].
  right. cbn [resolveHref]. destruct (Js.startsWith _ _); eauto.
Qed.

Lemma resolveHref_normalForm (basePath : string) (href : option string) :
  normalForm (resolveHref basePath href).
Proof.
  unfold normalForm.
  destruct (resolveHref_cases basePath href) as [-> | [path ->]].
  - split; [now left | reflexivity].
  - split; [apply normalizePath_segments |].
    apply normalizePath_join, normalizeSegments_kept.
Qed.

(** X1: normalising twice is normalising once. *)
Theorem normalizePath_idempotent (path : string) :
  normalizePath (normalizePath path) = normalizePath path.
Proof. apply normalizePath_join, normalizeSegments_kept. Qed.

(** X2: every resolved path is in normal form: it is the empty string or
    a sequence of segments, separated by single slashes, none of which is
    empty, [.] or [..] (so it neither begins nor ends with a slash), and
    normalising it again changes nothing.  This holds of every [fullPath]
    of the manifest and every [href] of the table of contents. *)
Theorem resolveHref_normal_form (basePath : string) (href : option string) :
  normalForm (resolveHref basePath href).
Proof. apply resolveHref_normalForm. Qed.

(** ** Fragments *)

Lemma stripFragment_split (path : string) :
  exists rest, Js.split "#" path = PerChapter.stripFragment path :: rest.
Proof.
  unfold PerChapter.stripFragment.
  destruct (split_cons "#" path) as (seg & segs & ->). eauto.
Qed.

(** Only the text before the first [#] counts. *)
Lemma stripFragment_app (path fragment : string) :
  PerChapter.stripFragment (path ++ String "#" fragment) =
  PerChapter.stripFragment path.
Proof.
  unfold PerChapter.stripFragment at 1. rewrite split_app_sep.
  destruct (stripFragment_split path) as (rest & ->). reflexivity.
Qed.

Lemma ordinary_app (l rest : string) :
  ordinary l = true -> ordinary (l ++ String "#" rest) = true.
Proof.
  destruct l as [|c [|c' [|c'' l]]]; try reflexivity.
  - unfold ordinary. simpl. destruct (Ascii.eqb c "."); reflexivity.
  - unfold ordinary. simpl.
    destruct (Ascii.eqb c "."); [|reflexivity].
    destruct (Ascii.eqb c' "."); reflexivity.
  - unfold ordinary. simpl.
    destruct (Ascii.eqb c "."); [|reflexivity].
    destruct (Ascii.eqb c' "."); reflexivity.
Qed.

Lemma free_app (sep : ascii) (x y : string) :
  free sep (x ++ y) = free sep x && free sep y.
Proof.
  induction x as [|c x IH]; simpl; [reflexivity |].
  now rewrite IH, andb_assoc.
Qed.

Lemma normalizeSegments_snoc (segs : list string) (l : string) :
  ordinary l = true ->
  normalizeSegments (segs ++ [l]) = normalizeSegments segs ++ [l].
Proof.
  intros Hl. unfold normalizeSegments. rewrite fold_left_app. simpl.
  now apply normalizeStep_ordinary.
Qed.

Lemma join_snoc_app (stack : list string) (l rest : string) :
  Js.join "/" (stack ++ [(l ++ rest)%string]) =
  (Js.join "/" (stack ++ [l]) ++ rest)%string.
Proof.
  destruct stack as [|x stack]; [reflexivity |].
  rewrite !join_snoc by discriminate. rewrite append_assoc.
  reflexivity.
Qed.

Lemma ordinary_truthy (l : string) : ordinary l = true -> Js.Boolean l = true.
Proof. unfold ordinary. now intros [[? _]%andb_prop _]%andb_prop. Qed.

(** The segments of a path whose last segment is ordinary. *)
Lemma segments_last (dir l : string) :
  dir = "" \/ (exists x, dir = (x ++ "/")%string) ->
  free "/" l = true -> ordinary l = true ->
  List.filter Js.Boolean (Js.split "/" (dir ++ l)) =
  List.filter Js.Boolean (Js.split "/" dir) ++ [l].
Proof.
  intros Hd Hf Ho. rewrite filter_split_behind by assumption.
  rewrite (split_free "/" l) by assumption. simpl.
  now rewrite (ordinary_truthy l).
Qed.

(** A fragment behind an ordinary last segment stays behind it. *)
Lemma normalizePath_fragment (path fragment : string) :
  ordinary (lastSegment path) = true -> free "/" fragment = true ->
  normalizePath (path ++ String "#" fragment) =
  (normalizePath path ++ String "#" fragment)%string.
Proof.
  intros Ho Hf. destruct (path_decompose path) as (l & Hl & Hp & Hd).
  assert (lastSegment path = l) as El.
  { rewrite Hp. now apply lastSegment_decompose. }
  rewrite El in Ho. rewrite Hp at 1. rewrite Hp at 2.
  assert (ordinary (l ++ String "#" fragment) = true) as Ho'
    by now apply ordinary_app.
  assert (free "/" (l ++ String "#" fragment) = true) as Hl'.
  { rewrite free_app, Hl. simpl. exact Hf. }
  rewrite append_assoc. unfold normalizePath.
  rewrite !segments_last by assumption.
  rewrite !normalizeSegments_snoc by assumption.
  apply join_snoc_app.
Qed.

Lemma last_behind {A} (l1 l2 : list A) (d : A) :
  l2 <> [] -> List.last (l1 ++ l2) d = List.last l2 d.
Proof.
  intros Hne. induction l1 as [|x l1 IH]; [reflexivity |].
  cbn [app]. rewrite <- IH. cbn [List.last].
  destruct (l1 ++ l2) eqn:E; [|reflexivity].
  apply app_eq_nil in E as [_ ?]. congruence.
Qed.

Lemma lastSegment_behind (dir path : string) :
  dir = "" \/ (exists x, dir = (x ++ "/")%string) ->
  lastSegment (dir ++ path) = lastSegment path.
Proof.
  intros [-> | [x ->]]; [reflexivity |]. unfold lastSegment.
  rewrite append_assoc. change ("/" ++ path)%string with (String "/" path).
  rewrite split_app_sep. apply last_behind.
  destruct (split_cons "/" path) as (seg & segs & ->). discriminate.
Qed.

Lemma ordinary_nonempty (l : string) : ordinary l = true -> l <> "".
Proof. now destruct l. Qed.

Lemma lastSegment_nonempty (path : string) :
  ordinary (lastSegment path) = true -> path <> "".
Proof. intros Ho ->. discriminate. Qed.

(** X3: a reference with a fragment resolves to the resolved path of
    the reference, followed by the fragment; so a table-of-contents link
    into a document is matched, fragment ignored, with the path of that
    document, whatever the base path.  The reference has to name a
    document (its last segment is not empty, [.] or [..]): a bare
    [#fragment] resolves to the directory of the base followed by
    [/#fragment]. *)
Theorem resolveHref_keeps_fragment (basePath path fragment : string) :
  ordinary (lastSegment path) = true ->
  free "/" fragment = true ->
  resolveHref basePath (Some (path ++ String "#" fragment)%string) =
    (resolveHref basePath (Some path) ++ String "#" fragment)%string
  /\ PerChapter.stripFragment
       (resolveHref basePath (Some (path ++ String "#" fragment)%string)) =
     PerChapter.stripFragment (resolveHref basePath (Some path)).
Proof.
  intros Ho Hf.
  assert (resolveHref basePath (Some (path ++ String "#" fragment)%string) =
          (resolveHref basePath (Some path) ++ String "#" fragment)%string) as E.
  { pose proof (lastSegment_nonempty path Ho) as Hne.
    rewrite !resolveHref_some; [|assumption | destruct path; [congruence | discriminate]].
    rewrite startsWith_app by assumption.
    destruct (Js.startsWith path "/"); [now apply normalizePath_fragment |].
    rewrite <- append_assoc. apply normalizePath_fragment; [|assumption].
    destruct (path_decompose basePath) as (_ & _ & _ & Hd).
    now rewrite lastSegment_behind. }
  split; [exact E |]. rewrite E. apply stripFragment_app.
Qed.

Lemma resolveHref_keeps_fragment_witness :
  ordinary (lastSegment "text/ch3.xhtml") = true
  /\ free "/" "section2" = true
  /\ resolveHref "OEBPS/toc.ncx" (Some "text/ch3.xhtml#section2") =
       "OEBPS/text/ch3.xhtml#section2"
  /\ PerChapter.stripFragment
       (resolveHref "OEBPS/toc.ncx" (Some "text/ch3.xhtml#section2")) =
     "OEBPS/text/ch3.xhtml".
Proof.
  split; [reflexivity |]. split; [reflexivity |].
  exact (resolveHref_keeps_fragment "OEBPS/toc.ncx" "text/ch3.xhtml" "section2"
           eq_refl eq_refl).
Defined.

(** X4: every path is the text [dirOf] gives followed by its last
    segment; the directory is empty or ends with a slash and the last
    segment holds none. *)
Theorem dirOf_lastSegment (path : string) :
  path = (dirOf path ++ lastSegment path)%string
  /\ free "/" (lastSegment path) = true
  /\ (dirOf path = "" \/ exists x, dirOf path = (x ++ "/")%string).
Proof.
  destruct (path_decompose path) as (l & Hl & Hp & Hd).
  assert (lastSegment path = l) as ->.
  { rewrite Hp. now apply lastSegment_decompose. }
  auto.
Qed.

(** ** The library *)

Lemma find_split {A} (p : A -> bool) (l : list A) (x : A) :
  List.find p l = Some x ->
  exists l1 l2,
    l = l1 ++ x :: l2 /\ Forall (fun y => p y = false) l1 /\ p x = true.
Proof.
  induction l as [|y l IH]; [discriminate |]. simpl.
  destruct (p y) eqn:Ey.
  - intros [= ->]. exists [], l. auto.
  - intros (l1 & l2 & -> & H1 & Hx)%IH. exists (y :: l1), l2. auto.
Qed.

Lemma find_nowhere {A} (p : A -> bool) (l : list A) :
  List.find p l = None -> Forall (fun y => p y = false) l.
Proof.
  induction l as [|y l IH]; [constructor |]. simpl.
  destruct (p y) eqn:Ey; [discriminate | auto].
Qed.

Lemma find_middle {A} (p : A -> bool) (l1 l2 : list A) (x : A) :
  Forall (fun y => p y = false) l1 -> p x = true ->
  List.find p (l1 ++ x :: l2) = Some x.
Proof.
  intros H1 Hx. induction H1 as [|y l1 Hy _ IH]; simpl.
  - now rewrite Hx.
  - now rewrite Hy.
Qed.

Lemma find_map {A} (p : A -> bool) (f : A -> A) (l : list A) :
  (forall x, p (f x) = p x) ->
  List.find p (List.map f l) = option_map f (List.find p l).
Proof.
  intros Hf. induction l as [|y l IH]; [reflexivity |]. simpl.
  rewrite Hf. now destruct (p y).
Qed.

Section Library.

Context {Position Progress : Type} (noProgress : Progress).

Import UseLibrary.

Abbreviation Book := (@Book Position Progress).
Abbreviation Library := (@Library Position Progress).

Lemma findIndexFrom_none {A} (p : A -> bool) (l : list A) (i : Z) :
  Forall (fun y => p y = false) l -> findIndexFrom p l i = (-1)%Z.
Proof.
  intros Hl. revert i. induction Hl as [|y l Hy _ IH]; intros i; simpl.
  - reflexivity.
  - now rewrite Hy.
Qed.

Lemma findIndexFrom_middle {A} (p : A -> bool) (l1 l2 : list A) (x : A) (i : Z) :
  Forall (fun y => p y = false) l1 -> p x = true ->
  findIndexFrom p (l1 ++ x :: l2) i = (i + Z.of_nat (List.length l1))%Z.
Proof.
  intros H1 Hx. revert i. induction H1 as [|y l1 Hy _ IH]; intros i; simpl.
  - rewrite Hx. lia.
  - rewrite Hy, IH. lia.
Qed.

Lemma nth_error_middle {A} (l1 l2 : list A) (x : A) :
  List.nth_error (l1 ++ x :: l2) (List.length l1) = Some x.
Proof. induction l1; simpl; auto. Qed.

Lemma insert_middle {A} (l1 l2 : list A) (x y : A) :
  <[List.length l1 := y]> (l1 ++ x :: l2) = l1 ++ y :: l2.
Proof. induction l1 as [|z l1 IH]; simpl; [reflexivity | now rewrite IH]. Qed.

(** The first time a book is opened. *)
Lemma addBook_new (book : BookInfo) (now later : Z) (prev : Library) :
  findBook (infoPath book) prev = None ->
  addBook noProgress book now later prev =
  mkLibrary (created noProgress book now later :: books prev)
    (Some (infoPath book)).
Proof.
  intros Hf%find_nowhere. unfold addBook, findIndex.
  now rewrite findIndexFrom_none.
Qed.

(** A book that is opened again. *)
Lemma addBook_known (book : BookInfo) (now later : Z) (prev : Library)
  (l1 l2 : list Book) (b : Book) :
  books prev = l1 ++ b :: l2 ->
  Forall (fun y => String.eqb (path y) (infoPath book) = false) l1 ->
  String.eqb (path b) (infoPath book) = true ->
  addBook noProgress book now later prev =
  mkLibrary (l1 ++ refreshed b book now :: l2) (Some (infoPath book)).
Proof.
  intros E H1 Hb. unfold addBook, findIndex. rewrite E.
  rewrite findIndexFrom_middle by assumption.
  replace (0 + Z.of_nat (List.length l1) >=? 0)%Z with true
    by (symmetry; apply Z.geb_le; lia).
  rewrite Z.add_0_l, Nat2Z.id, nth_error_middle, insert_middle.
  reflexivity.
Qed.

Lemma find_other_path (q : string) (l1 l2 : list Book) (b b' : Book) :
  String.eqb (path b) q = false -> String.eqb (path b') q = false ->
  List.find (fun y => String.eqb (path y) q) (l1 ++ b' :: l2) =
  List.find (fun y => String.eqb (path y) q) (l1 ++ b :: l2).
Proof.
  intros Hb Hb'. induction l1 as [|y l1 IH]; simpl.
  - now rewrite Hb, Hb'.
  - now rewrite IH.
Qed.

Lemma eqb_other (p q r : string) :
  String.eqb r p = true -> q <> p -> String.eqb r q = false.
Proof.
  intros ->%String.eqb_eq Hne. apply String.eqb_neq. congruence.
Qed.

Lemma findBook_addBook_other (book : BookInfo) (now later : Z) (prev : Library)
  (q : string) :
  q <> infoPath book ->
  findBook q (addBook noProgress book now later prev) = findBook q prev.
Proof.
  intros Hne. destruct (findBook (infoPath book) prev) as [b|] eqn:Ef.
  - apply find_split in Ef as (l1 & l2 & E & H1 & Hb).
    rewrite (addBook_known book now later prev l1 l2 b) by assumption.
    unfold findBook. cbn [books]. rewrite E. apply find_other_path.
    + now apply (eqb_other (infoPath book)).
    + apply String.eqb_neq. cbn [refreshed path]. congruence.
  - rewrite addBook_new by assumption. unfold findBook. cbn [books List.find].
    replace (String.eqb (path (created noProgress book now later)) q) with false;
      [reflexivity |].
    symmetry. apply String.eqb_neq. cbn [created path]. congruence.
Qed.

Lemma findBook_addBook_known (book : BookInfo) (now later : Z) (prev : Library)
  (b : Book) :
  findBook (infoPath book) prev = Some b ->
  findBook (infoPath book) (addBook noProgress book now later prev) =
    Some (refreshed b book now)
  /\ pathsOf (addBook noProgress book now later prev) = pathsOf prev.
Proof.
  intros Ef. apply find_split in Ef as (l1 & l2 & E & H1 & Hb).
  rewrite (addBook_known book now later prev l1 l2 b) by assumption.
  unfold findBook, pathsOf. cbn [books]. rewrite E. split.
  - apply find_middle; [assumption |]. cbn [refreshed path].
    apply String.eqb_refl.
  - rewrite !List.map_app. cbn [List.map refreshed path].
    apply String.eqb_eq in Hb. now rewrite Hb.
Qed.

Lemma findBook_In (p : string) (lib : Library) (b : Book) :
  findBook p lib = Some b -> path b = p /\ In p (pathsOf lib).
Proof.
  intros [Hin Hp%String.eqb_eq]%List.find_some. split; [assumption |].
  unfold pathsOf. rewrite <- Hp. now apply List.in_map.
Qed.

Lemma findBook_not_In (p : string) (lib : Library) :
  findBook p lib = None -> ~ In p (pathsOf lib).
Proof.
  intros Hf (b & Hb & Hin)%List.in_map_iff.
  pose proof (List.find_none _ _ Hf b Hin) as Hn. simpl in Hn.
  rewrite Hb, String.eqb_refl in Hn. discriminate.
Qed.

(** X5: what [addBook] leaves in the library.  The record of every other
    path is untouched.  A book that was there keeps its place in the
    list, the time it was added, its progress and its reading position,
    takes the new title, author and cover, and gets the time of the call
    as [lastOpened]; a book that was not there is put in front of the
    others, with no progress and no position. *)
Theorem addBook_finds (book : BookInfo) (now later : Z) (prev : Library) :
  let next := addBook noProgress book now later prev in
  (forall q, q <> infoPath book -> findBook q next = findBook q prev)
  /\ lastRead next = Some (infoPath book)
  /\ match findBook (infoPath book) prev with
     | Some b =>
         findBook (infoPath book) next =
           Some (mkBook (infoPath book) (infoTitle book) (infoAuthor book)
                   (infoCover book) (addedAt b) now (progress b) (currentCfi b))
         /\ pathsOf next = pathsOf prev
     | None =>
         books next =
           mkBook (infoPath book) (infoTitle book) (infoAuthor book)
             (infoCover book) now later noProgress None :: books prev
     end.
Proof.
  cbv zeta. split; [intros q; apply findBook_addBook_other |].
  split; [reflexivity |].
  destruct (findBook (infoPath book) prev) as [b|] eqn:Ef.
  - now apply findBook_addBook_known.
  - now rewrite addBook_new.
Qed.

Lemma updated_path (p : string) (updates : Updates) (b : Book) :
  path (if String.eqb (path b) p then updated b updates else b) = path b.
Proof. now destruct (String.eqb (path b) p). Qed.

Lemma pathsOf_updateBook (p : string) (updates : Updates) (lib : Library) :
  pathsOf (updateBook p updates lib) = pathsOf lib.
Proof.
  unfold pathsOf, updateBook. cbn [books]. rewrite List.map_map.
  apply List.map_ext. intros b. apply updated_path.
Qed.

Lemma findBook_updateBook (p q : string) (updates : Updates) (lib : Library) :
  findBook q (updateBook p updates lib) =
  if String.eqb q p then option_map (fun b => updated b updates) (findBook p lib)
  else findBook q lib.
Proof.
  unfold findBook, updateBook. cbn [books].
  rewrite (find_map (fun b => String.eqb (path b) q)
             (fun b => if String.eqb (path b) p then updated b updates else b))
    by (intros b; now rewrite updated_path).
  destruct (String.eqb q p) eqn:E.
  - apply String.eqb_eq in E. subst q.
    destruct (List.find _ (books lib)) as [b|] eqn:Ef; [|reflexivity].
    apply List.find_some in Ef as [_ Hb]. simpl in Hb. simpl. now rewrite Hb.
  - destruct (List.find _ (books lib)) as [b|] eqn:Ef; [|reflexivity].
    apply List.find_some in Ef as [_ Hb]. simpl in Hb. simpl.
    apply String.eqb_eq in Hb. subst q. now rewrite E.
Qed.

Lemma updateBook_absent (p : string) (updates : Updates) (lib : Library) :
  findBook p lib = None -> updateBook p updates lib = lib.
Proof.
  intros Hf%find_nowhere. unfold updateBook. destruct lib as [bs lr].
  cbn [books lastRead] in *. f_equal.
  induction Hf as [|b bs Hb _ IH]; [reflexivity |]. simpl.
  now rewrite Hb, IH.
Qed.

(** X6: what [updateBook] leaves in the library.  The book of the given
    path, if there is one, gets the new position and progress and keeps
    everything else; every other record, the order of the books and
    [lastRead] are untouched; and for a path that is not in the library
    the library is left exactly as it was (no record is created). *)
Theorem updateBook_finds (p : string) (updates : Updates) (lib : Library) :
  let next := updateBook p updates lib in
  (forall q, q <> p -> findBook q next = findBook q lib)
  /\ match findBook p lib with
     | Some b =>
         findBook p next =
           Some (mkBook (path b) (title b) (author b) (cover b) (addedAt b)
                   (lastOpened b) (newProgress updates) (newCfi updates))
     | None => next = lib
     end
  /\ pathsOf next = pathsOf lib
  /\ lastRead next = lastRead lib.
Proof.
  cbv zeta. split; [|split; [|split]].
  - intros q Hq. rewrite findBook_updateBook.
    apply String.eqb_neq in Hq. now rewrite Hq.
  - destruct (findBook p lib) as [b|] eqn:Ef.
    + now rewrite findBook_updateBook, String.eqb_refl, Ef.
    + now apply updateBook_absent.
  - apply pathsOf_updateBook.
  - reflexivity.
Qed.

Lemma findBook_removeBook (p q : string) (lib : Library) :
  findBook q (removeBook p lib) =
  if String.eqb q p then None else findBook q lib.
Proof.
  unfold findBook, removeBook. cbn [books].
  induction (books lib) as [|b bs IH].
  - now destruct (String.eqb q p).
  - cbn [List.filter List.find].
    destruct (String.eqb (path b) p) eqn:Ep; cbn [negb].
    + rewrite IH. destruct (String.eqb q p) eqn:Eq; [reflexivity |].
      apply String.eqb_eq in Ep. apply String.eqb_neq in Eq.
      replace (String.eqb (path b) q) with false; [reflexivity |].
      symmetry. apply String.eqb_neq. congruence.
    + cbn [List.find]. rewrite IH.
      destruct (String.eqb (path b) q) eqn:Eb; [|reflexivity].
      apply String.eqb_eq in Eb. subst q. now rewrite Ep.
Qed.

Lemma lastRead_removeBook (p : string) (lib : Library) :
  lastRead (removeBook p lib) <> Some p
  /\ forall q, q <> p ->
     (lastRead (removeBook p lib) = Some q <-> lastRead lib = Some q).
Proof.
  unfold removeBook, isLastRead. cbn [lastRead].
  destruct (lastRead lib) as [r|]; [|split; [discriminate | tauto]].
  destruct (String.eqb r p) eqn:E.
  - apply String.eqb_eq in E. subst r. split; [discriminate |].
    intros q Hq. split; [discriminate | congruence].
  - apply String.eqb_neq in E. split; [congruence | tauto].
Qed.

(** X7: [removeBook] forgets the book of the given path and nothing
    else: no record of that path is left, [lastRead] no longer names it,
    and for every other path both the record and its being the last read
    are as before. *)
Theorem removeBook_forgets (p : string) (lib : Library) :
  let next := removeBook p lib in
  findBook p next = None
  /\ ~ In p (pathsOf next)
  /\ lastRead next <> Some p
  /\ forall q, q <> p ->
       findBook q next = findBook q lib
       /\ (lastRead next = Some q <-> lastRead lib = Some q).
Proof.
  cbv zeta.
  assert (findBook p (removeBook p lib) = None) as Hf
    by now rewrite findBook_removeBook, String.eqb_refl.
  split; [exact Hf |]. split; [now apply findBook_not_In |].
  destruct (lastRead_removeBook p lib) as [Hl Hq]. split; [exact Hl |].
  intros q Hne. split; [|now apply Hq].
  rewrite findBook_removeBook. apply String.eqb_neq in Hne. now rewrite Hne.
Qed.

Lemma filter_all {A} (p : A -> bool) (l : list A) :
  Forall (fun y => p y = true) l -> List.filter p l = l.
Proof.
  induction 1 as [|y l Hy _ IH]; [reflexivity |]. simpl. now rewrite Hy, IH.
Qed.

(** X8: adding a book that was not in the library and removing it again
    gives back the books that were there, in their order. *)
Theorem removeBook_undoes_addBook (book : BookInfo) (now later : Z)
  (prev : Library) :
  findBook (infoPath book) prev = None ->
  books (removeBook (infoPath book) (addBook noProgress book now later prev)) =
  books prev.
Proof.
  intros Hf. rewrite addBook_new by assumption. unfold removeBook.
  cbn [books List.filter created path]. rewrite String.eqb_refl. cbn [negb].
  apply filter_all. apply find_nowhere in Hf.
  eapply List.Forall_impl; [|exact Hf]. simpl. now intros b ->.
Qed.

Lemma NoDup_filter_paths (p : string) (bs : list Book) :
  List.NoDup (List.map path bs) ->
  List.NoDup (List.map path
           (List.filter (fun b => negb (String.eqb (path b) p)) bs)).
Proof.
  induction bs as [|b bs IH]; [auto |]. cbn [List.map List.filter].
  intros [Hn Hd]%List.NoDup_cons_iff.
  destruct (String.eqb (path b) p); cbn [negb]; [auto |].
  cbn [List.map]. apply List.NoDup_cons; [|auto].
  intros (b' & Hb' & [Hin _]%List.filter_In)%List.in_map_iff.
  apply Hn. rewrite <- Hb'. now apply List.in_map.
Qed.

Lemma In_filter_paths (p q : string) (bs : list Book) :
  q <> p -> In q (List.map path bs) ->
  In q (List.map path
          (List.filter (fun b => negb (String.eqb (path b) p)) bs)).
Proof.
  intros Hne (b & Hb & Hin)%List.in_map_iff. apply List.in_map_iff.
  exists b. split; [assumption |]. apply List.filter_In. split; [assumption |].
  apply negb_true_iff, String.eqb_neq. congruence.
Qed.

Lemma wellFormed_addBook (book : BookInfo) (now later : Z) (prev : Library) :
  wellFormed prev -> wellFormed (addBook noProgress book now later prev).
Proof.
  intros [Hd Hl]. destruct (findBook (infoPath book) prev) as [b|] eqn:Ef.
  - destruct (findBook_addBook_known book now later prev b Ef) as [Hb Hp].
    split; [now rewrite Hp |]. intros p [= <-]. rewrite Hp.
    now apply (findBook_In _ _ b).
  - rewrite addBook_new by assumption. split.
    + unfold pathsOf. cbn [books List.map created path].
      apply List.NoDup_cons; [now apply findBook_not_In | exact Hd].
    + intros p [= <-]. now left.
Qed.

Lemma wellFormed_updateBook (p : string) (updates : Updates) (lib : Library) :
  wellFormed lib -> wellFormed (updateBook p updates lib).
Proof.
  intros [Hd Hl]. unfold wellFormed. rewrite pathsOf_updateBook. now split.
Qed.

Lemma wellFormed_removeBook (p : string) (lib : Library) :
  wellFormed lib -> wellFormed (removeBook p lib).
Proof.
  intros [Hd Hl]. split; [now apply NoDup_filter_paths |].
  intros q Hq. destruct (String.eqb_spec q p) as [-> | Hne].
  - now destruct (lastRead_removeBook p lib).
  - apply In_filter_paths; [assumption |]. apply Hl.
    now apply (lastRead_removeBook p lib).
Qed.

Lemma handleUpdateProgress_cases (current : option string)
  (cfi : option Position) (pct : Progress) (lib : Library) :
  handleUpdateProgress current cfi pct lib = lib
  \/ exists p, current = Some p /\ p <> ""
       /\ handleUpdateProgress current cfi pct lib =
          updateBook p (mkUpdates cfi pct) lib.
Proof.
  destruct current as [[|c p]|]; [now left | | now left].
  right. exists (String c p). repeat split. discriminate.
Qed.

(** X9: the library stays well formed.  If the books have distinct paths
    and [lastRead], when set, is the path of one of them, the same holds
    after [addBook], [updateBook], [removeBook] and the progress report
    of the application, whatever their arguments; and it holds of the
    empty library the hook starts from. *)
Theorem library_stays_wellFormed (lib : Library) :
  wellFormed lib ->
  (forall book now later, wellFormed (addBook noProgress book now later lib))
  /\ (forall p updates, wellFormed (updateBook p updates lib))
  /\ (forall p, wellFormed (removeBook p lib))
  /\ (forall current cfi pct,
        wellFormed (handleUpdateProgress current cfi pct lib)).
Proof.
  intros Hw. split; [|split; [|split]].
  - intros. now apply wellFormed_addBook.
  - intros. now apply wellFormed_updateBook.
  - intros. now apply wellFormed_removeBook.
  - intros current cfi pct.
    destruct (handleUpdateProgress_cases current cfi pct lib)
      as [-> | (p & _ & _ & ->)]; [assumption |].
    now apply wellFormed_updateBook.
Qed.

(** X10: the reading position survives closing and reopening.  Once the
    application has reported a position and a progress for the open
    book, opening the same file again (which calls [addBook] with the
    metadata read from the file) leaves a record that still carries that
    position and that progress, and the time the book was first added. *)
Theorem position_survives_reopening (book : BookInfo) (now later : Z)
  (cfi : option Position) (pct : Progress) (lib : Library) (b : Book) :
  infoPath book <> "" ->
  findBook (infoPath book) lib = Some b ->
  exists b',
    findBook (infoPath book)
      (addBook noProgress book now later
         (handleUpdateProgress (Some (infoPath book)) cfi pct lib)) = Some b'
    /\ currentCfi b' = cfi /\ progress b' = pct /\ addedAt b' = addedAt b
    /\ lastOpened b' = now.
Proof.
  intros Hne Hf.
  assert (handleUpdateProgress (Some (infoPath book)) cfi pct lib =
          updateBook (infoPath book) (mkUpdates cfi pct) lib) as E
    by (destruct (infoPath book); [congruence | reflexivity]).
  rewrite E.
  assert (findBook (infoPath book)
            (updateBook (infoPath book) (mkUpdates cfi pct) lib) =
          Some (updated b (mkUpdates cfi pct))) as Hu
    by now rewrite findBook_updateBook, String.eqb_refl, Hf.
  destruct (findBook_addBook_known book now later _ _ Hu) as [-> _].
  eexists. split; [reflexivity |]. repeat split.
Qed.

End Library.

Lemma library_stays_wellFormed_witness :
  @UseLibrary.wellFormed Z Z UseLibrary.emptyLibrary
  /\ @UseLibrary.wellFormed Z Z
       (UseLibrary.removeBook "/books/b.epub"
          (UseLibrary.addBook 0%Z
             (UseLibrary.mkBookInfo "/books/a.epub" "A" "" None) 10 11
             UseLibrary.emptyLibrary)).
Proof.
  assert (@UseLibrary.wellFormed Z Z UseLibrary.emptyLibrary) as Hw.
  { split; [constructor | discriminate]. }
  split; [exact Hw |].
  apply (library_stays_wellFormed 0%Z), (library_stays_wellFormed 0%Z), Hw.
Defined.

Lemma removeBook_undoes_addBook_witness :
  UseLibrary.findBook "/books/b.epub"
    (UseLibrary.addBook 0%Z (UseLibrary.mkBookInfo "/books/a.epub" "A" "" None)
       10 11 (@UseLibrary.emptyLibrary Z Z)) = None
  /\ UseLibrary.books
       (UseLibrary.removeBook "/books/b.epub"
          (UseLibrary.addBook 0%Z
             (UseLibrary.mkBookInfo "/books/b.epub" "B" "" None) 20 21
             (UseLibrary.addBook 0%Z
                (UseLibrary.mkBookInfo "/books/a.epub" "A" "" None) 10 11
                (@UseLibrary.emptyLibrary Z Z)))) =
     [UseLibrary.mkBook "/books/a.epub" "A" "" None 10 11 0%Z None].
Proof.
  split; [reflexivity |].
  exact (removeBook_undoes_addBook 0%Z
           (UseLibrary.mkBookInfo "/books/b.epub" "B" "" None) 20 21
           (UseLibrary.addBook 0%Z
              (UseLibrary.mkBookInfo "/books/a.epub" "A" "" None) 10 11
              (@UseLibrary.emptyLibrary Z Z)) eq_refl).
Defined.

Lemma position_survives_reopening_witness :
  exists b',
    UseLibrary.findBook "/books/a.epub"
      (UseLibrary.addBook 0%Z
         (UseLibrary.mkBookInfo "/books/a.epub" "A (2nd ed.)" "" None) 30 31
         (UseLibrary.handleUpdateProgress (Some "/books/a.epub") (Some 4%Z) 50%Z
            (UseLibrary.addBook 0%Z
               (UseLibrary.mkBookInfo "/books/a.epub" "A" "" None) 10 11
               (@UseLibrary.emptyLibrary Z Z)))) = Some b'
    /\ UseLibrary.currentCfi b' = Some 4%Z /\ UseLibrary.progress b' = 50%Z
    /\ UseLibrary.addedAt b' = 10%Z /\ UseLibrary.lastOpened b' = 30%Z.
Proof.
  refine (position_survives_reopening 0%Z
            (UseLibrary.mkBookInfo "/books/a.epub" "A (2nd ed.)" "" None) 30 31
            (Some 4%Z) 50%Z
            (UseLibrary.addBook 0%Z
               (UseLibrary.mkBookInfo "/books/a.epub" "A" "" None) 10 11
               (@UseLibrary.emptyLibrary Z Z))
            (UseLibrary.mkBook "/books/a.epub" "A" "" None 10 11 0%Z None)
            _ eq_refl).
  discriminate.
Defined.

(** ** The spine and the manifest *)

Lemma Sublist_nil_l {A} (l : list A) : Sublist [] l.
Proof. induction l; constructor; assumption. Qed.

Lemma Sublist_In {A} (l1 l2 : list A) (x : A) :
  Sublist l1 l2 -> In x l1 -> In x l2.
Proof.
  induction 1 as [|y l1 l2 _ IH|y l1 l2 _ IH]; simpl; [tauto | tauto |].
  intros [-> | Hin]; auto.
Qed.

Lemma Sublist_NoDup {A} (l1 l2 : list A) :
  Sublist l1 l2 -> List.NoDup l2 -> List.NoDup l1.
Proof.
  induction 1 as [|y l1 l2 Hs IH|y l1 l2 Hs IH].
  - auto.
  - intros [_ Hd]%List.NoDup_cons_iff. auto.
  - intros [Hn Hd]%List.NoDup_cons_iff. apply List.NoDup_cons; [|auto].
    intros Hin. apply Hn. eapply Sublist_In; eassumption.
Qed.

Section Package.

Context `{Host}.

Lemma spine_fold_ids (manifest : Obj.t) (idrefs : list (option string))
  (spine : list SpineItem) :
  exists taken,
    Sublist taken idrefs
    /\ List.map id (fold_left (spineStep manifest) idrefs spine) =
       List.map id spine ++ taken.
Proof.
  revert spine. induction idrefs as [|idref idrefs IH]; intros spine.
  - exists []. split; [constructor | simpl; now rewrite app_nil_r].
  - cbn [fold_left]. unfold spineStep at 2.
    destruct (Obj.truthy (Obj.get manifest (keyOfNullable idref))).
    + destruct (IH (Js.push spine
                      (mkSpineItem idref (Obj.get manifest (keyOfNullable idref)))))
        as (taken & Hs & ->).
      exists (idref :: taken). split; [now constructor |].
      unfold Js.push. rewrite List.map_app. cbn [List.map id].
      now rewrite <- app_assoc.
    + destruct (IH spine) as (taken & Hs & ->).
      exists taken. split; [now constructor | reflexivity].
Qed.

Lemma spine_fold_entries (manifest : Obj.t) (P : SpineItem -> Prop)
  (idrefs : list (option string)) (spine : list SpineItem) :
  (forall idref,
     Obj.truthy (Obj.get manifest (keyOfNullable idref)) = true ->
     P (mkSpineItem idref (Obj.get manifest (keyOfNullable idref)))) ->
  Forall P spine ->
  Forall P (fold_left (spineStep manifest) idrefs spine).
Proof.
  intros HP. revert spine.
  induction idrefs as [|idref idrefs IH]; intros spine Hs; [exact Hs |].
  cbn [fold_left]. apply IH. unfold spineStep.
  destruct (Obj.truthy _) eqn:Et; [|exact Hs].
  unfold Js.push. apply Forall_app. split; [exact Hs |].
  constructor; [now apply HP | constructor].
Qed.

(** X11: the spine follows the [itemref] elements.  Whatever the
    manifest holds, the ids of the spine are ids of [itemref] elements of
    the package document, in document order, each element giving at most
    one entry (nothing is reordered, repeated or made up); and every
    entry carries what [manifest[idref]] evaluates to, which is truthy. *)
Theorem spine_follows_itemrefs (manifest : Obj.t) (opfDoc : Node) :
  Sublist (List.map id (buildSpine manifest opfDoc)) (idrefsOf opfDoc)
  /\ Forall
       (fun item =>
          spread item = Obj.get manifest (keyOfNullable (id item))
          /\ Obj.truthy (spread item) = true)
       (buildSpine manifest opfDoc).
Proof.
  rewrite buildSpine_fold. fold (idrefsOf opfDoc). split.
  - destruct (spine_fold_ids manifest (idrefsOf opfDoc) []) as (taken & Hs & ->).
    exact Hs.
  - apply spine_fold_entries; [|constructor]. intros idref Ht. now split.
Qed.

Lemma lookup_store_everyItem (P : ManifestItem -> Prop)
  (props : list (string * ManifestItem)) (key : string) (v : ManifestItem) :
  P v -> Forall (fun kv => P (snd kv)) props ->
  Forall (fun kv => P (snd kv)) (Obj.store props key v).
Proof.
  intros Hv. induction 1 as [|[k w] props Hw Hrest IH]; simpl.
  - repeat constructor. exact Hv.
  - destruct (String.eqb k key); constructor; assumption.
Qed.

Lemma everyItem_set (P : ManifestItem -> Prop) (o : Obj.t) (key : string)
  (v : ManifestItem) :
  P v -> everyItem P o -> everyItem P (Obj.set o key v).
Proof.
  intros Hv [Hown Hproto]. unfold Obj.set.
  destruct (String.eqb key "__proto__"); split; cbn [Obj.own Obj.proto].
  - exact Hown.
  - now intros p [= <-].
  - now apply lookup_store_everyItem.
  - exact Hproto.
Qed.

Lemma everyItem_lookup (P : ManifestItem -> Prop)
  (props : list (string * ManifestItem)) (key : string) (m : ManifestItem) :
  Forall (fun kv => P (snd kv)) props -> Obj.lookup props key = Some m -> P m.
Proof.
  induction 1 as [|[k w] props Hw _ IH]; simpl; [discriminate |].
  destruct (String.eqb k key); [now intros [= <-] | exact IH].
Qed.

Lemma fromItem_no_item (p : ManifestItem) (key : string) (m : ManifestItem) :
  Obj.fromItem p key <> Some (Obj.Item m).
Proof.
  unfold Obj.fromItem.
  repeat match goal with
         | |- context [if ?b then _ else _] => destruct b
         end; try discriminate.
  destruct (href p); discriminate.
Qed.

(** An item record read from a manifest object is one it holds. *)
Lemma everyItem_get (P : ManifestItem -> Prop) (o : Obj.t) (key : string)
  (m : ManifestItem) :
  everyItem P o -> Obj.get o key = Obj.Item m -> P m.
Proof.
  intros [Hown Hproto]. unfold Obj.get.
  destruct (Obj.lookup (Obj.own o) key) as [m'|] eqn:El.
  - intros [= <-]. eapply everyItem_lookup; eassumption.
  - destruct (Obj.proto o) as [p|].
    + destruct (Obj.fromItem p key) as [v|] eqn:Ef.
      * intros ->. now apply fromItem_no_item in Ef.
      * unfold Obj.fromObjectPrototype.
        destruct (String.eqb key "__proto__"); [intros [= <-]; now apply Hproto |].
        destruct (existsb _ _); discriminate.
    + unfold Obj.fromObjectPrototype.
      destruct (String.eqb key "__proto__"); [discriminate |].
      destruct (existsb _ _); discriminate.
Qed.

Lemma fold_manifest_everyItem (P : ManifestItem -> Prop) (opfPath : string)
  (items : list Node) (o : Obj.t) :
  Forall (fun item => P (manifestItem opfPath item)) items ->
  everyItem P o ->
  everyItem P
    (fold_left
       (fun manifest item =>
          let id := getAttribute (attributesOf item) "id" in
          Obj.set manifest (keyOfNullable id) (manifestItem opfPath item))
       items o).
Proof.
  intros Hitems. revert o.
  induction Hitems as [|item items Hitem _ IH]; intros o Ho; [exact Ho |].
  cbn [fold_left]. apply IH. now apply everyItem_set.
Qed.

Lemma buildManifest_declared (opfPath : string) (opfDoc : Node) :
  everyItem (declaredItem opfPath opfDoc) (buildManifest opfPath opfDoc).
Proof.
  unfold buildManifest. apply fold_manifest_everyItem.
  - apply List.Forall_forall. intros item Hin. exists item. auto.
  - split; [constructor | discriminate].
Qed.

(** X12: every path of the spine comes from the manifest and is in
    normal form.  A spine entry of a parsed package that has a
    [fullPath] owes it to an [item] element of the manifest: it is the
    [href] of that element resolved against the path of the package
    document, hence a path without empty, [.] or [..] segments. *)
Theorem spine_paths_declared (opfPath : string) (opfDoc : Node) :
  Forall
    (fun entry =>
       forall path, itemFullPath entry = Some path ->
       normalForm path
       /\ exists item,
            In item (querySelectorAllBelow "manifest" "item" opfDoc)
            /\ path = resolveHref opfPath (getAttribute (attributesOf item) "href")
            /\ itemMediaType entry =
               Some (orEmpty (getAttribute (attributesOf item) "media-type")))
    (buildSpine (buildManifest opfPath opfDoc) opfDoc).
Proof.
  rewrite buildSpine_fold. apply spine_fold_entries; [|constructor].
  intros idref _ path. unfold itemFullPath, itemMediaType. cbn [spread].
  destruct (Obj.get _ _) as [| | |m|] eqn:Eg; try discriminate.
  intros [= <-].
  destruct (everyItem_get _ _ _ _ (buildManifest_declared opfPath opfDoc) Eg)
    as (item & Hin & ->).
  cbn [manifestItem fullPath mediaType].
  split; [apply resolveHref_normalForm | eauto].
Qed.

(** ** The table of contents *)

Lemma parseNcxPoint_hrefs (ncxPath : string) (np : Node) :
  Forall (fun t => normalForm (Nav.href t))
    (flattenItem (parseNcxPoint ncxPath np)).
Proof.
  induction np as [ns name attrs cs IH | d] using Node_ind.
  - cbn [parseNcxPoint flattenItem]. constructor.
    + cbn [Nav.href]. apply resolveHref_normalForm.
    + induction IH as [|c cs Hc _ IHcs]; [constructor |].
      cbn [flat_map]. rewrite flat_map_app. apply Forall_app. split; [|exact IHcs].
      destruct (named "navPoint" c); [|constructor].
      cbn [flat_map]. now rewrite app_nil_r.
  - constructor; [|constructor]. cbn [Nav.href]. apply resolveHref_normalForm.
Qed.

Lemma parseNavList_hrefs (navPath : string) (ol : Node) :
  Forall (fun t => normalForm (Nav.href t))
    (entriesOf (parseNavList navPath ol)).
Proof.
  unfold entriesOf.
  enough (Hboth :
            Forall (fun t => normalForm (Nav.href t))
              (flat_map flattenItem (parseNavList navPath ol))
            /\ Forall
                 (fun c =>
                    Forall (fun t => normalForm (Nav.href t))
                      (flat_map flattenItem (parseNavList navPath c)))
                 (children ol)) by apply Hboth.
  induction ol as [ns name attrs lis IH | d] using Node_ind;
    [|split; constructor].
  split; [|eapply List.Forall_impl; [|exact IH]; now intros c [Hc _]].
  cbn [parseNavList].
  induction IH as [|li lis [_ Hli] _ IHlis]; [constructor |].
  cbn [flat_map]. rewrite flat_map_app. apply Forall_app. split; [|exact IHlis].
  destruct li as [liNs liName liAttrs cs | d]; [|constructor].
  destruct (liName =? "li")%string; [|constructor].
  destruct (List.find (named "a") cs) as [a|]; [|constructor].
  cbn [flat_map flattenItem]. rewrite app_nil_r. constructor.
  - cbn [Nav.href]. apply resolveHref_normalForm.
  - rewrite onScopeChild_find.
    destruct (List.find (named "ol") cs) as [sub|] eqn:Hfind; [|constructor].
    apply List.find_some in Hfind as [Hin _]. cbn [children] in Hli.
    exact (proj1 (List.Forall_forall _ _) Hli sub Hin).
Qed.

Lemma tocFromNcx_hrefs (zip : JSZip) (ncxItem : ManifestItem) :
  Forall (fun t => normalForm (Nav.href t))
    (entriesOf (tryCatch (tocFromNcx zip ncxItem) [])).
Proof.
  unfold tocFromNcx. destruct (readText zip (fullPath ncxItem)) as [raw|];
    [|constructor].
  cbn [bind]. destruct (nonEmpty raw); [|constructor].
  cbn [tryCatch]. unfold parseNcxPoints, entriesOf.
  induction (querySelectorAllChildOf _ _ _) as [|np points IH]; [constructor |].
  cbn [List.map flat_map]. apply Forall_app. split; [|exact IH].
  apply parseNcxPoint_hrefs.
Qed.

Lemma tocFromNav_hrefs (zip : JSZip) (navItem : ManifestItem) :
  Forall (fun t => normalForm (Nav.href t))
    (entriesOf (tryCatch (tocFromNav zip navItem) [])).
Proof.
  unfold tocFromNav. destruct (readText zip (fullPath navItem)) as [raw|];
    [|constructor].
  cbn [bind]. destruct (nonEmpty raw); [|constructor].
  destruct (match querySelector _ _ with Some el => Some el | None => _ end)
    as [navEl|]; [|constructor].
  cbn [tryCatch]. unfold parseNavOl.
  destruct (querySelectorIn _ _); [apply parseNavList_hrefs | constructor].
Qed.

(** X13: every target of the table of contents is in normal form.
    Whatever the archive and the manifest, each entry of the table of
    contents that [parseToc] returns, at any depth, has an [href] that is
    the empty string or a path without empty, [.] or [..] segments
    (possibly followed by a fragment in its last segment). *)
Theorem toc_hrefs_normal (zip : JSZip) (manifest : Obj.t) :
  Forall (fun t => normalForm (Nav.href t)) (entriesOf (parseToc zip manifest)).
Proof.
  unfold parseToc.
  assert (Forall (fun t => normalForm (Nav.href t))
            (entriesOf
               match navItemOf manifest with
               | Some navItem => tryCatch (tocFromNav zip navItem) []
               | None => []
               end)) as Hnav
    by (destruct (navItemOf manifest); [apply tocFromNav_hrefs | constructor]).
  destruct (ncxItemOf manifest) as [ncxItem|]; [|exact Hnav].
  pose proof (tocFromNcx_hrefs zip ncxItem) as Hncx.
  destruct (tryCatch (tocFromNcx zip ncxItem) []); [exact Hnav | exact Hncx].
Qed.

End Package.

(** ** The sections of the whole book *)

Lemma to_uint_nonnil (n : nat) : Nat.to_uint n <> Decimal.Nil.
Proof.
  rewrite <- (DecimalNat.Unsigned.of_to n) at 1.
  rewrite DecimalNat.Unsigned.to_of.
  apply DecimalFacts.unorm_nonnil.
Qed.

Lemma sectionName_inj (i j : nat) :
  WholeBook.sectionName i = WholeBook.sectionName j -> i = j.
Proof.
  unfold WholeBook.sectionName. intros E. simpl in E. injection E as E.
  apply DecimalNat.Unsigned.to_uint_inj.
  apply (f_equal NilZero.uint_of_string) in E.
  rewrite !NilZero.usu in E by apply to_uint_nonnil. congruence.
Qed.

Lemma sectionNames_NoDup (i n : nat) :
  List.NoDup (List.map WholeBook.sectionName (List.seq i n)).
Proof.
  apply List.NoDup_map_NoDup_ForallPairs; [|apply List.seq_NoDup].
  intros x y _ _. apply sectionName_inj.
Qed.

Section Sections.

Context `{Host}.

(** What the loop of [loadEntireBook] adds to the sections it starts
    with. *)
Lemma loadSections_adds (zip : JSZip) (items : list SpineItem) (i : nat)
  (sections result : list WholeBook.BookSection) :
  WholeBook.loadSections zip items i sections = Return result ->
  exists added,
    result = sections ++ added
    /\ Sublist (List.map WholeBook.sectionId added)
         (List.map WholeBook.sectionName (List.seq i (List.length items)))
    /\ Forall
         (fun s =>
            exists k item,
              List.nth_error items k = Some item
              /\ WholeBook.sectionId s = WholeBook.sectionName (i + k)
              /\ WholeBook.sectionPath s = itemFullPath item
              /\ rendered zip item (WholeBook.html s))
         added.
Proof.
  revert i sections.
  induction items as [|item items IH]; intros i sections.
  - intros [= <-]. exists []. rewrite app_nil_r.
    repeat split; constructor.
  - cbn [WholeBook.loadSections]. intros Hload.
    assert (forall added,
              Sublist (List.map WholeBook.sectionId added)
                (List.map WholeBook.sectionName (List.seq (S i) (List.length items))) ->
              Forall
                (fun s =>
                   exists k item',
                     List.nth_error items k = Some item'
                     /\ WholeBook.sectionId s = WholeBook.sectionName (S i + k)
                     /\ WholeBook.sectionPath s = itemFullPath item'
                     /\ rendered zip item' (WholeBook.html s))
                added ->
              Sublist (List.map WholeBook.sectionId added)
                (List.map WholeBook.sectionName
                   (List.seq i (List.length (item :: items))))
              /\ Forall
                   (fun s =>
                      exists k item',
                        List.nth_error (item :: items) k = Some item'
                        /\ WholeBook.sectionId s = WholeBook.sectionName (i + k)
                        /\ WholeBook.sectionPath s = itemFullPath item'
                        /\ rendered zip item' (WholeBook.html s))
                   added) as Hskip.
    { intros added Hs Hall. split; [now constructor |].
      eapply List.Forall_impl; [|exact Hall].
      intros s (k & item' & Hk & Hid & Hp & Hr).
      exists (S k), item'. rewrite Nat.add_succ_r. auto. }
    destruct (WholeBook.isContentDocument (itemMediaType item)) eqn:Ec.
    + destruct (loadSpineItem zip item) as [html|message] eqn:El;
        [|discriminate].
      cbn [bind] in Hload. destruct (Js.Boolean (trim html)) eqn:Eb.
      * apply IH in Hload as (added & -> & Hs & Hall).
        exists (WholeBook.mkSection (WholeBook.sectionName i) html
                  (itemFullPath item) :: added).
        unfold Js.push. rewrite <- app_assoc. split; [reflexivity |].
        destruct (Hskip added Hs Hall) as [_ Hall']. split.
        -- cbn [List.map List.length List.seq WholeBook.sectionId].
           now constructor.
        -- constructor; [|exact Hall'].
           exists 0%nat, item. rewrite Nat.add_0_r.
           cbn [List.nth_error WholeBook.sectionId WholeBook.sectionPath
                  WholeBook.html].
           repeat split; assumption.
      * apply IH in Hload as (added & -> & Hs & Hall).
        exists added. split; [reflexivity | now apply Hskip].
    + apply IH in Hload as (added & -> & Hs & Hall).
      exists added. split; [reflexivity | now apply Hskip].
Qed.

Lemma loadEntireBook_inv (buffer : list Byte.byte) (book : WholeBook.Book) :
  WholeBook.loadEntireBook buffer = Return book ->
  exists zip structure,
    loadAsync buffer = Return zip
    /\ WholeBook.parseStructure zip = Return structure
    /\ WholeBook.loadSections zip (WholeBook.spine structure) 0 [] =
       Return (WholeBook.bookSections book)
    /\ WholeBook.bookToc book = WholeBook.toc structure.
Proof.
  unfold WholeBook.loadEntireBook.
  destruct (loadAsync buffer) as [zip|] eqn:Hzip; [|discriminate]. cbn [bind].
  destruct (WholeBook.parseStructure zip) as [structure|] eqn:Hs;
    [|discriminate].
  cbn [bind].
  destruct (WholeBook.loadSections zip (WholeBook.spine structure) 0 [])
    as [sections|] eqn:Hload; [|discriminate].
  cbn [bind]. intros [= <-]. exists zip, structure. auto.
Qed.

(** X14: the sections of a loaded book follow its spine.  Each section
    stands for a spine entry that is a content document whose markup,
    normalised, is not blank: it carries that markup and the path of the
    entry, and its id is [sec-k] for the position [k] of the entry in
    the spine; the sections are in the order of the spine, at most one
    for each position. *)
Theorem sections_follow_spine (buffer : list Byte.byte) (book : WholeBook.Book) :
  WholeBook.loadEntireBook buffer = Return book ->
  exists zip structure,
    loadAsync buffer = Return zip
    /\ WholeBook.parseStructure zip = Return structure
    /\ Sublist (List.map WholeBook.sectionId (WholeBook.bookSections book))
         (List.map WholeBook.sectionName
            (List.seq 0 (List.length (WholeBook.spine structure))))
    /\ Forall
         (fun s =>
            exists k item,
              List.nth_error (WholeBook.spine structure) k = Some item
              /\ WholeBook.sectionId s = WholeBook.sectionName k
              /\ WholeBook.sectionPath s = itemFullPath item
              /\ rendered zip item (WholeBook.html s))
         (WholeBook.bookSections book).
Proof.
  intros (zip & structure & Hzip & Hs & Hload & _)%loadEntireBook_inv.
  exists zip, structure. split; [exact Hzip |]. split; [exact Hs |].
  apply loadSections_adds in Hload as (added & -> & Hsub & Hall).
  auto.
Qed.

(** X15: the ids given to the sections of a loaded book ([sec-k] for
    the positions [k] of the spine) are pairwise distinct.  This is about
    the ids of the sections only: the markup of a chapter keeps the ids
    it came with, so the page made from the book can hold another
    element with the id of a section. *)
Theorem section_ids_distinct (buffer : list Byte.byte) (book : WholeBook.Book) :
  WholeBook.loadEntireBook buffer = Return book ->
  List.NoDup (List.map WholeBook.sectionId (WholeBook.bookSections book)).
Proof.
  intros (zip & structure & _ & _ & Hload & _)%loadEntireBook_inv.
  apply loadSections_adds in Hload as (added & -> & Hsub & _).
  eapply Sublist_NoDup; [exact Hsub | apply sectionNames_NoDup].
Qed.

Lemma rendered_has_path (zip : JSZip) (item : SpineItem) (html : string) :
  rendered zip item html -> itemFullPath item <> None.
Proof.
  intros [Hc _]. unfold itemFullPath, itemMediaType in *.
  destruct (spread item); simpl in *; congruence.
Qed.

Lemma find_sections (basePath : string) (sections : list WholeBook.BookSection) :
  Forall (fun s => WholeBook.sectionPath s <> None) sections ->
  Scroller.find (Scroller.matchesPath basePath) sections =
  Return (Scroller.firstSection basePath sections).
Proof.
  induction 1 as [|s sections Hs _ IH]; [reflexivity |].
  cbn [Scroller.find]. unfold Scroller.firstSection, Scroller.matchesPath.
  cbn [List.find]. destruct (WholeBook.sectionPath s) as [path|]; [|congruence].
  cbn [bind]. destruct (String.eqb _ _); [reflexivity | exact IH].
Qed.

(** X16: in the whole book, following a table-of-contents entry never
    throws.  Every section of a loaded book has a path (the spine
    entries without one are no content documents and give no section),
    so the search of [goToHref] always ends: the id handed to
    [document.getElementById] is that of the first section whose path,
    fragment stripped, is the target with its fragment stripped, no id
    is looked up when there is none, and the table of contents is closed
    in both cases.  (Which element carries that id in the page is not
    part of the statement.) *)
Theorem whole_book_goToHref_returns (buffer : list Byte.byte)
  (book : WholeBook.Book) (showToc : bool) (href : string) :
  WholeBook.loadEntireBook buffer = Return book ->
  Scroller.goToHref (Some book) showToc href =
  Return
    (option_map WholeBook.sectionId
       (Scroller.firstSection (PerChapter.stripFragment href)
          (WholeBook.bookSections book)),
     false).
Proof.
  intros (zip & structure & _ & _ & Hload & _)%loadEntireBook_inv.
  apply loadSections_adds in Hload as (added & Hadded & _ & Hall).
  unfold Scroller.goToHref. rewrite find_sections; [reflexivity |].
  rewrite Hadded. cbn [app]. eapply List.Forall_impl; [|exact Hall].
  intros s (k & item & _ & _ & -> & Hr). eapply rendered_has_path; eassumption.
Qed.

Lemma loadSections_throws (zip : JSZip) (items : list SpineItem)
  (item : SpineItem) (message : string) :
  In item items ->
  WholeBook.isContentDocument (itemMediaType item) = true ->
  loadSpineItem zip item = Throw message ->
  forall i sections,
  exists message', WholeBook.loadSections zip items i sections = Throw message'.
Proof.
  intros Hin Hc Hl. induction items as [|first items IH]; [contradiction |].
  intros i sections. cbn [WholeBook.loadSections].
  destruct Hin as [-> | Hin].
  - rewrite Hc, Hl. cbn [bind]. eauto.
  - destruct (WholeBook.isContentDocument (itemMediaType first)); [|now apply IH].
    destruct (loadSpineItem zip first) as [html|message']; cbn [bind]; [|eauto].
    destruct (Js.Boolean (trim html)); now apply IH.
Qed.

(** X17: one unreadable chapter fails the whole book.  If the text of a
    content document of the spine cannot be read from the archive (the
    read rejects), [loadEntireBook] rejects: no book is shown, not even
    the chapters before it.  (An image that cannot be read is left as it
    is, and a chapter that is missing is skipped.) *)
Theorem unreadable_chapter_fails_book (buffer : list Byte.byte) (zip : JSZip)
  (structure : WholeBook.Structure) (item : SpineItem) (message : string) :
  loadAsync buffer = Return zip ->
  WholeBook.parseStructure zip = Return structure ->
  In item (WholeBook.spine structure) ->
  WholeBook.isContentDocument (itemMediaType item) = true ->
  readItem zip item = Throw message ->
  exists message', WholeBook.loadEntireBook buffer = Throw message'.
Proof.
  intros Hzip Hs Hin Hc Hr.
  assert (loadSpineItem zip item = Throw message) as Hl
    by (unfold loadSpineItem; now rewrite Hr).
  destruct (loadSections_throws zip _ item message Hin Hc Hl 0%nat [])
    as [message' Hm].
  exists message'. unfold WholeBook.loadEntireBook.
  rewrite Hzip. cbn [bind]. rewrite Hs. cbn [bind]. now rewrite Hm.
Qed.

End Sections.

Lemma sections_follow_spine_witness :
  exists book,
    WholeBook.loadEntireBook (H := Shelf.host) Shelf.buffer = Return book
    /\ List.map WholeBook.sectionId (WholeBook.bookSections book) =
       ["sec-0"; "sec-1"]
    /\ exists zip structure,
         loadAsync (Host := Shelf.host) Shelf.buffer = Return zip
         /\ WholeBook.parseStructure (H := Shelf.host) zip = Return structure
         /\ Sublist (List.map WholeBook.sectionId (WholeBook.bookSections book))
              (List.map WholeBook.sectionName
                 (List.seq 0 (List.length (WholeBook.spine structure))))
         /\ Forall
              (fun s =>
                 exists k item,
                   List.nth_error (WholeBook.spine structure) k = Some item
                   /\ WholeBook.sectionId s = WholeBook.sectionName k
                   /\ WholeBook.sectionPath s = itemFullPath item
                   /\ rendered (H := Shelf.host) zip item (WholeBook.html s))
              (WholeBook.bookSections book).
Proof.
  eexists. split; [vm_compute; reflexivity |]. split; [reflexivity |].
  apply (sections_follow_spine (H := Shelf.host) Shelf.buffer).
  vm_compute. reflexivity.
Defined.

Lemma section_ids_distinct_witness :
  exists book,
    WholeBook.loadEntireBook (H := Shelf.host) Shelf.buffer = Return book
    /\ List.NoDup (List.map WholeBook.sectionId (WholeBook.bookSections book)).
Proof.
  eexists. split; [vm_compute; reflexivity |].
  apply (section_ids_distinct (H := Shelf.host) Shelf.buffer).
  vm_compute. reflexivity.
Defined.

Lemma whole_book_goToHref_returns_witness :
  exists book,
    WholeBook.loadEntireBook (H := Shelf.host) Shelf.buffer = Return book
    /\ Scroller.goToHref (Some book) true "OEBPS/chap2.xhtml#s1" =
       Return (Some "sec-1", false).
Proof.
  eexists. split; [vm_compute; reflexivity |].
  refine (eq_trans
            (whole_book_goToHref_returns (H := Shelf.host) Shelf.buffer _ true
               "OEBPS/chap2.xhtml#s1" _) _);
    vm_compute; reflexivity.
Defined.

Lemma unreadable_chapter_fails_book_witness :
  exists structure item,
    loadAsync (Host := Shelf.host) Shelf.damagedBuffer = Return Shelf.damagedZip
    /\ WholeBook.parseStructure (H := Shelf.host) Shelf.damagedZip =
       Return structure
    /\ In item (WholeBook.spine structure)
    /\ WholeBook.isContentDocument (itemMediaType item) = true
    /\ readItem Shelf.damagedZip item = Throw "Corrupted zip"
    /\ exists message',
         WholeBook.loadEntireBook (H := Shelf.host) Shelf.damagedBuffer =
         Throw message'.
Proof.
  exists
    (WholeBook.mkStructure
       (buildSpine (buildManifest "OEBPS/content.opf" Sample.opfDoc) Sample.opfDoc)
       (buildManifest "OEBPS/content.opf" Sample.opfDoc)
       (parseToc (H := Shelf.host) Shelf.damagedZip
          (buildManifest "OEBPS/content.opf" Sample.opfDoc))),
    (mkSpineItem (Some "c2")
       (Obj.Item
          (mkManifestItem (Some "chap2.xhtml") "application/xhtml+xml" ""
             "OEBPS/chap2.xhtml"))).
  assert (loadAsync (Host := Shelf.host) Shelf.damagedBuffer =
          Return Shelf.damagedZip) as H1 by reflexivity.
  assert (WholeBook.parseStructure (H := Shelf.host) Shelf.damagedZip =
          Return
            (WholeBook.mkStructure
               (buildSpine (buildManifest "OEBPS/content.opf" Sample.opfDoc)
                  Sample.opfDoc)
               (buildManifest "OEBPS/content.opf" Sample.opfDoc)
               (parseToc (H := Shelf.host) Shelf.damagedZip
                  (buildManifest "OEBPS/content.opf" Sample.opfDoc)))) as H2
    by (vm_compute; reflexivity).
  split; [exact H1 |]. split; [exact H2 |].
  split; [vm_compute; auto |]. split; [reflexivity |].
  split; [vm_compute; reflexivity |].
  apply (unreadable_chapter_fails_book (H := Shelf.host) Shelf.damagedBuffer
           Shelf.damagedZip _
           (mkSpineItem (Some "c2")
              (Obj.Item
                 (mkManifestItem (Some "chap2.xhtml") "application/xhtml+xml" ""
                    "OEBPS/chap2.xhtml")))
           "Corrupted zip" H1 H2);
    [vm_compute; auto | reflexivity | vm_compute; reflexivity].
Defined.

(** ** Paging through the chapters *)



Section Paging.

Context `{Host}.

Lemma spineLengthOr1_some (data : PerChapter.EpubData) :
  Pager.spineLengthOr1 (Some data) =
  Z.max 1 (Z.of_nat (List.length (PerChapter.spine data))).
Proof.
  unfold Pager.spineLengthOr1.
  destruct (PerChapter.spine data); cbn [List.length]; lia.
Qed.

Lemma spineLengthOr1_positive (epubData : option PerChapter.EpubData) :
  (1 <= Pager.spineLengthOr1 epubData)%Z.
Proof.
  destruct epubData as [data|]; [|reflexivity].
  rewrite spineLengthOr1_some. lia.
Qed.

(** An index that [findIndex] returns is [-1] or a position of the
    array. *)
Lemma findIndexFrom_range {A} (callback : A -> Outcome bool) (l : list A)
  (i idx : Z) :
  PerChapter.findIndexFrom callback l i = Return idx ->
  idx = (-1)%Z \/ (i <= idx < i + Z.of_nat (List.length l))%Z.
Proof.
  revert i. induction l as [|x l IH]; intros i.
  - intros [= <-]. now left.
  - cbn [PerChapter.findIndexFrom List.length].
    destruct (callback x) as [[|]|]; cbn [bind]; [| |discriminate].
    + intros [= <-]. right. lia.
    + intros [-> | Hr]%IH; [now left | right; lia].
Qed.

Lemma wellPlaced_goToHref (st st' : PerChapter.State) (href : string) :
  Pager.wellPlaced st -> PerChapter.goToHref st href = Return st' ->
  Pager.wellPlaced st'.
Proof.
  destruct st as [epubData chapterIndex showToc].
  unfold Pager.wellPlaced, PerChapter.goToHref.
  cbn [PerChapter.epubData PerChapter.chapterIndex PerChapter.showToc].
  intros Hw. destruct epubData as [data|]; [|now intros [= <-]].
  unfold PerChapter.findIndex.
  destruct (PerChapter.findIndexFrom _ _ _) as [idx|] eqn:Ei; [|discriminate].
  cbn [bind]. apply findIndexFrom_range in Ei.
  destruct (idx >=? 0)%Z eqn:Eg; intros [= <-];
    cbn [PerChapter.epubData PerChapter.chapterIndex]; [|exact Hw].
  apply Z.geb_le in Eg. rewrite spineLengthOr1_some. lia.
Qed.

(** X18: the chapter index stays in range.  If the index names a spine
    entry (or is 0 while no book, or a book with an empty spine, is
    loaded), it still does after [goPrev], after [goNext] and after
    every [goToHref] that returns. *)
Theorem chapter_index_stays_in_range (st : PerChapter.State) :
  Pager.wellPlaced st ->
  Pager.wellPlaced (Pager.goPrev st)
  /\ Pager.wellPlaced (Pager.goNext st)
  /\ forall href st',
       PerChapter.goToHref st href = Return st' -> Pager.wellPlaced st'.
Proof.
  intros Hw. split; [|split].
  - unfold Pager.wellPlaced, Pager.goPrev in *.
    cbn [PerChapter.epubData PerChapter.chapterIndex]. lia.
  - unfold Pager.wellPlaced, Pager.goNext in *.
    cbn [PerChapter.epubData PerChapter.chapterIndex]. lia.
  - intros href st'. now apply wellPlaced_goToHref.
Qed.

(** X19: paging forth and back.  From a position that is not the last,
    [goNext] followed by [goPrev] comes back to the same state, and from
    one that is not the first so does [goPrev] followed by [goNext]; at
    the last position [goNext] changes nothing, and at the first
    [goPrev] changes nothing. *)
Theorem paging_round_trip (st : PerChapter.State) :
  Pager.wellPlaced st ->
  let last := (Pager.spineLengthOr1 (PerChapter.epubData st) - 1)%Z in
  (if (PerChapter.chapterIndex st <? last)%Z
   then Pager.goPrev (Pager.goNext st) = st
        /\ PerChapter.chapterIndex (Pager.goNext st) =
           (PerChapter.chapterIndex st + 1)%Z
   else Pager.goNext st = st)
  /\ (if (0 <? PerChapter.chapterIndex st)%Z
      then Pager.goNext (Pager.goPrev st) = st
           /\ PerChapter.chapterIndex (Pager.goPrev st) =
              (PerChapter.chapterIndex st - 1)%Z
      else Pager.goPrev st = st).
Proof.
  destruct st as [epubData chapterIndex showToc].
  unfold Pager.wellPlaced, Pager.goPrev, Pager.goNext.
  cbn [PerChapter.epubData PerChapter.chapterIndex PerChapter.showToc].
  intros Hw. cbv zeta. split.
  - destruct (chapterIndex <? _)%Z eqn:E.
    + apply Z.ltb_lt in E. split; [f_equal |]; lia.
    + apply Z.ltb_ge in E. f_equal. lia.
  - destruct (0 <? chapterIndex)%Z eqn:E.
    + apply Z.ltb_lt in E. split; [f_equal |]; lia.
    + apply Z.ltb_ge in E. f_equal. lia.
Qed.





End Paging.

Lemma chapter_index_stays_in_range_witness :
  Pager.wellPlaced
    (PerChapter.mkState
       (Some (PerChapter.mkEpubData Sample.zip
                [Sample.chapterItem; Sample.chapterItem] Obj.empty []))
       1 true)
  /\ Pager.wellPlaced
       (Pager.goNext
          (PerChapter.mkState
             (Some (PerChapter.mkEpubData Sample.zip
                      [Sample.chapterItem; Sample.chapterItem] Obj.empty []))
             1 true)).
Proof.
  assert (Pager.wellPlaced
            (PerChapter.mkState
               (Some (PerChapter.mkEpubData Sample.zip
                        [Sample.chapterItem; Sample.chapterItem] Obj.empty []))
               1 true)) as Hw by (unfold Pager.wellPlaced; simpl; lia).
  split; [exact Hw |]. now apply chapter_index_stays_in_range.
Defined.

Lemma paging_round_trip_witness :
  Pager.wellPlaced
    (PerChapter.mkState
       (Some (PerChapter.mkEpubData Sample.zip
                [Sample.chapterItem; Sample.chapterItem] Obj.empty []))
       0 false)
  /\ Pager.goPrev
       (Pager.goNext
          (PerChapter.mkState
             (Some (PerChapter.mkEpubData Sample.zip
                      [Sample.chapterItem; Sample.chapterItem] Obj.empty []))
             0 false)) =
     PerChapter.mkState
       (Some (PerChapter.mkEpubData Sample.zip
                [Sample.chapterItem; Sample.chapterItem] Obj.empty []))
       0 false.
Proof.
  assert (Pager.wellPlaced
            (PerChapter.mkState
               (Some (PerChapter.mkEpubData Sample.zip
                        [Sample.chapterItem; Sample.chapterItem] Obj.empty []))
               0 false)) as Hw by (unfold Pager.wellPlaced; simpl; lia).
  split; [exact Hw |].
  exact (proj1 (proj1 (paging_round_trip _ Hw))).
Defined.

(** ** What the normaliser leaves alone *)

Lemma sameElsewhere_refl (attrs : gmap string Attr) : sameElsewhere attrs attrs.
Proof. now intros name _. Qed.

Lemma sameElsewhere_trans (a b c : gmap string Attr) :
  sameElsewhere a b -> sameElsewhere b c -> sameElsewhere a c.
Proof. intros Hab Hbc name Hn. now rewrite Hbc, Hab. Qed.

Lemma sameElsewhere_setAttribute (attrs : gmap string Attr) (name v : string) :
  In name touchedAttributes -> sameElsewhere attrs (setAttribute attrs name v).
Proof.
  intros Hin other Hother. unfold setAttribute.
  assert (name <> other) as Hne by (intros ->; contradiction).
  destruct (attrs !! name); now rewrite lookup_insert_ne.
Qed.

Lemma sameElsewhere_removeAttribute (attrs : gmap string Attr) (name : string) :
  In name touchedAttributes -> sameElsewhere attrs (removeAttribute attrs name).
Proof.
  intros Hin other Hother. unfold removeAttribute.
  assert (name <> other) as Hne by (intros ->; contradiction).
  now rewrite lookup_delete_ne.
Qed.

Section Untouched.

Context `{Host}.

Lemma sameElsewhere_stripStyle (name : string) (attrs : gmap string Attr) :
  sameElsewhere attrs (stripStyle name attrs).
Proof.
  unfold stripStyle. destruct (hasAttr "style" attrs);
    [|apply sameElsewhere_refl].
  apply sameElsewhere_removeAttribute. simpl. tauto.
Qed.

Lemma sameElsewhere_inlineImg (zip : JSZip) (dir name : string)
  (attrs : gmap string Attr) :
  sameElsewhere attrs (inlineImg zip dir name attrs).
Proof.
  unfold inlineImg.
  destruct (String.eqb name "img"); [|apply sameElsewhere_refl].
  destruct (nonEmpty _) as [src|]; [|apply sameElsewhere_refl].
  destruct (Js.startsWith src "data:"); [apply sameElsewhere_refl |].
  destruct (file zip _) as [f|]; [|apply sameElsewhere_refl].
  destruct (async_blob f); cbn [bind tryCatch]; [|apply sameElsewhere_refl].
  apply sameElsewhere_setAttribute. simpl. tauto.
Qed.

Lemma sameElsewhere_inlineSvgImage (zip : JSZip) (dir name : string)
  (attrs : gmap string Attr) :
  sameElsewhere attrs (inlineSvgImage zip dir name attrs).
Proof.
  unfold inlineSvgImage.
  destruct (String.eqb name "image"); [|apply sameElsewhere_refl].
  destruct (nonEmpty _) as [href|]; [|apply sameElsewhere_refl].
  destruct (Js.startsWith href "data:"); [apply sameElsewhere_refl |].
  destruct (file zip _) as [f|]; [|apply sameElsewhere_refl].
  destruct (async_blob f); cbn [bind tryCatch]; [|apply sameElsewhere_refl].
  eapply sameElsewhere_trans; apply sameElsewhere_setAttribute; simpl; tauto.
Qed.

End Untouched.

Lemma updateElements_fuse
  (f g : string -> gmap string Attr -> gmap string Attr) (n : Node) :
  updateElements g (updateElements f n) =
  updateElements (fun name attrs => g name (f name attrs)) n.
Proof.
  induction n as [ns name attrs cs IH | d] using Node_ind; [|reflexivity].
  cbn [updateElements]. f_equal. rewrite List.map_map.
  induction IH as [|c cs Hc _ IHcs]; [reflexivity |].
  cbn [List.map]. now rewrite Hc, IHcs.
Qed.

Lemma updateDescendants_fuse
  (f g : string -> gmap string Attr -> gmap string Attr) (n : Node) :
  updateDescendants g (updateDescendants f n) =
  updateDescendants (fun name attrs => g name (f name attrs)) n.
Proof.
  destruct n as [ns name attrs cs | d]; [|reflexivity].
  cbn [updateDescendants]. f_equal. rewrite List.map_map.
  apply List.map_ext. intros c. apply updateElements_fuse.
Qed.

Lemma sameShape_updateElements
  (f : string -> gmap string Attr -> gmap string Attr) (n : Node) :
  (forall name attrs, sameElsewhere attrs (f name attrs)) ->
  sameShape n (updateElements f n).
Proof.
  intros Hf. induction n as [ns name attrs cs IH | d] using Node_ind;
    [|constructor].
  cbn [updateElements]. constructor; [apply Hf |].
  induction IH as [|c cs Hc _ IHcs]; constructor; assumption.
Qed.

Lemma sameShape_updateDescendants
  (f : string -> gmap string Attr -> gmap string Attr) (n : Node) :
  (forall name attrs, sameElsewhere attrs (f name attrs)) ->
  sameShape n (updateDescendants f n).
Proof.
  intros Hf. destruct n as [ns name attrs cs | d]; [|constructor].
  cbn [updateDescendants]. constructor; [apply sameElsewhere_refl |].
  induction cs as [|c cs IH]; constructor;
    [now apply sameShape_updateElements | exact IH].
Qed.

(** Trees of the same shape have the same text. *)
Lemma sameShape_textContent (n n' : Node) :
  sameShape n n' -> textContent n' = textContent n.
Proof.
  revert n'. induction n as [ns name attrs cs IH | d] using Node_ind;
    intros n' Hs; inversion Hs as [|? ? ? attrs' ? cs' _ Hcs]; subst;
    [|reflexivity].
  cbn [textContent]. f_equal. clear Hs.
  revert cs' Hcs. induction IH as [|c cs Hc _ IHcs]; intros cs' Hcs.
  - now inversion Hcs.
  - inversion Hcs as [|? c' ? cs'' Hcc Hrest]; subst.
    cbn [List.map]. now rewrite (Hc c' Hcc), (IHcs cs'' Hrest).
Qed.

Lemma descendants_updateElements
  (f : string -> gmap string Attr -> gmap string Attr) (n : Node) :
  descendants (updateElements f n) = List.map (updateElements f) (descendants n).
Proof.
  induction n as [ns name attrs cs IH | d] using Node_ind; [|reflexivity].
  cbn [updateElements descendants].
  induction IH as [|c cs Hc _ IHcs]; [reflexivity |].
  cbn [List.map flat_map]. rewrite List.map_app, IHcs. cbn [List.map].
  now rewrite Hc.
Qed.

Lemma descendants_updateDescendants
  (f : string -> gmap string Attr -> gmap string Attr) (n : Node) :
  descendants (updateDescendants f n) =
  List.map (updateElements f) (descendants n).
Proof.
  destruct n as [ns name attrs cs | d]; [|reflexivity].
  cbn [updateDescendants descendants].
  induction cs as [|c cs IH]; [reflexivity |].
  cbn [List.map flat_map]. rewrite List.map_app, IH. cbn [List.map].
  now rewrite descendants_updateElements.
Qed.

(** What the selectors of the stripping loops see of an element: its
    namespace, its name, and its attributes [rel] and [style]. *)
Lemma selectedStyling_attributes (htmlDocument : bool) (ns : Namespace)
  (name : string) (attrs attrs' : gmap string Attr) (cs cs' : list Node) :
  attrs' !! "rel" = attrs !! "rel" ->
  attrs' !! "style" = attrs !! "style" ->
  selectedStyling htmlDocument (Element ns name attrs' cs') =
  selectedStyling htmlDocument (Element ns name attrs cs).
Proof.
  intros Hrel Hstyle.
  unfold selectedStyling, isStylesheet, relIs, attrIs, attrIsNoCase, hasAttr.
  cbn [named attributesOf]. rewrite Hrel, Hstyle. now destruct ns.
Qed.

Lemma stripStyle_no_style (name : string) (attrs : gmap string Attr) :
  hasAttr "style" (stripStyle name attrs) = false
  /\ stripStyle name attrs !! "rel" = attrs !! "rel".
Proof.
  unfold stripStyle. destruct (hasAttr "style" attrs) eqn:E; [|now split].
  unfold hasAttr, removeAttribute.
  now rewrite lookup_delete_eq, lookup_delete_ne.
Qed.

Lemma setAttribute_other (attrs : gmap string Attr) (name v other : string) :
  name <> other -> setAttribute attrs name v !! other = attrs !! other.
Proof.
  intros Hne. unfold setAttribute.
  destruct (attrs !! name); now rewrite lookup_insert_ne.
Qed.

Section Structure.

Context `{Host}.

Lemma inlineImg_other_attribute (zip : JSZip) (dir name other : string)
  (attrs : gmap string Attr) :
  "src" <> other -> inlineImg zip dir name attrs !! other = attrs !! other.
Proof.
  intros Hne. unfold inlineImg.
  destruct (String.eqb name "img"); [|reflexivity].
  destruct (nonEmpty _) as [src|]; [|reflexivity].
  destruct (Js.startsWith src "data:"); [reflexivity |].
  destruct (file zip _) as [f|]; [|reflexivity].
  destruct (async_blob f); cbn [bind tryCatch]; [|reflexivity].
  now apply setAttribute_other.
Qed.

Lemma inlineSvgImage_other_attribute (zip : JSZip) (dir name other : string)
  (attrs : gmap string Attr) :
  "xlink:href" <> other -> "href" <> other ->
  inlineSvgImage zip dir name attrs !! other = attrs !! other.
Proof.
  intros Hx Hh. unfold inlineSvgImage.
  destruct (String.eqb name "image"); [|reflexivity].
  destruct (nonEmpty _) as [href|]; [|reflexivity].
  destruct (Js.startsWith href "data:"); [reflexivity |].
  destruct (file zip _) as [f|]; [|reflexivity].
  destruct (async_blob f); cbn [bind tryCatch]; [|reflexivity].
  now rewrite !setAttribute_other.
Qed.

Lemma strippedBody_root (raw : string) :
  strippedBody raw =
  updateDescendants stripStyle
    (removeAll (isStylesheet (fst (parseChapter raw)))
       (contentRoot (snd (parseChapter raw)))).
Proof. unfold strippedBody. now destruct (parseChapter raw). Qed.

(** The body that the normaliser returns, as one pass over the content
    root that the removal of the style sheets leaves. *)
Lemma sanitizedBody_pass (zip : JSZip) (item : SpineItem) (raw : string)
  (body : Node) :
  sanitizedBody zip item raw = Return body ->
  exists dir,
    body =
    updateDescendants
      (fun name attrs =>
         inlineSvgImage zip dir name
           (inlineImg zip dir name (stripStyle name attrs)))
      (removeAll (isStylesheet (fst (parseChapter raw)))
         (contentRoot (snd (parseChapter raw)))).
Proof.
  unfold sanitizedBody. rewrite strippedBody_root.
  destruct (itemDirOf item) as [dir|]; [|discriminate]. cbn [bind].
  intros [= <-]. exists dir. now rewrite !updateDescendants_fuse.
Qed.

(** What the selectors of the two stripping loops select is gone from
    the fragment: below the body that the normaliser returns there is no
    element that [style, link[rel="stylesheet"]] selects in the document
    the chapter was parsed into, and none that [[style]] selects. *)
Lemma selected_styling_removed (zip : JSZip) (item : SpineItem) (raw : string)
  (body : Node) :
  sanitizedBody zip item raw = Return body ->
  Forall (fun d => selectedStyling (fst (parseChapter raw)) d = false)
    (descendants body).
Proof.
  intros (dir & ->)%sanitizedBody_pass.
  rewrite descendants_updateDescendants. apply List.Forall_map.
  eapply List.Forall_impl;
    [|apply descendants_removeAll; intros c; apply isStylesheet_removeAll].
  intros [ns name attrs cs | d] Hd; [|reflexivity].
  cbn [updateElements].
  destruct (stripStyle_no_style name attrs) as [Hstyle Hrel].
  rewrite (selectedStyling_attributes _ ns name (stripStyle name attrs) _ cs).
  - unfold selectedStyling.
    assert (isStylesheet (fst (parseChapter raw))
              (Element ns name (stripStyle name attrs) cs) = false) as ->.
    { rewrite <- Hd. unfold isStylesheet, relIs, attrIs, attrIsNoCase.
      cbn [named attributesOf]. rewrite Hrel. now destruct ns. }
    exact Hstyle.
  - now rewrite inlineSvgImage_other_attribute, inlineImg_other_attribute.
  - now rewrite inlineSvgImage_other_attribute, inlineImg_other_attribute.
Qed.

(** X21: the normaliser leaves the document as it is but for styling
    and image references.  Take the content root of the document the
    chapter is parsed into, with the elements that the selector
    [style, link[rel="stylesheet"]] selects in that document (where the
    value of [rel] is compared without regard to case on an HTML element
    of the HTML document of the fallback parse, and exactly otherwise)
    taken out with everything under them.  The body that is returned has
    the same elements with the same names and namespaces in the same
    places and the same text; of their attributes only [style], [src],
    [href] and [xlink:href] can differ: every other attribute is there
    with the value and namespace it had, and none is added.  The text of
    the fragment is therefore the text of that root. *)
Theorem normaliser_keeps_structure (zip : JSZip) (item : SpineItem)
  (raw : string) (body : Node) :
  sanitizedBody zip item raw = Return body ->
  let root :=
    removeAll (isStylesheet (fst (parseChapter raw)))
      (contentRoot (snd (parseChapter raw))) in
  sameShape root body /\ textContent body = textContent root.
Proof.
  intros (dir & ->)%sanitizedBody_pass. cbv zeta.
  assert (sameShape
            (removeAll (isStylesheet (fst (parseChapter raw)))
               (contentRoot (snd (parseChapter raw))))
            (updateDescendants
               (fun name attrs =>
                  inlineSvgImage zip dir name
                    (inlineImg zip dir name (stripStyle name attrs)))
               (removeAll (isStylesheet (fst (parseChapter raw)))
                  (contentRoot (snd (parseChapter raw))))))
    as Hs.
  { apply sameShape_updateDescendants. intros name attrs.
    eapply sameElsewhere_trans; [apply sameElsewhere_stripStyle |].
    eapply sameElsewhere_trans;
      [apply sameElsewhere_inlineImg | apply sameElsewhere_inlineSvgImage]. }
  split; [exact Hs | now apply sameShape_textContent].
Qed.

(** X22: what the selectors of the stripping loops select is gone from
    the fragment.  For a spine item whose entry is readable and not
    empty, [loadChapter] and [loadSpineItem] return the serialisation of
    a body below which there is no [style] element, no element with a
    [style] attribute (in no namespace), and no [link] element that the
    selector [link[rel="stylesheet"]] selects in the document the chapter
    was parsed into.  (A link whose [rel] that selector does not match
    stays: in an XML document the value is compared exactly.) *)
Theorem selected_styling_is_removed
  (zip : JSZip) (item : SpineItem) (path raw : string) :
  itemFullPath item = Some path ->
  readText zip path = Return (Some raw) ->
  raw <> "" ->
  exists body,
    loadChapter zip item = Return (innerHTML body)
    /\ loadSpineItem zip item = Return (innerHTML body)
    /\ Forall
         (fun d =>
            named "style" d = false
            /\ hasAttr "style" (attributesOf d) = false
            /\ (named "link" d
                && relIs (fst (parseChapter raw)) "stylesheet" d) = false)
         (descendants body).
Proof.
  intros Hpath Hread Hraw.
  destruct (load_present zip item path raw Hpath Hread Hraw) as (Hb & Hc & Hs).
  eexists. split; [exact Hc |]. split; [exact Hs |].
  eapply List.Forall_impl; [|exact (selected_styling_removed _ _ _ _ Hb)].
  intros d. unfold selectedStyling, isStylesheet.
  intros [[H1 H2]%orb_false_iff H3]%orb_false_iff. auto.
Qed.

End Structure.

Lemma normaliser_keeps_structure_witness :
  exists body,
    sanitizedBody (H := Sample.host) Sample.zip Sample.chapterItem
      Sample.chapterXml = Return body
    /\ sameShape
         (removeAll
            (isStylesheet (fst (parseChapter (H := Sample.host) Sample.chapterXml)))
            (contentRoot (snd (parseChapter (H := Sample.host) Sample.chapterXml))))
         body
    /\ textContent body = "Hello".
Proof.
  eexists. split; [vm_compute; reflexivity |].
  destruct (normaliser_keeps_structure (H := Sample.host) Sample.zip
              Sample.chapterItem Sample.chapterXml _ eq_refl) as [Hs Ht].
  split; [exact Hs | exact Ht].
Defined.

Lemma selected_styling_is_removed_witness :
  itemFullPath Sample.chapterItem = Some "OEBPS/text/ch1.xhtml"
  /\ readText Sample.zip "OEBPS/text/ch1.xhtml" = Return (Some Sample.chapterXml)
  /\ Sample.chapterXml <> ""
  /\ exists body,
       loadChapter (H := Sample.host) Sample.zip Sample.chapterItem
       = Return (innerHTML (Host := Sample.host) body)
       /\ loadSpineItem (H := Sample.host) Sample.zip Sample.chapterItem
          = Return (innerHTML (Host := Sample.host) body)
       /\ Forall
            (fun d =>
               named "style" d = false
               /\ hasAttr "style" (attributesOf d) = false
               /\ (named "link" d
                   && relIs (fst (parseChapter (H := Sample.host) Sample.chapterXml))
                        "stylesheet" d) = false)
            (descendants body).
Proof.
  split; [reflexivity |]. split; [reflexivity |]. split; [discriminate |].
  apply (selected_styling_is_removed (H := Sample.host) Sample.zip
           Sample.chapterItem "OEBPS/text/ch1.xhtml" Sample.chapterXml);
    [reflexivity | reflexivity | discriminate].
Defined.
